(** * Scira: shallow embedding of the server-side helpers

    The development follows the TypeScript sources:
    - [Db]           the weighted round-robin read-replica selector
                     (database bootstrap file, [selectReplica]);
    - [UserData]     the per-user in-memory caches with expiry and the
                     functions deriving the Pro flag from subscriptions;
    - [Subscription] [getComprehensiveProStatus] and [isUserSubscribed];
    - [Reddit]       the Reddit search tool (input schema and [execute]);
    - [Trending]     the trending movies tool;
    - [Discount]     [isStudentEmail].

    [Vocabulary] holds the predicates the statements are written with
    and [Samples] the concrete data the examples run on; the modules
    whose names end in [Facts] hold the proofs.

    Conventions.  JavaScript numbers that only ever hold integers
    (indices, weights, millisecond timestamps) are embedded as [Z];
    numbers coming from JSON (ratings, result limits) as rationals [Q].
    Strings are sequences of code units below 256.  [null]/[undefined]
    are [None].  A function that can throw returns an [outcome]. *)

From stdpp Require Import base numbers option list sorting strings gmap.
From Stdlib Require Import ZArith QArith Lia.
From Stdlib Require Import Ascii.

#[local] Open Scope Z_scope.

(** Result of a call that either returns or throws an [Error]. *)
Inductive outcome (A : Type) : Type :=
| Returned (a : A)
| Thrown (msg : string).
Arguments Returned {A} a.
Arguments Thrown {A} msg.

(** JavaScript array indexing with a number that may be negative or out
    of range: [arr[i]] is [undefined] there. *)
Definition js_index {A} (l : list A) (i : Z) : option A :=
  if i <? 0 then None else l !! Z.to_nat i.

(* ===================================================================== *)
(** ** The read-replica selector *)
(* ===================================================================== *)

Module Db.

Definition REPLICA_WEIGHTS : list Z := [4; 6].

(** Module-level mutable state: [currentIndex] and [currentWeight]. *)
Record selector : Type := Selector {
  currentIndex : Z;
  currentWeight : Z
}.

Definition initial : selector :=
  {| currentIndex := -1; currentWeight := 0 |}.

(** [gcd a b = b === 0 ? a : gcd(b, a % b)]; the recursion is driven by
    a counter that [gcd] sets above the number of steps Euclid's
    algorithm can take. *)
Fixpoint gcd_fuel (fuel : nat) (a b : Z) : Z :=
  if b =? 0 then a
  else match fuel with
       | O => a
       | S fuel' => gcd_fuel fuel' b (Z.rem a b)
       end.

Definition gcd (a b : Z) : Z := gcd_fuel (S (Z.abs_nat b)) a b.

(** [Array.prototype.reduce] without an initial value, on a non-empty
    array ([d] stands for the [TypeError] of the empty case, which the
    constant [REPLICA_WEIGHTS] never meets). *)
Definition reduce1 (f : Z -> Z -> Z) (l : list Z) (d : Z) : Z :=
  match l with
  | [] => d
  | x :: xs => foldl f x xs
  end.

Definition MAX_WEIGHT : Z := reduce1 Z.max REPLICA_WEIGHTS 0.
Definition WEIGHT_GCD : Z := reduce1 gcd REPLICA_WEIGHTS 0.

(** [weights[currentIndex] >= currentWeight]; the comparison with
    [undefined] is [false]. *)
Definition weight_reaches (w : option Z) (cw : Z) : bool :=
  match w with
  | Some w => cw <=? w
  | None => false
  end.

(** One pass through the body of [while (true)]: the updated state, and
    whether the [return] is taken. *)
Definition iteration (n : Z) (weights : list Z) (s : selector) : selector * bool :=
  let i := Z.rem (currentIndex s + 1) n in
  let cw :=
    if i =? 0 then
      let cw1 := currentWeight s - WEIGHT_GCD in
      if cw1 <=? 0 then MAX_WEIGHT else cw1
    else currentWeight s in
  (Selector i cw, weight_reaches (js_index weights i) cw).

(** The loop, with a bound on the number of iterations; [None] means the
    bound was reached before the [return]. *)
Fixpoint loop (fuel : nat) (n : Z) (weights : list Z) (s : selector) : option selector :=
  match fuel with
  | O => None
  | S fuel' =>
      let '(s', stop) := iteration n weights s in
      if stop then Some s' else loop fuel' n weights s'
  end.

(** [selectReplica(replicas)].  The returned value is
    [replicas[currentIndex]], [None] standing for [undefined]. *)
Definition selectReplica {T} (fuel : nat) (replicas : list T) (s : selector)
  : option (outcome (option T) * selector) :=
  if (length replicas =? 0)%nat then
    Some (Thrown "No replicas configured", s)
  else
    let weights := take (length replicas) REPLICA_WEIGHTS in
    match loop fuel (Z.of_nat (length replicas)) weights s with
    | None => None
    | Some s' => Some (Returned (js_index replicas (currentIndex s')), s')
    end.

(** [k] consecutive calls on the same list; each entry records the
    index the selector stopped at and what the call produced. *)
Fixpoint calls {T} (fuel : nat) (k : nat) (replicas : list T) (s : selector)
  : option (list (Z * outcome (option T)) * selector) :=
  match k with
  | O => Some ([], s)
  | S k' =>
      match selectReplica fuel replicas s with
      | None => None
      | Some (o, s1) =>
          match calls fuel k' replicas s1 with
          | None => None
          | Some (os, s2) => Some ((currentIndex s1, o) :: os, s2)
          end
      end
  end.

(** States the module can be in: the initial one, and the state left by
    any call (returning or throwing) on a list of at most two replicas. *)
Inductive reachable : selector -> Prop :=
| reach_initial : reachable initial
| reach_call {T} (replicas : list T) fuel s o s' :
    reachable s ->
    (length replicas <= 2)%nat ->
    selectReplica fuel replicas s = Some (o, s') ->
    reachable s'.

(** The order in which two replicas are served. *)
Definition pattern : list Z := [1; 0; 1; 0; 1].

Definition pattern_at (i : nat) : Z :=
  default 0 (pattern !! (i mod 5)%nat).

Definition count_index (i : Z) (l : list Z) : nat :=
  length (filter (fun j => j = i) l).

(** The values the two variables take. *)
Definition in_range (s : selector) : Prop :=
  currentIndex s ∈ [-1; 0; 1] /\ currentWeight s ∈ [0; 2; 4; 6].

(** The states the selector goes through on two replicas. *)
Definition cycle : list selector :=
  [Selector 1 6; Selector 0 4; Selector 1 4; Selector 0 2; Selector 1 2].

Definition state_after (j : nat) : selector :=
  match j with
  | O => initial
  | S j' => default initial (cycle !! (j' mod 5)%nat)
  end.

(** What [k] calls produce when [from] calls came before. *)
Definition expected_trace {T} (replicas : list T) (from k : nat)
  : list (Z * outcome (option T)) :=
  map (fun i => (pattern_at i, Returned (js_index replicas (pattern_at i))))
      (seq from k).

End Db.

(* ===================================================================== *)
(** ** JavaScript helpers shared by the modules below *)
(* ===================================================================== *)

(** Truthiness of a string that may be [null]: [null] and [''] are falsy. *)
Definition truthy_string (s : option string) : bool :=
  match s with
  | Some s => negb (bool_decide (s = EmptyString))
  | None => false
  end.

(** [s.split(c)] for a one-character separator: the pieces between the
    occurrences of [c]; the empty string gives one empty piece. *)
Fixpoint js_split (c : ascii) (s : string) : list string :=
  match s with
  | EmptyString => [EmptyString]
  | String a s' =>
      if bool_decide (a = c) then EmptyString :: js_split c s'
      else match js_split c s' with
           | [] => [String a EmptyString]
           | p :: ps => String a p :: ps
           end
  end.

(** [Array.prototype.sort(cmp)], which is stable.  [after a b] says that
    the comparator is positive on [(a, b)], so that [a] is placed after
    [b].  An element is moved past those that it must follow, and stays
    in front of the ones it ties with. *)
Fixpoint js_sort_insert {A} (after : A -> A -> bool) (x : A) (l : list A) : list A :=
  match l with
  | [] => [x]
  | y :: l' => if after x y then y :: js_sort_insert after x l' else x :: l
  end.

Definition js_sort {A} (after : A -> A -> bool) (l : list A) : list A :=
  foldr (js_sort_insert after) [] l.

(* ===================================================================== *)
(** ** Users, subscriptions and the per-user caches *)
(* ===================================================================== *)

Module UserData.

(** Rows of the two tables that the queries read.  Timestamps are
    milliseconds since the epoch. *)
Record user_row : Type := UserRow {
  user_id : string;
  user_email : string;
  user_emailVerified : bool;
  user_name : option string;
  user_image : option string;
  user_stripeCustomerId : option string;
  user_createdAt : Z;
  user_updatedAt : Z
}.

Record subscription_row : Type := SubscriptionRow {
  sub_id : string;
  sub_plan : string;
  sub_status : string;
  sub_referenceId : string;
  sub_periodStart : option Z;
  sub_periodEnd : option Z;
  sub_cancelAtPeriodEnd : option bool;
  sub_cancelAt : option Z;
  sub_canceledAt : option Z;
  sub_endedAt : option Z
}.

Record database : Type := Database {
  users : list user_row;
  subscriptions : list subscription_row
}.

(** [select().from(subscription).where(eq(subscription.referenceId, userId))] *)
Definition subscriptions_of (db : database) (userId : string) : list subscription_row :=
  filter (fun s => sub_referenceId s = userId) (subscriptions db).

(** [from(user).leftJoin(subscription, eq(subscription.referenceId, user.id))
     .where(eq(user.id, userId))]: one row per matching subscription, and
    a row whose subscription columns are all [null] for a user without
    any. *)
Definition user_with_subscriptions (db : database) (userId : string)
  : list (user_row * option subscription_row) :=
  flat_map
    (fun u =>
       match subscriptions_of db (user_id u) with
       | [] => [(u, None)]
       | subs => map (fun s => (u, Some s)) subs
       end)
    (filter (fun u => user_id u = userId) (users db)).

Inductive status_label : Type := active | canceled | expired | none.

Record StripeSubscription : Type := MkStripeSubscription {
  ss_id : string;
  ss_plan : string;
  ss_status : string;
  ss_periodStart : option Z;
  ss_periodEnd : option Z;
  ss_cancelAtPeriodEnd : bool;
  ss_cancelAt : option Z;
  ss_canceledAt : option Z;
  ss_endedAt : option Z
}.

Record ComprehensiveUserData : Type := MkComprehensiveUserData {
  id : string;
  email : string;
  emailVerified : bool;
  name : string;
  image : option string;
  stripeCustomerId : option string;
  createdAt : Z;
  updatedAt : Z;
  isProUser : bool;
  subscriptionStatus : status_label;
  stripeSubscription : option StripeSubscription
}.

Record LightweightUserAuth : Type := MkLightweightUserAuth {
  la_userId : string;
  la_email : string;
  la_isProUser : bool
}.

Definition CACHE_TTL_MS : Z := 5 * 60 * 1000.
Definition LIGHTWEIGHT_CACHE_TTL_MS : Z := 2 * 60 * 1000.

(** The two read replicas handed to [withReplicas]. *)
Inductive replica : Type := dbread1 | dbread2.

(** Module-level state of the server process: the two maps and the
    selector of the database module.  (The caches of custom instructions
    and of preferences are not read by the functions below.)  An entry
    is a pair of the data and [expiresAt]. *)
Record server : Type := Server {
  userDataCache : gmap string (ComprehensiveUserData * Z);
  lightweightAuthCache : gmap string (LightweightUserAuth * Z);
  selector : Db.selector
}.

Definition with_userDataCache (st : server) c : server :=
  Server c (lightweightAuthCache st) (selector st).
Definition with_lightweightAuthCache (st : server) c : server :=
  Server (userDataCache st) c (selector st).
Definition with_selector (st : server) s : server :=
  Server (userDataCache st) (lightweightAuthCache st) s.

(** What a call meets outside the process: the session lookup (which can
    throw, or give [session?.user?.id]), the query (which can throw, or
    runs on the tables), and the clock at each place it is read. *)
Record env : Type := Env {
  session_user : outcome (option string);
  db : outcome database;
  now_lookup_light : Z;   (* [Date.now()] in [getCachedLightweightAuth] *)
  now_lookup : Z;         (* [Date.now()] in [getCachedUserData] *)
  now_status : Z;         (* [new Date()] when the status is derived *)
  now_store : Z;          (* [Date.now()] in [setCachedUserData] *)
  now_store_light : Z     (* [Date.now()] in [setCachedLightweightAuth] *)
}.

Definition getCachedUserData (now : Z) (userId : string)
    (cache : gmap string (ComprehensiveUserData * Z))
  : option ComprehensiveUserData * gmap string (ComprehensiveUserData * Z) :=
  match cache !! userId with
  | Some (data, expiresAt) =>
      if now <? expiresAt then (Some data, cache)
      else (None, delete userId cache)
  | None => (None, cache)
  end.

Definition setCachedUserData (now : Z) (userId : string) (data : ComprehensiveUserData)
    (cache : gmap string (ComprehensiveUserData * Z))
  : gmap string (ComprehensiveUserData * Z) :=
  <[userId := (data, now + CACHE_TTL_MS)]> cache.

Definition getCachedLightweightAuth (now : Z) (userId : string)
    (cache : gmap string (LightweightUserAuth * Z))
  : option LightweightUserAuth * gmap string (LightweightUserAuth * Z) :=
  match cache !! userId with
  | Some (data, expiresAt) =>
      if now <? expiresAt then (Some data, cache)
      else (None, delete userId cache)
  | None => (None, cache)
  end.

Definition setCachedLightweightAuth (now : Z) (userId : string) (data : LightweightUserAuth)
    (cache : gmap string (LightweightUserAuth * Z))
  : gmap string (LightweightUserAuth * Z) :=
  <[userId := (data, now + LIGHTWEIGHT_CACHE_TTL_MS)]> cache.

Definition clearUserDataCache (userId : string) (st : server) : server :=
  Server (delete userId (userDataCache st))
         (delete userId (lightweightAuthCache st))
         (selector st).

Definition clearAllUserDataCache (st : server) : server :=
  Server ∅ ∅ (selector st).

(** Iterations after which a call of [selectReplica] is given up in the
    model; [Db] shows that no reachable state needs more. *)
Definition replica_fuel : nat := 2.

(** [getReadReplica()]: [selectReplica(db.$replicas)]. *)
Definition getReadReplica (st : server) : option (outcome (option replica) * server) :=
  match Db.selectReplica replica_fuel [dbread1; dbread2] (selector st) with
  | None => None
  | Some (o, s') => Some (o, with_selector st s')
  end.

(** [new Date(d).getTime()] for a nullable timestamp column:
    [new Date(null)] is the epoch. *)
Definition date_time (d : option Z) : Z := default 0 d.

(** The comparator [(a, b) => time(b.periodEnd) - time(a.periodEnd)] is
    positive when [b] ends later. *)
Definition ends_later_first (a b : StripeSubscription) : bool :=
  date_time (ss_periodEnd a) <? date_time (ss_periodEnd b).

(** The [filter(...).map(...)] that turns joined rows into the
    subscriptions of the user. *)
Definition stripeSubscriptions_of (rows : list (user_row * option subscription_row))
  : list StripeSubscription :=
  omap (fun row =>
          match snd row with
          | Some s =>
              Some (MkStripeSubscription
                      (sub_id s) (sub_plan s) (sub_status s)
                      (sub_periodStart s) (sub_periodEnd s)
                      (default false (sub_cancelAtPeriodEnd s))
                      (sub_cancelAt s) (sub_canceledAt s) (sub_endedAt s))
          | None => None
          end) rows.

Definition activeStripeSubscription_of (subs : list StripeSubscription)
  : option StripeSubscription :=
  head (js_sort ends_later_first
          (filter (fun sub => ss_status sub = "active") subs)).

Definition subscriptionStatus_of (now : Z) (subs : list StripeSubscription)
  : status_label :=
  match activeStripeSubscription_of subs with
  | Some _ => active
  | None =>
      match head (js_sort ends_later_first subs) with
      | Some latest =>
          let isExpired := date_time (ss_periodEnd latest) <? now in
          let isCanceled := bool_decide (ss_status latest = "canceled") in
          if isCanceled then canceled
          else if isExpired then expired
          else none
      | None => none
      end
  end.

(** The record built from the joined rows, [userData] being the first. *)
Definition build_comprehensive (now : Z) (userData : user_row)
    (rows : list (user_row * option subscription_row)) : ComprehensiveUserData :=
  let subs := stripeSubscriptions_of rows in
  let activeSub := activeStripeSubscription_of subs in
  {| id := user_id userData;
     email := user_email userData;
     emailVerified := user_emailVerified userData;
     name := if truthy_string (user_name userData)
             then default EmptyString (user_name userData)
             else default EmptyString (head (js_split "@" (user_email userData)));
     image := user_image userData;
     stripeCustomerId := user_stripeCustomerId userData;
     createdAt := user_createdAt userData;
     updatedAt := user_updatedAt userData;
     isProUser := bool_decide (is_Some activeSub);
     subscriptionStatus := subscriptionStatus_of now subs;
     stripeSubscription := activeSub |}.

(** [getComprehensiveUserData()].  The outer [option] is [None] when the
    call does not return; the inner one is the [null] result.  Every
    exception inside the body is caught and turned into [null]. *)
Definition getComprehensiveUserData (e : env) (st : server)
  : option (option ComprehensiveUserData * server) :=
  match session_user e with
  | Thrown _ => Some (None, st)
  | Returned sess =>
      if negb (truthy_string sess) then Some (None, st)
      else
        let userId := default EmptyString sess in
        let '(cached, c1) := getCachedUserData (now_lookup e) userId (userDataCache st) in
        let st1 := with_userDataCache st c1 in
        match cached with
        | Some data => Some (Some data, st1)
        | None =>
            match getReadReplica st1 with
            | None => None
            | Some (Thrown _, st2) => Some (None, st2)
            | Some (Returned None, st2) => Some (None, st2)
            | Some (Returned (Some _), st2) =>
                match db e with
                | Thrown _ => Some (None, st2)
                | Returned tables =>
                    let rows := user_with_subscriptions tables userId in
                    match rows with
                    | [] => Some (None, st2)
                    | (userData, _) :: _ =>
                        let data := build_comprehensive (now_status e) userData rows in
                        let c2 := setCachedUserData (now_store e) userId data (userDataCache st2) in
                        Some (Some data, with_userDataCache st2 c2)
                    end
                end
            end
        end
  end.

(** [getLightweightUserAuth()], with the same conventions. *)
Definition getLightweightUserAuth (e : env) (st : server)
  : option (option LightweightUserAuth * server) :=
  match session_user e with
  | Thrown _ => Some (None, st)
  | Returned sess =>
      if negb (truthy_string sess) then Some (None, st)
      else
        let userId := default EmptyString sess in
        let '(cached, l1) :=
          getCachedLightweightAuth (now_lookup_light e) userId (lightweightAuthCache st) in
        let st1 := with_lightweightAuthCache st l1 in
        match cached with
        | Some data => Some (Some data, st1)
        | None =>
            let '(fullCached, c1) :=
              getCachedUserData (now_lookup e) userId (userDataCache st1) in
            let st2 := with_userDataCache st1 c1 in
            match fullCached with
            | Some full =>
                let lightweightData :=
                  MkLightweightUserAuth (id full) (email full) (isProUser full) in
                Some (Some lightweightData,
                      with_lightweightAuthCache st2
                        (setCachedLightweightAuth (now_store_light e) userId lightweightData
                           (lightweightAuthCache st2)))
            | None =>
                match getReadReplica st2 with
                | None => None
                | Some (Thrown _, st3) => Some (None, st3)
                | Some (Returned None, st3) => Some (None, st3)
                | Some (Returned (Some _), st3) =>
                    match db e with
                    | Thrown _ => Some (None, st3)
                    | Returned tables =>
                        let result := user_with_subscriptions tables userId in
                        match result with
                        | [] => Some (None, st3)
                        | (first, _) :: _ =>
                            let hasActiveStripeSub :=
                              existsb
                                (fun row =>
                                   bool_decide (sub_status <$> snd row = Some "active"))
                                result in
                            let lightweightData :=
                              MkLightweightUserAuth (user_id first) (user_email first)
                                hasActiveStripeSub in
                            Some (Some lightweightData,
                                  with_lightweightAuthCache st3
                                    (setCachedLightweightAuth (now_store_light e) userId
                                       lightweightData (lightweightAuthCache st3)))
                        end
                    end
                end
            end
        end
  end.

(** [isUserPro()]: [userData?.isProUser || false]. *)
Definition isUserPro (e : env) (st : server) : option (bool * server) :=
  match getComprehensiveUserData e st with
  | None => None
  | Some (Some d, st') => Some (isProUser d, st')
  | Some (None, st') => Some (false, st')
  end.

End UserData.

(* ===================================================================== *)
(** ** Pro status from the subscription table *)
(* ===================================================================== *)

Module Subscription.
Import UserData.

Inductive source_label : Type := stripe | no_source.

Record pro_status : Type := ProStatus {
  isProUser : bool;
  source : source_label
}.

(** [getComprehensiveProStatus(userId)]: the whole body is inside
    [try], and the [catch] answers [{ isProUser: false, source: 'none' }]. *)
Definition getComprehensiveProStatus (e : env) (userId : string) (st : server)
  : option (pro_status * server) :=
  match getReadReplica st with
  | None => None
  | Some (Thrown _, st1) => Some (ProStatus false no_source, st1)
  | Some (Returned None, st1) => Some (ProStatus false no_source, st1)
  | Some (Returned (Some _), st1) =>
      match db e with
      | Thrown _ => Some (ProStatus false no_source, st1)
      | Returned tables =>
          let userSubscriptions := subscriptions_of tables userId in
          match List.find (fun sub => bool_decide (sub_status sub = "active"))
                  userSubscriptions with
          | Some _ => Some (ProStatus true stripe, st1)
          | None => Some (ProStatus false no_source, st1)
          end
      end
  end.

(** [isUserSubscribed()] *)
Definition isUserSubscribed (e : env) (st : server) : option (bool * server) :=
  match session_user e with
  | Thrown _ => Some (false, st)
  | Returned sess =>
      if negb (truthy_string sess) then Some (false, st)
      else
        match getComprehensiveProStatus e (default EmptyString sess) st with
        | None => None
        | Some (proStatus, st') => Some (isProUser proStatus, st')
        end
  end.

End Subscription.

(* ===================================================================== *)
(** ** Character-level helpers for the regular expressions *)
(* ===================================================================== *)

Definition code (c : ascii) : N := Ascii.N_of_ascii c.

(** Upper-case form used by a regular expression with the [i] flag; on
    code units below 256 only [a]-[z] can meet an ASCII pattern
    character this way. *)
Definition fold_case (c : ascii) : ascii :=
  if ((97 <=? code c) && (code c <=? 122))%N
  then Ascii.ascii_of_N (code c - 32) else c.

(** [String.prototype.toLowerCase] on code units below 256: the letters
    [A]-[Z] and the upper-case letters of the Latin-1 block (all of
    0xC0-0xDE but the multiplication sign 0xD7). *)
Definition lower_char (c : ascii) : ascii :=
  if (((65 <=? code c) && (code c <=? 90))
      || ((192 <=? code c) && (code c <=? 222) && negb (code c =? 215)))%N
  then Ascii.ascii_of_N (code c + 32) else c.

Fixpoint string_map (f : ascii -> ascii) (s : string) : string :=
  match s with
  | EmptyString => EmptyString
  | String c s' => String (f c) (string_map f s')
  end.

Definition toLowerCase (s : string) : string := string_map lower_char s.

Fixpoint string_forall (f : ascii -> bool) (s : string) : bool :=
  match s with
  | EmptyString => true
  | String c s' => f c && string_forall f s'
  end.

(** If [s] starts with [p] ([same] comparing the characters), what
    follows [p] in [s]. *)
Fixpoint strip_prefix (same : ascii -> ascii -> bool) (p s : string) : option string :=
  match p, s with
  | EmptyString, _ => Some s
  | String a p', String b s' => if same a b then strip_prefix same p' s' else None
  | String _ _, EmptyString => None
  end.

Definition same_char (a b : ascii) : bool := bool_decide (a = b).
Definition same_char_i (a b : ascii) : bool :=
  bool_decide (fold_case a = fold_case b).

(** [s.endsWith(suffix)] *)
Fixpoint endsWith (s suffix : string) : bool :=
  bool_decide (s = suffix)
  || match s with
     | EmptyString => false
     | String _ s' => endsWith s' suffix
     end.

(** The longest run of characters other than [/] at the front of [s],
    and what follows it: how [[^/]+] is matched when [/] or the end
    must come next. *)
Fixpoint path_segment (s : string) : string * string :=
  match s with
  | EmptyString => (EmptyString, EmptyString)
  | String c s' =>
      if bool_decide (c = "/"%char) then (EmptyString, s)
      else let '(seg, rest) := path_segment s' in (String c seg, rest)
  end.

(* ===================================================================== *)
(** ** The Reddit search tool *)
(* ===================================================================== *)

Module Reddit.

(** A JavaScript number that is not [NaN] is falsy exactly when it is
    zero; a missing one is falsy. *)
Definition truthy_number (q : option Q) : bool :=
  match q with
  | Some q => negb (Qeq_bool q 0)
  | None => false
  end.

(** One result of the search service. *)
Record tavily_result : Type := TavilyResult {
  tr_url : string;
  tr_title : option string;
  tr_content : option string;
  tr_publishedDate : option string;
  tr_score : Q
}.

Record reddit_result : Type := RedditResult {
  url : string;
  title : string;
  content : string;
  published_date : option string;
  subreddit : string;
  isRedditPost : bool;
  score : Q
}.

Record search_entry : Type := SearchEntry {
  query : string;
  results : list reddit_result
}.

Inductive completion_status : Type := started | completed | error.

(** A [data-query_completion] part written to the stream. *)
Record notification : Type := Notification {
  n_query : string;
  n_index : nat;
  n_total : nat;
  n_status : completion_status;
  n_resultsCount : nat;
  n_imagesCount : nat
}.

(** Arguments of the tool as they arrive, before validation. *)
Record tool_input : Type := ToolInput {
  queries : list string;
  maxResults : option (list Q);
  timeRange : option (list string)
}.




(** [maxResults?.[index] || maxResults?.[0] || 20] *)
Definition currentMaxResults (maxResults : option (list Q)) (index : nat) : Q :=
  let at_index := maxResults ≫= (fun l => l !! index) in
  let at_zero := maxResults ≫= (fun l => l !! 0%nat) in
  if truthy_number at_index then default 0%Q at_index
  else if truthy_number at_zero then default 0%Q at_zero
  else 20%Q.

(** [/reddit\.com\/r\/([^/]+)/i]: the first group of the leftmost match. *)
Definition subreddit_here (s : string) : option string :=
  match strip_prefix same_char_i "reddit.com/r/" s with
  | Some rest =>
      let '(seg, _) := path_segment rest in
      if bool_decide (seg = EmptyString) then None else Some seg
  | None => None
  end.

Fixpoint subredditMatch (s : string) : option string :=
  match subreddit_here s with
  | Some seg => Some seg
  | None =>
      match s with
      | EmptyString => None
      | String _ s' => subredditMatch s'
      end
  end.

(** [/reddit\.com\/r\/[^/]+\/comments\//i.test(url)] *)
Definition post_here (s : string) : bool :=
  match strip_prefix same_char_i "reddit.com/r/" s with
  | Some rest =>
      let '(seg, after) := path_segment rest in
      negb (bool_decide (seg = EmptyString))
      && bool_decide (is_Some (strip_prefix same_char_i "/comments/" after))
  | None => false
  end.

Fixpoint isRedditPostUrl (s : string) : bool :=
  post_here s
  || match s with
     | EmptyString => false
     | String _ s' => isRedditPostUrl s'
     end.

Definition processResult (result : tavily_result) : reddit_result :=
  {| url := tr_url result;
     title := if truthy_string (tr_title result)
              then default EmptyString (tr_title result) else tr_url result;
     content := if truthy_string (tr_content result)
                then default EmptyString (tr_content result) else EmptyString;
     published_date := tr_publishedDate result;
     subreddit := default "unknown" (subredditMatch (tr_url result));
     isRedditPost := isRedditPostUrl (tr_url result);
     score := tr_score result |}.

Section Execute.

(** [tvly.search(query, { maxResults, includeDomains: ['reddit.com'],
    searchDepth: 'basic', includeAnswer: false })]: the service answers
    with results, or the call throws. *)
Variable search : string -> Q -> outcome (list tavily_result).

(** The body of the callback given to [queries.map]: the entry it
    resolves to and the part it writes when the search settles. *)
Definition searchOne (total : nat) (index : nat) (query : string)
    (maxResults : option (list Q)) : search_entry * notification :=
  let currentMaxResults := currentMaxResults maxResults index in
  match search query currentMaxResults with
  | Returned data =>
      let processedResults := map processResult data in
      (SearchEntry query processedResults,
       Notification query index total completed (length processedResults) 0)
  | Thrown _ =>
      (SearchEntry query [],
       Notification query index total error 0 0)
  end.

(** What [execute] leaves behind: the [searches] array (in the order
    of [Promise.all], that of the input), the [started] parts, written
    in input order before any search is awaited, and the parts written
    when the searches settle, listed here by index.  Nothing is
    written when the tool was built without a [dataStream]. *)
Record execution : Type := Execution {
  searches : list search_entry;
  written_started : list notification;
  written_settled : list notification
}.

Definition execute (dataStream : bool) (i : tool_input) : execution :=
  let total := length (queries i) in
  let settled := imap (fun index query => searchOne total index query (maxResults i))
                      (queries i) in
  {| searches := map fst settled;
     written_started :=
       if dataStream
       then imap (fun index query => Notification query index total started 0 0)
                 (queries i)
       else [];
     written_settled := if dataStream then map snd settled else [] |}.

End Execute.

End Reddit.

(* ===================================================================== *)
(** ** The trending movies tool *)
(* ===================================================================== *)

Module Trending.

(** The part of a TVMaze show that the tool reads.  Every field that the
    source reaches through [?.] or guards with [||] may be missing. *)
Record show : Type := MkShow {
  show_id : Z;
  show_name : option string;
  show_rating_average : option Q;      (* [show.rating?.average] *)
  show_externals_imdb : option string; (* [show.externals?.imdb] *)
  show_summary : option string;
  show_image_original : option string; (* [show.image?.original] *)
  show_premiered : option string;
  show_genres : option (list string)
}.

Record episode : Type := Episode { episode_show : show }.

Record movie : Type := Movie {
  id : Z;
  imdb_id : option string;
  name : option string;
  title : option string;
  overview : string;
  vote_average : Q;
  poster_path : option string;
  backdrop_path : option string;
  first_air_date : option string;
  release_date : option string;
  genres : list string;
  year : option string
}.

(** What [fetch] and [response.json()] can do. *)
Inductive schedule_fetch : Type :=
| FetchThrows (msg : string)
| Response (ok : bool) (body : outcome (list episode)).

Definition truthy_number := Reddit.truthy_number.

(** [x || 0] on a number that may be missing. *)
Definition number_or_zero (q : option Q) : Q :=
  if truthy_number q then default 0%Q q else 0%Q.

(** [x || null] on a string that may be missing. *)
Definition string_or_null (s : option string) : option string :=
  if truthy_string s then s else None.

(** The [Map] keyed by show id, in insertion order. *)
Definition showMap_has (m : list (Z * show)) (k : Z) : bool :=
  existsb (fun kv => bool_decide (fst kv = k)) m.

(** The body of [data.forEach]. *)
Definition record_episode (m : list (Z * show)) (ep : episode) : list (Z * show) :=
  let show := episode_show ep in
  if negb (showMap_has m (show_id show)) && truthy_number (show_rating_average show)
  then m ++ [(show_id show, show)]
  else m.

Definition collect_shows (data : list episode) : list (Z * show) :=
  foldl record_episode [] data.

(** The comparator [(a, b) => (b.rating?.average || 0) - (a.rating?.average || 0)]
    is positive when [b] is rated higher. *)
Definition rated_higher_first (a b : show) : bool :=
  match number_or_zero (show_rating_average a) ?= number_or_zero (show_rating_average b) with
  | Lt => true
  | _ => false
  end%Q.

Fixpoint contains_char (c : ascii) (s : string) : bool :=
  match s with
  | EmptyString => false
  | String a s' => bool_decide (a = c) || contains_char c s'
  end.

(** [s.replace(/<[^>]*>/g, '')]: a [<] opens a tag when a [>] follows
    somewhere, and the tag ends at the first one. *)
Fixpoint strip_tags (inside : bool) (s : string) : string :=
  match s with
  | EmptyString => EmptyString
  | String c s' =>
      if inside then
        if bool_decide (c = ">"%char) then strip_tags false s' else strip_tags true s'
      else if bool_decide (c = "<"%char) && contains_char ">" s' then strip_tags true s'
      else String c (strip_tags false s')
  end.

Section Execute.

(** [new Date(premiered).getFullYear().toString()] *)
Variable fullYear : string -> string.

Definition reshape (show : show) : movie :=
  {| id := show_id show;
     imdb_id := string_or_null (show_externals_imdb show);
     name := show_name show;
     title := show_name show;
     overview := default EmptyString (strip_tags false <$> show_summary show);
     vote_average := number_or_zero (show_rating_average show);
     poster_path := string_or_null (show_image_original show);
     backdrop_path := string_or_null (show_image_original show);
     first_air_date := show_premiered show;
     release_date := show_premiered show;
     genres := default [] (show_genres show);
     year := if truthy_string (show_premiered show)
             then fullYear <$> show_premiered show else None |}.

Definition results_of (data : list episode) : list movie :=
  reshape
    <$> take 20 (js_sort rated_higher_first (snd <$> collect_shows data)).

(** [execute()]: the [catch] logs and throws the error again. *)
Definition execute (r : schedule_fetch) : outcome (list movie) :=
  match r with
  | FetchThrows msg => Thrown msg
  | Response false _ => Thrown "TVMaze schedule fetch failed"
  | Response true (Thrown msg) => Thrown msg
  | Response true (Returned data) => Returned (results_of data)
  end.

End Execute.

End Trending.

(* ===================================================================== *)
(** ** Student e-mail detection *)
(* ===================================================================== *)

Module Discount.

Definition is_a_to_z (c : ascii) : bool :=
  ((97 <=? code c) && (code c <=? 122))%N.

(** [/\.edu\.[a-z]{2,3}$/.test(domain)] *)
Definition edu_country_here (s : string) : bool :=
  match strip_prefix same_char ".edu." s with
  | Some cc =>
      ((2 <=? String.length cc) && (String.length cc <=? 3))%nat
      && string_forall is_a_to_z cc
  | None => false
  end.

Fixpoint edu_country_test (s : string) : bool :=
  edu_country_here s
  || match s with
     | EmptyString => false
     | String _ s' => edu_country_test s'
     end.

(** The callback given to [studentDomains.some]. *)
Definition pattern_matches (domain pattern : string) : bool :=
  let lowerPattern := toLowerCase pattern in
  if bool_decide (lowerPattern = ".edu")
  then endsWith domain ".edu" || edu_country_test domain
  else endsWith domain lowerPattern.

Definition isStudentEmail (email : string) (studentDomains : list string) : bool :=
  if bool_decide (email = EmptyString) then false
  else if bool_decide (studentDomains = []) then false
  else
    let lowerEmail := toLowerCase email in
    match js_split "@" lowerEmail with
    | [_; domain] => existsb (pattern_matches domain) studentDomains
    | _ => false
    end.

End Discount.

(* ===================================================================== *)
(** ** Vocabulary of the statements, and sample data *)
(* ===================================================================== *)

Module Vocabulary.
Import UserData.

(** Some subscription row of the user is active. *)
Definition has_active_subscription (tables : database) (userId : string) : Prop :=
  exists s, s ∈ subscriptions tables
            /\ sub_referenceId s = userId
            /\ sub_status s = "active".

Definition user_exists (tables : database) (userId : string) : Prop :=
  exists u, u ∈ users tables /\ user_id u = userId.

(** The Pro flag of the two cached functions as the claim states it,
    with no condition on the caches: whenever a call answers with a
    record, its flag is set exactly when the subscription table read at
    that moment has an active row of the user. *)
Definition pro_flag_as_stated (e : env) (st : server) : Prop :=
  forall userId tables,
    session_user e = Returned (Some userId) ->
    db e = Returned tables ->
    (forall d st',
        getComprehensiveUserData e st = Some (Some d, st') ->
        (isProUser d = true <-> has_active_subscription tables userId))
    /\ (forall l st',
          getLightweightUserAuth e st = Some (Some l, st') ->
          (la_isProUser l = true <-> has_active_subscription tables userId)).

(** The session lookup found no signed-in user. *)
Definition no_session (e : env) : Prop :=
  exists sess, session_user e = Returned sess /\ truthy_string sess = false.

Definition throws {A} (o : outcome A) : Prop :=
  exists msg, o = Thrown msg.




(** The entry that the query [q] at position [k] is to contribute,
    given what the search service answers. *)
Definition entry_of (search : string -> Q -> outcome (list Reddit.tavily_result))
    (maxResults : option (list Q)) (k : nat) (q : string) : Reddit.search_entry :=
  match search q (Reddit.currentMaxResults maxResults k) with
  | Returned data => Reddit.SearchEntry q (map Reddit.processResult data)
  | Thrown _ => Reddit.SearchEntry q []
  end.

(** The show of the first episode of the schedule whose show has the
    id [k]. *)
Definition first_occurrence (data : list Trending.episode) (k : Z)
  : option Trending.show :=
  Trending.episode_show
    <$> List.find
          (fun ep => bool_decide (Trending.show_id (Trending.episode_show ep) = k))
          data.

(** The same among the episodes whose show has a rating average that is
    present and not zero. *)
Definition first_rated_occurrence (data : list Trending.episode) (k : Z)
  : option Trending.show :=
  Trending.episode_show
    <$> List.find
          (fun ep =>
             bool_decide (Trending.show_id (Trending.episode_show ep) = k)
             && Trending.truthy_number
                  (Trending.show_rating_average (Trending.episode_show ep)))
          data.

Definition rated (sh : Trending.show) : Prop :=
  exists v, Trending.show_rating_average sh = Some v /\ ~ (v == 0)%Q.

(** Non-increasing order of [vote_average]. *)
Definition by_rating_descending (a b : Trending.movie) : Prop :=
  (Trending.vote_average b <= Trending.vote_average a)%Q.

(** The four properties of the results of the trending movies tool, the
    second one read as written: the entry of an id is made from the
    first episode with that id. *)
Definition reshaping_as_stated (fullYear : string -> string)
    (data : list Trending.episode) (results : list Trending.movie) : Prop :=
  (length results <= 20)%nat
  /\ (NoDup (Trending.id <$> results)
      /\ forall m, m ∈ results ->
           exists sh, first_occurrence data (Trending.id m) = Some sh
                      /\ m = Trending.reshape fullYear sh)
  /\ (forall m, m ∈ results ->
        exists ep, ep ∈ data
                   /\ rated (Trending.episode_show ep)
                   /\ m = Trending.reshape fullYear (Trending.episode_show ep))
  /\ StronglySorted by_rating_descending results.

(** [s] ends with [suffix]. *)
Definition is_suffix (suffix s : string) : Prop :=
  exists front, s = front +:+ suffix.

(** [domain] ends with [.edu.] and a country code of two or three
    letters. *)
Definition edu_country_domain (domain : string) : Prop :=
  exists front cc,
    domain = front +:+ ".edu." +:+ cc
    /\ (2 <= String.length cc <= 3)%nat
    /\ string_forall Discount.is_a_to_z cc = true.

End Vocabulary.

Module Samples.
Import UserData.

Definition alice : user_row :=
  UserRow "u1" "alice@example.com" true None None (Some "cus_1") 1000 2000.

Definition alice_subscription : subscription_row :=
  SubscriptionRow "sub_1" "pro" "active" "u1"
    (Some 1000) (Some 900000) (Some false) None None None.

Definition tables : database := Database [alice] [alice_subscription].

Definition fresh : server := Server ∅ ∅ Db.initial.

Definition request : env :=
  Env (Returned (Some "u1")) (Returned tables) 5000 5000 5001 5002 5002.

Definition outage : env :=
  Env (Returned (Some "u1")) (Thrown "connection refused") 5000 5000 5001 5002 5002.

Definition alice_data : ComprehensiveUserData :=
  build_comprehensive 5001 alice [(alice, Some alice_subscription)].

(** The server after [request] was served from [fresh]. *)
Definition served : server :=
  Server (setCachedUserData 5002 "u1" alice_data ∅) ∅ (Db.Selector 1 6).

(** A request of the same user a minute later, with the database down. *)
Definition later_outage : env :=
  Env (Returned (Some "u1")) (Thrown "connection refused")
      65000 65000 65001 65002 65002.

Definition reddit_hit : Reddit.tavily_result :=
  Reddit.TavilyResult "https://www.reddit.com/r/rust/comments/abc/traits/"
    (Some "Traits") None None (9 # 10).

(** A search service that fails on one query. *)
Definition flaky_search (q : string) (limit : Q) : outcome (list Reddit.tavily_result) :=
  if bool_decide (q = "boom") then Thrown "HTTP 500" else Returned [reddit_hit].

Definition three_queries : Reddit.tool_input :=
  Reddit.ToolInput ["rust traits"; "boom"; "rocq"] (Some [5%Q]) None.



(** A schedule in which the first listing of show 7 carries no rating
    and the second one does. *)
Definition unrated_listing : Trending.show :=
  Trending.MkShow 7 (Some "Night Shift") None None None None (Some "2019-05-01") None.

Definition rated_listing : Trending.show :=
  Trending.MkShow 7 (Some "Night Shift") (Some (15 # 2)) None None None
    (Some "2019-05-01") None.

Definition schedule : list Trending.episode :=
  [Trending.Episode unrated_listing; Trending.Episode rated_listing].

(** The year as the first four characters of an ISO date. *)
Definition year_prefix (premiered : string) : string :=
  String.substring 0 4 premiered.

End Samples.

(* ===================================================================== *)
(** ** The remaining helpers of the user-data module *)
(* ===================================================================== *)

Module UserDataHelpers.
Import UserData.

(** [getUserSubscriptionStatus()] of the user-data module:
    [userData?.subscriptionStatus || 'none']. *)
Definition getUserSubscriptionStatus (e : env) (st : server)
  : option (status_label * server) :=
  match getComprehensiveUserData e st with
  | None => None
  | Some (Some d, st') => Some (subscriptionStatus d, st')
  | Some (None, st') => Some (none, st')
  end.

End UserDataHelpers.

(* ===================================================================== *)
(** ** The caches of custom instructions and of preferences *)
(* ===================================================================== *)

Module UserCaches.
Import UserData.

Definition CUSTOM_INSTRUCTIONS_CACHE_TTL_MS : Z := 5 * 60 * 1000.
Definition USER_PREFERENCES_CACHE_TTL_MS : Z := 5 * 60 * 1000.

Section WithRows.

(** The row types [CustomInstructions] and [UserPreferences] of the
    schema module; the caches only store and return them. *)
Variables CustomInstructions UserPreferences : Type.

(** An entry of [customInstructionsCache]. *)
Record instructions_entry : Type := InstructionsEntry {
  instructions : option CustomInstructions;
  instructions_timestamp : Z;
  instructions_ttl : Z
}.

(** An entry of [userPreferencesCache]. *)
Record preferences_entry : Type := PreferencesEntry {
  preferences : option UserPreferences;
  preferences_timestamp : Z;
  preferences_ttl : Z
}.

(** The four per-user maps of the module, the first two inside
    [server]. *)
Record process : Type := Process {
  core : server;
  customInstructionsCache : gmap string instructions_entry;
  userPreferencesCache : gmap string preferences_entry
}.

(** [getCachedCustomInstructionsByUserId(userId, options)].  [query] is
    [getCustomInstructionsByUserId] of the queries module on the
    database of the moment: it answers with a row, with nothing, or
    throws; a throw is not caught.  The clock is read once to test the
    entry and once to stamp a new one. *)
Definition getCachedCustomInstructionsByUserId
    (query : string -> outcome (option CustomInstructions))
    (now_check now_store : Z) (userId : string) (ttlMs : option Z)
    (cache : gmap string instructions_entry)
  : outcome (option CustomInstructions) * gmap string instructions_entry :=
  let ttlMs := default CUSTOM_INSTRUCTIONS_CACHE_TTL_MS ttlMs in
  let fresh :=
    match cache !! userId with
    | Some cached =>
        if now_check - instructions_timestamp cached <? instructions_ttl cached
        then Some (instructions cached) else None
    | None => None
    end in
  match fresh with
  | Some answer => (Returned answer, cache)
  | None =>
      match query userId with
      | Thrown msg => (Thrown msg, cache)
      | Returned instructions =>
          (Returned instructions,
           <[userId := InstructionsEntry instructions now_store ttlMs]> cache)
      end
  end.

(** [clearCustomInstructionsCache(userId?)]: [if (userId)] is false for
    a missing id and for the empty string. *)
Definition clearCustomInstructionsCache (userId : option string)
    (cache : gmap string instructions_entry) : gmap string instructions_entry :=
  if truthy_string userId then delete (default EmptyString userId) cache else ∅.

(** [getCachedUserPreferencesByUserId(userId, options)], with the same
    conventions. *)
Definition getCachedUserPreferencesByUserId
    (query : string -> outcome (option UserPreferences))
    (now_check now_store : Z) (userId : string) (ttlMs : option Z)
    (cache : gmap string preferences_entry)
  : outcome (option UserPreferences) * gmap string preferences_entry :=
  let ttlMs := default USER_PREFERENCES_CACHE_TTL_MS ttlMs in
  let fresh :=
    match cache !! userId with
    | Some cached =>
        if now_check - preferences_timestamp cached <? preferences_ttl cached
        then Some (preferences cached) else None
    | None => None
    end in
  match fresh with
  | Some answer => (Returned answer, cache)
  | None =>
      match query userId with
      | Thrown msg => (Thrown msg, cache)
      | Returned preferences =>
          (Returned preferences,
           <[userId := PreferencesEntry preferences now_store ttlMs]> cache)
      end
  end.

(** [clearUserPreferencesCache(userId?)] *)
Definition clearUserPreferencesCache (userId : option string)
    (cache : gmap string preferences_entry) : gmap string preferences_entry :=
  if truthy_string userId then delete (default EmptyString userId) cache else ∅.

(** [clearUserDataCache(userId)] on all four maps. *)
Definition clearUserDataCache (userId : string) (p : process) : process :=
  Process (UserData.clearUserDataCache userId (core p))
          (delete userId (customInstructionsCache p))
          (delete userId (userPreferencesCache p)).

(** [clearAllUserDataCache()] on all four maps. *)
Definition clearAllUserDataCache (p : process) : process :=
  Process (UserData.clearAllUserDataCache (core p)) ∅ ∅.

End WithRows.

Arguments InstructionsEntry {CustomInstructions} _ _ _.
Arguments instructions {CustomInstructions} _.
Arguments instructions_timestamp {CustomInstructions} _.
Arguments instructions_ttl {CustomInstructions} _.
Arguments PreferencesEntry {UserPreferences} _ _ _.
Arguments preferences {UserPreferences} _.
Arguments preferences_timestamp {UserPreferences} _.
Arguments preferences_ttl {UserPreferences} _.
Arguments Process {CustomInstructions UserPreferences} _ _ _.
Arguments core {CustomInstructions UserPreferences} _.
Arguments customInstructionsCache {CustomInstructions UserPreferences} _.
Arguments userPreferencesCache {CustomInstructions UserPreferences} _.
Arguments getCachedCustomInstructionsByUserId {CustomInstructions} _ _ _ _ _ _.
Arguments clearCustomInstructionsCache {CustomInstructions} _ _.
Arguments getCachedUserPreferencesByUserId {UserPreferences} _ _ _ _ _ _.
Arguments clearUserPreferencesCache {UserPreferences} _ _.
Arguments clearUserDataCache {CustomInstructions UserPreferences} _ _.
Arguments clearAllUserDataCache {CustomInstructions UserPreferences} _.

End UserCaches.

(* ===================================================================== *)
(** ** Subscription details and the cached Pro flag *)
(* ===================================================================== *)

Module SubscriptionDetails.
Import UserData Subscription.

Record SubscriptionDetails : Type := MkSubscriptionDetails {
  details_id : string;
  details_plan : string;
  details_status : string;
  details_periodStart : option Z;
  details_periodEnd : option Z;
  details_cancelAt : option Z;
  details_canceledAt : option Z
}.

Inductive error_type : Type := CANCELED | EXPIRED | GENERAL.

Record SubscriptionDetailsResult : Type := MkSubscriptionDetailsResult {
  hasSubscription : bool;
  subscription : option SubscriptionDetails;
  error : option string;
  errorType : option error_type
}.

(** [plan || 'unknown'] *)
Definition plan_or_unknown (plan : string) : string :=
  if bool_decide (plan = EmptyString) then "unknown" else plan.

(** The [subscription] object built from a row. *)
Definition details_of (s : subscription_row) : SubscriptionDetails :=
  MkSubscriptionDetails (sub_id s) (plan_or_unknown (sub_plan s)) (sub_status s)
    (sub_periodStart s) (sub_periodEnd s) (sub_cancelAt s) (sub_canceledAt s).

(** [{ hasSubscription: false }] *)
Definition no_subscription : SubscriptionDetailsResult :=
  MkSubscriptionDetailsResult false None None None.

(** The answer of the [catch] of [getSubscriptionDetails]. *)
Definition failed_to_load : SubscriptionDetailsResult :=
  MkSubscriptionDetailsResult false None
    (Some "Failed to load subscription details") (Some GENERAL).

(** [isExpired] and [isCanceled] of the row taken as the latest, and
    the [error] and [errorType] given for it. *)
Definition isExpired (now : Z) (s : subscription_row) : bool :=
  match sub_periodEnd s with
  | Some periodEnd => periodEnd <? now
  | None => false
  end.

Definition isCanceled (s : subscription_row) : bool :=
  bool_decide (sub_status s = "canceled").

Definition inactive_result (now : Z) (latestSubscription : subscription_row)
  : SubscriptionDetailsResult :=
  MkSubscriptionDetailsResult true (Some (details_of latestSubscription))
    (Some (if isCanceled latestSubscription then "Subscription has been canceled"
           else if isExpired now latestSubscription then "Subscription has expired"
           else "Subscription is not active"))
    (Some (if isCanceled latestSubscription then CANCELED
           else if isExpired now latestSubscription then EXPIRED
           else GENERAL)).

Definition active_result (activeSubscription : subscription_row)
  : SubscriptionDetailsResult :=
  MkSubscriptionDetailsResult true (Some (details_of activeSubscription)) None None.

(** [getProStatusWithSource()] *)
Definition getProStatusWithSource (e : env) (st : server)
  : option (pro_status * server) :=
  match session_user e with
  | Thrown _ => Some (ProStatus false no_source, st)
  | Returned sess =>
      if negb (truthy_string sess) then Some (ProStatus false no_source, st)
      else getComprehensiveProStatus e (default EmptyString sess) st
  end.

Section WithPerformanceCache.

(** The module [performance-cache] is used through these operations on
    its state [perf]: the subscription cache ([get] may drop an entry,
    so it gives the state back) and the cached Pro flag, [null] when
    there is none.  They are taken not to throw. *)
Variable perf : Type.
Variable createSubscriptionKey : string -> string.
Variable subscriptionCache_get : string -> perf -> option SubscriptionDetailsResult * perf.
Variable subscriptionCache_set : string -> SubscriptionDetailsResult -> perf -> perf.
Variable getProUserStatus : string -> perf -> option bool * perf.
Variable setProUserStatus : string -> bool -> perf -> perf.

(** [getSubscriptionDetails()].  [e] is what the call meets for the
    session and for its own read of the subscription table, [e_pro]
    what the read inside [getComprehensiveProStatus] meets.  After the
    test of [userSubscriptions.length] the list has a first row, which
    the source takes as the latest one. *)
Definition getSubscriptionDetails (e e_pro : env) (st : server) (pf : perf)
  : option (SubscriptionDetailsResult * server * perf) :=
  match session_user e with
  | Thrown _ => Some (failed_to_load, st, pf)
  | Returned sess =>
      if negb (truthy_string sess) then Some (no_subscription, st, pf)
      else
        let userId := default EmptyString sess in
        match getReadReplica st with
        | None => None
        | Some (Thrown _, st1) => Some (failed_to_load, st1, pf)
        | Some (Returned readDb, st1) =>
            let cacheKey := createSubscriptionKey userId in
            let '(cached, pf1) := subscriptionCache_get cacheKey pf in
            match cached with
            | Some cached =>
                match getComprehensiveProStatus e_pro userId st1 with
                | None => None
                | Some (proStatus, st2) =>
                    Some (cached, st2,
                          setProUserStatus userId (isProUser proStatus) pf1)
                end
            | None =>
                match readDb, db e with
                | None, _ => Some (failed_to_load, st1, pf1)
                | Some _, Thrown _ => Some (failed_to_load, st1, pf1)
                | Some _, Returned tables =>
                    let userSubscriptions := subscriptions_of tables userId in
                    match userSubscriptions with
                    | [] =>
                        match getComprehensiveProStatus e_pro userId st1 with
                        | None => None
                        | Some (proStatus, st2) =>
                            let result := no_subscription in
                            Some (result, st2,
                                  setProUserStatus userId (isProUser proStatus)
                                    (subscriptionCache_set cacheKey result pf1))
                        end
                    | latestSubscription :: _ =>
                        match head (filter (fun sub => sub_status sub = "active")
                                      userSubscriptions) with
                        | None =>
                            let result :=
                              inactive_result (now_status e) latestSubscription in
                            let pf2 := subscriptionCache_set cacheKey result pf1 in
                            match getComprehensiveProStatus e_pro userId st1 with
                            | None => None
                            | Some (proStatus, st2) =>
                                Some (result, st2,
                                      setProUserStatus userId (isProUser proStatus) pf2)
                            end
                        | Some activeSubscription =>
                            let result := active_result activeSubscription in
                            Some (result, st1,
                                  setProUserStatus userId true
                                    (subscriptionCache_set cacheKey result pf1))
                        end
                    end
                end
            end
        end
  end.

(** [isUserProCached()]: nothing is caught here, so a throwing session
    lookup makes the call throw. *)
Definition isUserProCached (e : env) (st : server) (pf : perf)
  : option (outcome bool * server * perf) :=
  match session_user e with
  | Thrown msg => Some (Thrown msg, st, pf)
  | Returned sess =>
      if negb (truthy_string sess) then Some (Returned false, st, pf)
      else
        let userId := default EmptyString sess in
        let '(cached, pf1) := getProUserStatus userId pf in
        match cached with
        | Some cached => Some (Returned cached, st, pf1)
        | None =>
            match getComprehensiveProStatus e userId st with
            | None => None
            | Some (proStatus, st1) =>
                Some (Returned (isProUser proStatus), st1,
                      setProUserStatus userId (isProUser proStatus) pf1)
            end
        end
  end.

(** [hasAccessToProduct(productId)] *)
Definition hasAccessToProduct (productId : string) (e e_pro : env)
    (st : server) (pf : perf) : option (bool * server * perf) :=
  match getSubscriptionDetails e e_pro st pf with
  | None => None
  | Some (result, st', pf') =>
      Some (hasSubscription result
            && bool_decide (details_status <$> subscription result = Some "active")
            && bool_decide (details_plan <$> subscription result = Some productId),
            st', pf')
  end.

(** [getUserSubscriptionStatus()] of the subscription module.  [e] is
    what the call itself meets, [e_details] and [e_pro] what the inner
    [getSubscriptionDetails] meets. *)
Definition getUserSubscriptionStatus (e e_details e_pro : env)
    (st : server) (pf : perf) : option (status_label * server * perf) :=
  match session_user e with
  | Thrown _ => Some (none, st, pf)
  | Returned sess =>
      if negb (truthy_string sess) then Some (none, st, pf)
      else
        match getComprehensiveProStatus e (default EmptyString sess) st with
        | None => None
        | Some (proStatus, st1) =>
            if isProUser proStatus
               && match source proStatus with stripe => true | no_source => false end
            then Some (active, st1, pf)
            else
              match getSubscriptionDetails e_details e_pro st1 pf with
              | None => None
              | Some (result, st2, pf2) =>
                  Some (if negb (hasSubscription result) then none
                        else if bool_decide
                                  (details_status <$> subscription result
                                   = Some "active") then active
                        else match errorType result with
                             | Some CANCELED => canceled
                             | Some EXPIRED => expired
                             | _ => none
                             end,
                        st2, pf2)
              end
        end
  end.

End WithPerformanceCache.

End SubscriptionDetails.

(* ===================================================================== *)
(** ** The student discount configuration *)
(* ===================================================================== *)

Module DiscountConfig.
Import Discount.

(** The one text the source puts in [message]: the graduation-cap sign
    followed by [Student discount applied]. *)
Inductive discount_message : Type := StudentDiscountApplied.

Record DiscountConfig : Type := MkDiscountConfig {
  enabled : bool;
  message : option discount_message;
  finalPrice : option Z;
  isStudentDiscount : bool;
  stripeDiscountId : option string
}.

Definition defaultConfig : DiscountConfig :=
  MkDiscountConfig false None None false None.

(** White space and line terminators of [String.prototype.trim] among
    the code units below 256. *)
Definition is_whitespace (c : ascii) : bool :=
  bool_decide (code c ∈ [9; 10; 11; 12; 13; 32; 160]%N).

Fixpoint trimStart (s : string) : string :=
  match s with
  | EmptyString => EmptyString
  | String c s' => if is_whitespace c then trimStart s' else s
  end.

Fixpoint trimEnd (s : string) : string :=
  match s with
  | EmptyString => EmptyString
  | String c s' =>
      match trimEnd s' with
      | EmptyString => if is_whitespace c then EmptyString else String c EmptyString
      | rest => String c rest
      end
  end.

Definition trim (s : string) : string := trimEnd (trimStart s).

(** [config.split(',').map(d => d.trim()).filter(d => d.length > 0)] *)
Definition parse_domains (config : string) : list string :=
  filter (fun domain => (0 < String.length domain)%nat)
    (trim <$> js_split "," config).

Definition fallback_domains : list string := [".edu"; ".ac.in"; ".edu.in"].

(** The student domains in effect.  [edge] is what
    [get('student_domains')] of Edge Config does: it throws, or answers;
    the answer is [Some] for a string and [None] for anything else. *)
Definition studentDomains_of (edge : outcome (option string)) : list string :=
  match edge with
  | Thrown _ => fallback_domains
  | Returned config =>
      if truthy_string config then parse_domains (default EmptyString config)
      else []
  end.

(** [getDiscountConfig(userEmail?)], with the environment variable
    [STRIPE_STUDENT_DISCOUNT_ID]. *)
Definition getDiscountConfig (userEmail : option string)
    (edge : outcome (option string))
    (STRIPE_STUDENT_DISCOUNT_ID : option string) : DiscountConfig :=
  if negb (truthy_string userEmail) then defaultConfig
  else
    let studentDomains := studentDomains_of edge in
    let isStudent := isStudentEmail (default EmptyString userEmail) studentDomains in
    if negb isStudent then defaultConfig
    else if negb (truthy_string STRIPE_STUDENT_DISCOUNT_ID) then defaultConfig
    else
      MkDiscountConfig true (Some StudentDiscountApplied) (Some 5) true
        STRIPE_STUDENT_DISCOUNT_ID.

End DiscountConfig.

(* ===================================================================== *)
(** ** The trending TV shows tool *)
(* ===================================================================== *)

Module TrendingTv.

(** The body of [/updates/shows], an object from show ids to the times
    of their last update: [keys] is [Object.keys(updates)] in its order,
    and [updated_at key] is [updates[key]]. *)
Record updates : Type := Updates {
  keys : list string;
  updated_at : string -> Q
}.

(** The part of a TVMaze show that the tool reads. *)
Record show : Type := MkShow {
  show_id : Z;
  show_name : option string;
  show_rating_average : option Q;      (* [show.rating?.average] *)
  show_externals_imdb : option string; (* [show.externals?.imdb] *)
  show_summary : option string;
  show_image_original : option string; (* [show.image?.original] *)
  show_premiered : option string;
  show_genres : option (list string);
  show_status : option string;
  show_network_name : option string;   (* [show.network?.name] *)
  show_embedded_seasons_length : option nat (* [show._embedded?.seasons?.length] *)
}.

Record tv : Type := Tv {
  id : Z;
  imdb_id : option string;
  name : option string;
  title : option string;
  overview : string;
  first_air_date : option string;
  vote_average : Q;
  poster_path : option string;
  backdrop_path : option string;
  genres : list string;
  year : option string;
  status : option string;
  network : option string;
  total_seasons : option nat
}.

(** What [fetch] and [response.json()] can do, for the updates and for
    one show.  The body of a show is [None] when it is [null]. *)
Inductive updates_fetch : Type :=
| UpdatesFetchThrows (msg : string)
| UpdatesResponse (ok : bool) (body : outcome updates).

Inductive show_fetch : Type :=
| ShowFetchThrows (msg : string)
| ShowResponse (ok : bool) (body : outcome (option show)).

(** The comparator [(a, b) => updates[b] - updates[a]] is positive when
    [b] was updated later. *)
Definition updated_later_first (u : updates) (a b : string) : bool :=
  match updated_at u a ?= updated_at u b with
  | Lt => true
  | _ => false
  end%Q.

Definition showIds (u : updates) : list string :=
  take 20 (js_sort (updated_later_first u) (keys u)).

(** [x || null] on a length that may be missing. *)
Definition length_or_null (n : option nat) : option nat :=
  match n with
  | Some 0%nat => None
  | _ => n
  end.

Section Execute.

(** [new Date(premiered).getFullYear().toString()] *)
Variable fullYear : string -> string.

(** [fetch] of [https://api.tvmaze.com/shows/${id}] *)
Variable fetchShow : string -> show_fetch.

(** The callback given to [showIds.map]: the show, or [null]. *)
Definition showPromise (id : string) : option show :=
  match fetchShow id with
  | ShowResponse true (Returned body) => body
  | _ => None
  end.

Definition reshape (show : show) : tv :=
  {| id := show_id show;
     imdb_id := Trending.string_or_null (show_externals_imdb show);
     name := show_name show;
     title := show_name show;
     overview := default EmptyString (Trending.strip_tags false <$> show_summary show);
     first_air_date := show_premiered show;
     vote_average := Trending.number_or_zero (show_rating_average show);
     poster_path := Trending.string_or_null (show_image_original show);
     backdrop_path := Trending.string_or_null (show_image_original show);
     genres := default [] (show_genres show);
     year := if truthy_string (show_premiered show)
             then fullYear <$> show_premiered show else None;
     status := show_status show;
     network := Trending.string_or_null (show_network_name show);
     total_seasons := length_or_null (show_embedded_seasons_length show) |}.

(** [(await Promise.all(showPromises)).filter(Boolean)] and the [map]
    that follows. *)
Definition results_of (u : updates) : list tv :=
  reshape <$> omap showPromise (showIds u).

(** [execute()]: the outer [catch] logs and throws the error again. *)
Definition execute (r : updates_fetch) : outcome (list tv) :=
  match r with
  | UpdatesFetchThrows msg => Thrown msg
  | UpdatesResponse false _ => Thrown "TVMaze updates fetch failed"
  | UpdatesResponse true (Thrown msg) => Thrown msg
  | UpdatesResponse true (Returned u) => Returned (results_of u)
  end.

End Execute.

End TrendingTv.

(* ===================================================================== *)
(** ** Further vocabulary and sample data *)
(* ===================================================================== *)

Module Notions.
Import UserData.

(** Every entry of the two caches is filed under the id it carries. *)
Definition full_keyed_by_user (c : gmap string (ComprehensiveUserData * Z)) : Prop :=
  forall k d expiresAt, c !! k = Some (d, expiresAt) -> id d = k.

Definition light_keyed_by_user (c : gmap string (LightweightUserAuth * Z)) : Prop :=
  forall k d expiresAt, c !! k = Some (d, expiresAt) -> la_userId d = k.

Definition caches_keyed_by_user (st : server) : Prop :=
  full_keyed_by_user (userDataCache st)
  /\ light_keyed_by_user (lightweightAuthCache st).

(** What a lightweight record keeps of a comprehensive one. *)
Definition lightweight_of (d : ComprehensiveUserData) : LightweightUserAuth :=
  MkLightweightUserAuth (id d) (email d) (isProUser d).

(** A subscription row as it appears in the comprehensive record. *)
Definition subscription_of_row (s : subscription_row) : StripeSubscription :=
  MkStripeSubscription (sub_id s) (sub_plan s) (sub_status s)
    (sub_periodStart s) (sub_periodEnd s)
    (default false (sub_cancelAtPeriodEnd s))
    (sub_cancelAt s) (sub_canceledAt s) (sub_endedAt s).

(** The rows of the subscription table that belong to the user. *)
Definition subscription_row_of (tables : database) (userId : string)
    (s : subscription_row) : Prop :=
  s ∈ subscriptions tables /\ sub_referenceId s = userId.

(** A comma, or white space that [trim] removes. *)
Definition blank_or_comma (c : ascii) : bool :=
  bool_decide (c = ","%char) || DiscountConfig.is_whitespace c.

End Notions.

Module Fixtures.
Import UserData.

(** Alice's subscription after it was canceled. *)
Definition canceled_tables : database :=
  Database [Samples.alice]
    [SubscriptionRow "sub_1" "pro" "canceled" "u1"
       (Some 1000) (Some 900000) (Some false) None (Some 60000) None].

(** A request a minute after [Samples.request], on the changed tables. *)
Definition later_request : env :=
  Env (Returned (Some "u1")) (Returned canceled_tables)
      65000 65000 65001 65002 65002.

Definition alice_light : LightweightUserAuth :=
  MkLightweightUserAuth "u1" "alice@example.com" true.

(** The server after [getLightweightUserAuth] served [Samples.request]
    from [Samples.fresh]. *)
Definition served_light : server :=
  Server ∅ (setCachedLightweightAuth 5002 "u1" alice_light ∅) (Db.Selector 1 6).

End Fixtures.

Module CacheFixtures.
Import UserCaches.

(** Custom instructions and preferences stand as their text here. *)
Definition kept_instructions : gmap string (instructions_entry string) :=
  <["u1" := InstructionsEntry (Some "Answer briefly") 1000 60000]> ∅.

Definition kept_no_preferences : gmap string (preferences_entry string) :=
  <["u1" := PreferencesEntry None 1000 USER_PREFERENCES_CACHE_TTL_MS]> ∅.

Definition other_instructions : gmap string (instructions_entry string) :=
  <["u2" := InstructionsEntry (Some "Be kind") 0 10]> ∅.

Definition whole_process : process string string :=
  Process Samples.served kept_instructions kept_no_preferences.

End CacheFixtures.

Module DetailsFixtures.
Import UserData SubscriptionDetails.

(** A stand-in for the performance cache in the examples: two maps
    without expiry. *)
Definition simple_perf : Type :=
  gmap string SubscriptionDetailsResult * gmap string bool.

Definition simple_key (userId : string) : string := "subscription:" +:+ userId.

Definition simple_get (key : string) (pf : simple_perf)
  : option SubscriptionDetailsResult * simple_perf := (fst pf !! key, pf).

Definition simple_set (key : string) (result : SubscriptionDetailsResult)
    (pf : simple_perf) : simple_perf := (<[key := result]> (fst pf), snd pf).

Definition simple_getPro (userId : string) (pf : simple_perf)
  : option bool * simple_perf := (snd pf !! userId, pf).

Definition simple_setPro (userId : string) (isPro : bool) (pf : simple_perf)
  : simple_perf := (fst pf, <[userId := isPro]> (snd pf)).

Definition empty_perf : simple_perf := (∅, ∅).

(** A performance cache that still holds Alice's active subscription. *)
Definition stale_perf : simple_perf :=
  (<[simple_key "u1" := active_result Samples.alice_subscription]> ∅,
   <["u1" := true]> ∅).

End DetailsFixtures.

Module TvFixtures.
Import TrendingTv.

(** Three shows, the second updated last and the first one first. *)
Definition recent : updates :=
  Updates ["1"; "2"; "3"]
    (fun key => if bool_decide (key = "2") then 30%Q
                else if bool_decide (key = "3") then 20%Q else 10%Q).

Definition second_show : show :=
  MkShow 2 (Some "Second") None None (Some "<p>Two</p>") None (Some "2021-03-04")
    None (Some "Running") None None.

(** Only the second show can be fetched. *)
Definition patchy_fetch (key : string) : show_fetch :=
  if bool_decide (key = "2") then ShowResponse true (Returned (Some second_show))
  else if bool_decide (key = "3") then ShowFetchThrows "socket hang up"
  else ShowResponse false (Returned None).

End TvFixtures.

(* ===================================================================== *)
(** * Properties *)
(* ===================================================================== *)

(** ** The embedding at work on small inputs *)

Module Examples.

Example six_calls :
  Db.calls 2 6 ["read-1"; "read-2"] Db.initial
  = Some ([(1, Returned (Some "read-2")); (0, Returned (Some "read-1"));
           (1, Returned (Some "read-2")); (0, Returned (Some "read-1"));
           (1, Returned (Some "read-2")); (1, Returned (Some "read-2"))],
          Db.Selector 1 6).
Proof. reflexivity. Qed.

Example single_replica :
  Db.calls 2 3 ["only"] Db.initial
  = Some ([(0, Returned (Some "only")); (0, Returned (Some "only"));
           (0, Returned (Some "only"))],
          Db.Selector 0 4).
Proof. reflexivity. Qed.

Example split_at :
  js_split "@" "a@b@c" = ["a"; "b"; "c"]
  /\ js_split "@" "abc@" = ["abc"; EmptyString]
  /\ js_split "@" EmptyString = [EmptyString].
Proof. repeat split. Qed.

Example sort_is_stable :
  js_sort (fun a b : Z * string => fst a <? fst b)
    [(1, "a"); (3, "b"); (1, "c"); (3, "d"); (2, "e")]
  = [(3, "b"); (3, "d"); (2, "e"); (1, "a"); (1, "c")].
Proof. reflexivity. Qed.

Example active_subscription_sample :
  UserData.isProUser Samples.alice_data = true
  /\ UserData.subscriptionStatus Samples.alice_data = UserData.active
  /\ UserData.name Samples.alice_data = "alice".
Proof. repeat split. Qed.

Example subreddit_of_url :
  Reddit.subredditMatch "https://www.Reddit.com/r/rust/comments/abc/x" = Some "rust"
  /\ Reddit.isRedditPostUrl "https://www.Reddit.com/r/rust/comments/abc/x" = true
  /\ Reddit.isRedditPostUrl "https://www.reddit.com/r/rust/" = false
  /\ Reddit.subredditMatch "https://example.com/r/rust" = None.
Proof. repeat split. Qed.

Example tags_stripped :
  Trending.strip_tags false "<p>Two <b>friends</b>, 1 < 2</p>" = "Two friends, 1 "
  /\ Trending.strip_tags false "a < b" = "a < b".
Proof. repeat split. Qed.

Example student_emails :
  Discount.isStudentEmail "Bob@MIT.EDU" [".edu"] = true
  /\ Discount.isStudentEmail "bob@iitb.edu.in" [".EDU"] = true
  /\ Discount.isStudentEmail "bob@x.edu.india" [".edu"] = false
  /\ Discount.isStudentEmail "bob@x.ac.in" [".edu"; ".ac.in"] = true
  /\ Discount.isStudentEmail "bob@x.edu" [] = false.
Proof. repeat split. Qed.

End Examples.

(** ** The read-replica selector *)

Module DbFacts.
Import Db.

Lemma MAX_WEIGHT_value : MAX_WEIGHT = 6.
Proof. reflexivity. Qed.

Lemma WEIGHT_GCD_value : WEIGHT_GCD = 2.
Proof. reflexivity. Qed.

(** More iterations never change the state a returning loop stops in. *)
Lemma loop_more_fuel n weights fuel fuel' s s' :
  loop fuel n weights s = Some s' ->
  (fuel <= fuel')%nat ->
  loop fuel' n weights s = Some s'.
Proof.
  revert fuel' s. induction fuel as [|fuel IH]; intros fuel' s Hloop Hle.
  - discriminate.
  - destruct fuel' as [|fuel']; [lia|].
    cbn [loop] in *. revert Hloop. destruct (iteration n weights s) as [s1 stop].
    destruct stop; [trivial|]. intros Hloop. apply IH; [assumption|lia].
Qed.

Lemma loop_deterministic n weights f1 f2 s s1 s2 :
  loop f1 n weights s = Some s1 ->
  loop f2 n weights s = Some s2 ->
  s1 = s2.
Proof.
  intros H1 H2.
  apply loop_more_fuel with (fuel' := (f1 `max` f2)%nat) in H1; [|lia].
  apply loop_more_fuel with (fuel' := (f1 `max` f2)%nat) in H2; [|lia].
  congruence.
Qed.

Lemma in_range_cases s :
  in_range s ->
  exists i w, s = Selector i w /\ i ∈ [-1; 0; 1] /\ w ∈ [0; 2; 4; 6].
Proof. destruct s as [i w]. intros [Hi Hw]. eauto. Qed.

Ltac selector_cases H :=
  apply in_range_cases in H;
  destruct H as (?i & ?w & -> & ?Hi & ?Hw);
  repeat (apply elem_of_cons in Hi; destruct Hi as [->|Hi]);
  try (apply elem_of_nil in Hi; destruct Hi);
  repeat (apply elem_of_cons in Hw; destruct Hw as [->|Hw]);
  try (apply elem_of_nil in Hw; destruct Hw).

Lemma in_range_intro i w :
  i ∈ [-1; 0; 1] -> w ∈ [0; 2; 4; 6] -> in_range (Selector i w).
Proof. intros; split; assumption. Qed.

(** From a state in range, two iterations are enough on one or two
    replicas, and the loop stops at an index of the list. *)
Lemma loop_two_iterations (n : nat) s :
  in_range s ->
  (1 <= n <= 2)%nat ->
  exists s', loop 2 (Z.of_nat n) (take n REPLICA_WEIGHTS) s = Some s'
             /\ in_range s'
             /\ 0 <= currentIndex s' < Z.of_nat n.
Proof.
  intros Hs Hn.
  assert (Hcase : n = 1%nat \/ n = 2%nat) by lia. clear Hn.
  destruct Hcase as [-> | ->];
    selector_cases Hs;
    (eexists; split; [vm_compute; reflexivity|];
     split; [apply in_range_intro; set_solver | simpl; lia]).
Qed.

Lemma selectReplica_empty {T} fuel (s : selector) :
  selectReplica fuel (@nil T) s = Some (Thrown "No replicas configured", s).
Proof. reflexivity. Qed.

Lemma selectReplica_in_range {T} (replicas : list T) fuel s o s' :
  in_range s ->
  (length replicas <= 2)%nat ->
  selectReplica fuel replicas s = Some (o, s') ->
  in_range s'.
Proof.
  intros Hs Hlen Hcall. unfold selectReplica in Hcall.
  destruct (length replicas =? 0)%nat eqn:Hz.
  - inversion Hcall; subst; assumption.
  - apply Nat.eqb_neq in Hz.
    destruct (loop fuel _ _ s) as [s1|] eqn:Hloop; [|discriminate].
    inversion Hcall; subst; clear Hcall.
    destruct (loop_two_iterations (length replicas) s Hs) as (s2 & H2 & Hr & _); [lia|].
    rewrite (loop_deterministic _ _ _ _ _ _ _ Hloop H2). assumption.
Qed.

(** From a state in range a call on one or two replicas returns an
    element of the list within two iterations. *)
Lemma selectReplica_returns {T} (replicas : list T) s :
  in_range s ->
  (1 <= length replicas <= 2)%nat ->
  exists r s',
    r ∈ replicas
    /\ in_range s'
    /\ forall fuel, (2 <= fuel)%nat ->
         selectReplica fuel replicas s = Some (Returned (Some r), s').
Proof.
  intros Hs Hn.
  destruct (loop_two_iterations (length replicas) s Hs Hn) as (s' & Hloop & Hs' & Hidx).
  destruct (lookup_lt_is_Some_2 replicas (Z.to_nat (currentIndex s'))) as [r Hr]; [lia|].
  exists r, s'. split; [eapply list_elem_of_lookup_2; eassumption|].
  split; [assumption|].
  intros fuel Hfuel. unfold selectReplica.
  destruct (length replicas =? 0)%nat eqn:Hz; [apply Nat.eqb_eq in Hz; lia|].
  rewrite (loop_more_fuel _ _ _ fuel _ _ Hloop Hfuel).
  unfold js_index. destruct (currentIndex s' <? 0) eqn:Hneg; [lia|].
  rewrite Hr. reflexivity.
Qed.

Lemma reachable_in_range s : reachable s -> in_range s.
Proof.
  induction 1 as [|T replicas fuel s o s' _ IH Hlen Hcall].
  - apply in_range_intro; set_solver.
  - eapply selectReplica_in_range; eassumption.
Qed.

Lemma succ_mod_5 j : (S j mod 5 = S (j mod 5) mod 5)%nat.
Proof.
  change (S j) with (1 + j)%nat. change (S (j mod 5)) with (1 + j mod 5)%nat.
  symmetry. apply Nat.Div0.add_mod_idemp_r.
Qed.

Lemma mod_5_cases j :
  (j mod 5 = 0 \/ j mod 5 = 1 \/ j mod 5 = 2 \/ j mod 5 = 3 \/ j mod 5 = 4)%nat.
Proof. pose proof (Nat.mod_upper_bound j 5). lia. Qed.

Lemma selectReplica_step {T} (r0 r1 : T) (j : nat) :
  selectReplica 2 [r0; r1] (state_after j)
  = Some (Returned (js_index [r0; r1] (pattern_at j)), state_after (S j))
  /\ currentIndex (state_after (S j)) = pattern_at j.
Proof.
  destruct j as [|j].
  - split; reflexivity.
  - unfold state_after, pattern_at. rewrite (succ_mod_5 j).
    destruct (mod_5_cases j) as [-> | [-> | [-> | [-> | ->]]]];
      split; reflexivity.
Qed.

Lemma calls_from_state_after {T} (r0 r1 : T) (k j : nat) :
  calls 2 k [r0; r1] (state_after j)
  = Some (expected_trace [r0; r1] j k, state_after (j + k)).
Proof.
  revert j. induction k as [|k IH]; intros j.
  - simpl. rewrite Nat.add_0_r. reflexivity.
  - destruct (selectReplica_step r0 r1 j) as [Hstep Hidx].
    cbn [calls]. rewrite Hstep, (IH (S j)), Hidx.
    replace (S j + k)%nat with (j + S k)%nat by lia. reflexivity.
Qed.

Lemma pattern_at_congr a b k :
  (a mod 5 = b mod 5)%nat ->
  map pattern_at (seq a k) = map pattern_at (seq b k).
Proof.
  revert a b. induction k as [|k IH]; intros a b Hab; [reflexivity|].
  simpl. f_equal.
  - unfold pattern_at. rewrite Hab. reflexivity.
  - apply IH. rewrite (succ_mod_5 a), (succ_mod_5 b), Hab. reflexivity.
Qed.

Lemma window_indices {T} (replicas : list T) j :
  map fst (expected_trace replicas j 5) = map pattern_at (seq (j mod 5) 5).
Proof.
  unfold expected_trace. rewrite map_map.
  change (map _ (seq j 5)) with (map pattern_at (seq j 5)).
  apply pattern_at_congr. rewrite Nat.Div0.mod_mod. reflexivity.
Qed.

(** C1.  With the configured weights [4, 6] and two replicas, starting
    from the initial state of the module, the calls to [selectReplica]
    return replica 1, 0, 1, 0, 1 and so on in rounds of five: after any
    number [j] of calls, the next five calls all return, the index they
    stop at is the one the repeated pattern [1, 0, 1, 0, 1] gives for
    their position, the value returned is the replica at that index,
    and among the five replica 0 is returned exactly twice and replica 1
    exactly three times. *)
Theorem selectReplica_weighted_round_robin {T} (r0 r1 : T) (j : nat) :
  exists s1 s2 window,
    calls 2 j [r0; r1] initial = Some (expected_trace [r0; r1] 0 j, s1)
    /\ calls 2 5 [r0; r1] s1 = Some (window, s2)
    /\ window = expected_trace [r0; r1] j 5
    /\ count_index 0 (map fst window) = 2%nat
    /\ count_index 1 (map fst window) = 3%nat
    /\ expected_trace [r0; r1] 0 5
       = [(1, Returned (Some r1)); (0, Returned (Some r0));
          (1, Returned (Some r1)); (0, Returned (Some r0));
          (1, Returned (Some r1))].
Proof.
  exists (state_after j), (state_after (j + 5)), (expected_trace [r0; r1] j 5).
  split; [exact (calls_from_state_after r0 r1 j 0)|].
  split; [exact (calls_from_state_after r0 r1 5 j)|].
  split; [reflexivity|].
  rewrite window_indices.
  destruct (mod_5_cases j) as [-> | [-> | [-> | [-> | ->]]]];
    repeat split; reflexivity.
Qed.

(** C8.  On the empty list [selectReplica] throws
    ['No replicas configured'] and leaves the state alone.  On a list of
    one or two replicas, from every state the module can reach, the
    call returns: the loop takes its [return] within two iterations,
    and the value is an element of the list. *)
Theorem selectReplica_terminates {T} (replicas : list T) (s : selector)
    (Hreach : reachable s)
    (Hnonempty : replicas <> [])
    (Hlen : (length replicas <= 2)%nat) :
  (forall fuel s0,
      selectReplica fuel (@nil T) s0 = Some (Thrown "No replicas configured", s0))
  /\ exists r s',
      r ∈ replicas
      /\ reachable s'
      /\ forall fuel, (2 <= fuel)%nat ->
           selectReplica fuel replicas s = Some (Returned (Some r), s').
Proof.
  split; [intros; reflexivity|].
  assert (1 <= length replicas <= 2)%nat as Hn.
  { destruct replicas; [congruence|simpl in *; lia]. }
  destruct (selectReplica_returns replicas s (reachable_in_range s Hreach) Hn)
    as (r & s' & Hr & _ & Hcall).
  exists r, s'. split; [assumption|]. split; [|assumption].
  eapply reach_call; [exact Hreach|exact Hlen|apply (Hcall 2%nat); lia].
Qed.

Lemma selectReplica_terminates_witness :
  exists r s',
    r ∈ ["read-1"; "read-2"]
    /\ reachable s'
    /\ forall fuel, (2 <= fuel)%nat ->
         selectReplica fuel ["read-1"; "read-2"] initial = Some (Returned (Some r), s').
Proof.
  refine (proj2 (selectReplica_terminates ["read-1"; "read-2"] initial _ _ _)).
  - apply reach_initial.
  - discriminate.
  - simpl. lia.
Defined.

End DbFacts.

(** ** Sorting *)

Section JsSort.
Context {A : Type} (after : A -> A -> bool).

Lemma js_sort_insert_perm x l : js_sort_insert after x l ≡ₚ x :: l.
Proof.
  induction l as [|y l IH]; simpl; [reflexivity|].
  destruct (after x y); [|reflexivity].
  rewrite IH. apply Permutation_swap.
Qed.

Lemma js_sort_perm l : js_sort after l ≡ₚ l.
Proof.
  induction l as [|x l IH]; simpl; [reflexivity|].
  rewrite js_sort_insert_perm, IH. reflexivity.
Qed.

Lemma js_sort_length l : length (js_sort after l) = length l.
Proof. apply Permutation_length, js_sort_perm. Qed.

Lemma head_js_sort_is_Some l : is_Some (head (js_sort after l)) <-> l <> [].
Proof.
  destruct l as [|x l].
  - simpl. split; [intros [? H]; discriminate|congruence].
  - split; [discriminate|intros _].
    destruct (js_sort after (x :: l)) as [|y l'] eqn:E; [|simpl; eauto].
    apply (f_equal length) in E. rewrite js_sort_length in E. discriminate.
Qed.

Lemma elem_of_js_sort x l : x ∈ js_sort after l <-> x ∈ l.
Proof. rewrite (js_sort_perm l). reflexivity. Qed.

(** With a comparator that comes from a total preorder, no element of
    the sorted array has to go after a later one. *)
Hypothesis after_asym : forall a b, after a b = true -> after b a = false.
Hypothesis after_trans :
  forall a b c, after a b = false -> after b c = false -> after a c = false.

Lemma js_sort_insert_sorted x l :
  StronglySorted (fun a b => after a b = false) l ->
  StronglySorted (fun a b => after a b = false) (js_sort_insert after x l).
Proof.
  induction l as [|y l IH]; intros Hl; simpl.
  - repeat constructor.
  - apply StronglySorted_inv in Hl. destruct Hl as [Hl Hy].
    destruct (after x y) eqn:Hxy.
    + constructor; [apply IH, Hl|].
      rewrite js_sort_insert_perm. constructor; [apply after_asym, Hxy|exact Hy].
    + constructor; [constructor; assumption|].
      constructor; [exact Hxy|].
      eapply Forall_impl; [exact Hy|]. intros z Hyz. simpl in Hyz.
      eapply after_trans; eassumption.
Qed.

Lemma js_sort_sorted l :
  StronglySorted (fun a b => after a b = false) (js_sort after l).
Proof.
  induction l as [|x l IH]; simpl; [constructor|].
  apply js_sort_insert_sorted, IH.
Qed.
End JsSort.

(** ** The caches *)

Module UserDataFacts.
Import UserData.

Lemma getReadReplica_returns (st : server) :
  Db.reachable (selector st) ->
  exists r st',
    getReadReplica st = Some (Returned (Some r), st')
    /\ userDataCache st' = userDataCache st
    /\ lightweightAuthCache st' = lightweightAuthCache st
    /\ Db.reachable (selector st').
Proof.
  intros Hsel. unfold getReadReplica.
  destruct (DbFacts.selectReplica_returns [dbread1; dbread2] (selector st))
    as (r & s' & _ & _ & Hcall).
  { apply DbFacts.reachable_in_range, Hsel. }
  { simpl. lia. }
  specialize (Hcall replica_fuel (Nat.le_refl _)). rewrite Hcall.
  exists r, (with_selector st s'). repeat split.
  eapply Db.reach_call; [exact Hsel| |exact Hcall]. simpl. lia.
Qed.

Lemma elem_of_user_with_subscriptions tables userId u o :
  (u, o) ∈ user_with_subscriptions tables userId
  <-> u ∈ users tables /\ user_id u = userId
      /\ match o with
         | Some s => s ∈ subscriptions tables /\ sub_referenceId s = userId
         | None => subscriptions_of tables userId = []
         end.
Proof.
  unfold user_with_subscriptions.
  rewrite list_elem_of_In, in_flat_map. split.
  - intros (u' & Hu' & Hin).
    apply list_elem_of_In, list_elem_of_filter in Hu'. destruct Hu' as [Hid Hu'].
    rewrite Hid in Hin.
    destruct (subscriptions_of tables userId) as [|s0 subs] eqn:Hsubs.
    + destruct Hin as [[= <- <-]|[]]. auto.
    + apply list_elem_of_In, list_elem_of_fmap in Hin.
      destruct Hin as (s & [= -> ->] & Hs).
      rewrite <- Hsubs in Hs. apply list_elem_of_filter in Hs. tauto.
  - intros (Hu & Hid & Ho). exists u. split.
    + apply list_elem_of_In, list_elem_of_filter. auto.
    + rewrite Hid. destruct o as [s|].
      * assert (Hs : s ∈ subscriptions_of tables userId)
          by (apply list_elem_of_filter; tauto).
        destruct (subscriptions_of tables userId) as [|s0 subs] eqn:Hsubs.
        { apply elem_of_nil in Hs. destruct Hs. }
        apply list_elem_of_In, list_elem_of_fmap. eauto.
      * rewrite Ho. left. reflexivity.
Qed.

Lemma user_with_subscriptions_nil tables userId :
  user_with_subscriptions tables userId = []
  <-> ~ Vocabulary.user_exists tables userId.
Proof.
  split.
  - intros Hnil (u & Hu & Hid).
    assert (Hin : exists o, (u, o) ∈ user_with_subscriptions tables userId).
    { destruct (subscriptions_of tables userId) as [|s subs] eqn:Hsubs.
      - exists None. apply elem_of_user_with_subscriptions. rewrite Hsubs. auto.
      - exists (Some s). apply elem_of_user_with_subscriptions.
        assert (Hs : s ∈ subscriptions_of tables userId) by (rewrite Hsubs; left).
        apply list_elem_of_filter in Hs. tauto. }
    destruct Hin as [o Hin]. rewrite Hnil in Hin.
    apply elem_of_nil in Hin. destruct Hin.
  - intros Hno.
    destruct (user_with_subscriptions tables userId) as [|[u o] rows] eqn:E;
      [reflexivity|].
    exfalso. apply Hno. exists u.
    assert (Hin : (u, o) ∈ user_with_subscriptions tables userId) by (rewrite E; left).
    apply elem_of_user_with_subscriptions in Hin. tauto.
Qed.

Lemma user_with_subscriptions_nonempty tables userId :
  user_with_subscriptions tables userId <> []
  <-> Vocabulary.user_exists tables userId.
Proof.
  split.
  - intros Hne.
    destruct (user_with_subscriptions tables userId) as [|[u o] rows] eqn:E;
      [congruence|].
    assert (Hin : (u, o) ∈ user_with_subscriptions tables userId) by (rewrite E; left).
    apply elem_of_user_with_subscriptions in Hin. exists u. tauto.
  - intros Hex Hnil. apply user_with_subscriptions_nil in Hnil. contradiction.
Qed.

(** With a row for the user, the joined rows show an active status
    exactly when the user has an active subscription. *)
Lemma joined_rows_active tables userId :
  user_with_subscriptions tables userId <> [] ->
  (exists row, row ∈ user_with_subscriptions tables userId
               /\ sub_status <$> snd row = Some "active")
  <-> Vocabulary.has_active_subscription tables userId.
Proof.
  intros Hrows. split.
  - intros ([u o] & Hin & Hst).
    apply elem_of_user_with_subscriptions in Hin. destruct Hin as (_ & _ & Ho).
    destruct o as [s|]; [|discriminate]. simpl in Hst. injection Hst as Hst.
    exists s. tauto.
  - intros (s & Hs & Href & Hst).
    destruct (user_with_subscriptions tables userId) as [|[u o] rows] eqn:E;
      [congruence|].
    assert (Hin : (u, o) ∈ user_with_subscriptions tables userId) by (rewrite E; left).
    apply elem_of_user_with_subscriptions in Hin. destruct Hin as (Hu & Hid & _).
    exists (u, Some s). rewrite <- E. split.
    + apply elem_of_user_with_subscriptions. auto.
    + simpl. rewrite Hst. reflexivity.
Qed.

Lemma activeStripeSubscription_is_Some rows :
  is_Some (activeStripeSubscription_of (stripeSubscriptions_of rows))
  <-> exists row, row ∈ rows /\ sub_status <$> snd row = Some "active".
Proof.
  unfold activeStripeSubscription_of. rewrite head_js_sort_is_Some. split.
  - intros Hne.
    destruct (filter _ (stripeSubscriptions_of rows)) as [|ss l] eqn:E; [congruence|].
    assert (Hin : ss ∈ filter (fun sub => ss_status sub = "active")
                         (stripeSubscriptions_of rows)) by (rewrite E; left).
    apply list_elem_of_filter in Hin. destruct Hin as [Hst Hin].
    apply list_elem_of_omap in Hin. destruct Hin as ([u o] & Hrow & Hconv).
    exists (u, o). split; [assumption|].
    simpl in *. destruct o as [s|]; [|discriminate].
    injection Hconv as <-. simpl in Hst. simpl. rewrite Hst. reflexivity.
  - intros ([u o] & Hrow & Hst) Hnil.
    destruct o as [s|]; [|discriminate]. simpl in Hst. injection Hst as Hst.
    assert (Hin : MkStripeSubscription (sub_id s) (sub_plan s) (sub_status s)
                    (sub_periodStart s) (sub_periodEnd s)
                    (default false (sub_cancelAtPeriodEnd s))
                    (sub_cancelAt s) (sub_canceledAt s) (sub_endedAt s)
                  ∈ filter (fun sub => ss_status sub = "active")
                      (stripeSubscriptions_of rows)).
    { apply list_elem_of_filter. split; [exact Hst|].
      apply list_elem_of_omap. exists (u, Some s). split; [assumption|reflexivity]. }
    rewrite Hnil in Hin. apply elem_of_nil in Hin. destruct Hin.
Qed.

Lemma existsb_active rows :
  existsb (fun row : user_row * option subscription_row =>
             bool_decide (sub_status <$> snd row = Some "active")) rows = true
  <-> exists row, row ∈ rows /\ sub_status <$> snd row = Some "active".
Proof.
  rewrite existsb_exists. split; intros (row & Hin & Hst); exists row.
  - apply list_elem_of_In in Hin. apply bool_decide_eq_true in Hst. auto.
  - split; [apply list_elem_of_In; assumption|apply bool_decide_eq_true; assumption].
Qed.

Lemma find_active_is_Some (subs : list subscription_row) :
  is_Some (List.find (fun sub => bool_decide (sub_status sub = "active")) subs)
  <-> exists s, s ∈ subs /\ sub_status s = "active".
Proof.
  split.
  - intros [s Hfind]. apply find_some in Hfind. destruct Hfind as [Hin Hst].
    exists s. split; [apply list_elem_of_In; assumption|].
    apply bool_decide_eq_true in Hst. assumption.
  - intros (s & Hin & Hst).
    destruct (List.find _ subs) as [s'|] eqn:E; [eauto|].
    exfalso. apply list_elem_of_In in Hin.
    pose proof (find_none _ _ E s Hin) as Hno. simpl in Hno.
    apply bool_decide_eq_false in Hno. contradiction.
Qed.

(** C2.  An entry written by [setCachedUserData] at time [stored] is
    given back by [getCachedUserData] at time [now] exactly when less
    than [CACHE_TTL_MS] (five minutes) went by; otherwise the call
    answers [null] and deletes the entry.  In any cache, data is only
    returned from an entry whose [expiresAt] is still ahead, and an
    entry that reached [expiresAt] is deleted and [null] returned. *)
Theorem getCachedUserData_ttl
    (cache : gmap string (ComprehensiveUserData * Z))
    (userId : string) (data : ComprehensiveUserData) (stored now : Z) :
  let cache1 := setCachedUserData stored userId data cache in
  CACHE_TTL_MS = 300000
  /\ (fst (getCachedUserData now userId cache1) = Some data
      <-> now - stored < CACHE_TTL_MS)
  /\ getCachedUserData now userId cache1
     = (if now - stored <? CACHE_TTL_MS then (Some data, cache1)
        else (None, delete userId cache1))
  /\ (forall (c : gmap string (ComprehensiveUserData * Z)) d,
        fst (getCachedUserData now userId c) = Some d ->
        exists expiresAt, c !! userId = Some (d, expiresAt) /\ now < expiresAt)
  /\ (forall (c : gmap string (ComprehensiveUserData * Z)) d expiresAt,
        c !! userId = Some (d, expiresAt) ->
        expiresAt <= now ->
        getCachedUserData now userId c = (None, delete userId c)
        /\ delete userId c !! userId = None).
Proof.
  intros cache1.
  assert (Hget : getCachedUserData now userId cache1
                 = (if now - stored <? CACHE_TTL_MS then (Some data, cache1)
                    else (None, delete userId cache1))).
  { unfold getCachedUserData, cache1, setCachedUserData.
    rewrite lookup_insert_eq.
    destruct (now <? stored + CACHE_TTL_MS) eqn:H1,
             (now - stored <? CACHE_TTL_MS) eqn:H2; try reflexivity; lia. }
  split; [reflexivity|]. split; [|split; [exact Hget|split]].
  - rewrite Hget. destruct (now - stored <? CACHE_TTL_MS) eqn:H; simpl.
    + split; [lia|reflexivity].
    + split; [discriminate|lia].
  - intros c d. unfold getCachedUserData.
    destruct (c !! userId) as [[d' e]|]; [|discriminate].
    destruct (now <? e) eqn:H; simpl; [|discriminate].
    intros [= ->]. exists e. split; [reflexivity|lia].
  - intros c d e Hc He. unfold getCachedUserData. rewrite Hc.
    destruct (now <? e) eqn:H; [lia|].
    split; [reflexivity|apply lookup_delete_eq].
Qed.

Lemma has_active_subscription_filter tables userId :
  (exists s, s ∈ subscriptions_of tables userId /\ sub_status s = "active")
  <-> Vocabulary.has_active_subscription tables userId.
Proof.
  unfold Vocabulary.has_active_subscription, subscriptions_of.
  split; intros (s & H); exists s; rewrite list_elem_of_filter in *; tauto.
Qed.

Lemma isProUser_build now userData rows :
  isProUser (build_comprehensive now userData rows) = true
  <-> exists row, row ∈ rows /\ sub_status <$> snd row = Some "active".
Proof.
  unfold build_comprehensive. simpl.
  rewrite bool_decide_eq_true. apply activeStripeSubscription_is_Some.
Qed.

Lemma truthy_string_Some userId :
  userId <> EmptyString -> truthy_string (Some userId) = true.
Proof.
  intros Hne. unfold truthy_string. rewrite bool_decide_eq_false_2; [reflexivity|assumption].
Qed.

(** C3, as stated, fails for the two cached functions: a live cache
    entry is returned as it is.  A minute after Alice was served as Pro
    her subscription is canceled, and [getComprehensiveUserData] still
    answers with [isProUser = true] while the table it would read has
    no active row of hers. *)
Lemma cached_flag_outlives_subscription :
  ~ Vocabulary.pro_flag_as_stated Fixtures.later_request Samples.served.
Proof.
  intros Hstated.
  destruct (Hstated "u1" Fixtures.canceled_tables eq_refl eq_refl) as [Hfull _].
  assert (Hcall : getComprehensiveUserData Fixtures.later_request Samples.served
                  = Some (Some Samples.alice_data, Samples.served))
    by (vm_compute; reflexivity).
  destruct (Hfull _ _ Hcall) as [Hactive _].
  destruct (Hactive eq_refl) as (s & Hin & _ & Hstatus).
  unfold Fixtures.canceled_tables in Hin. cbn [subscriptions] in Hin.
  apply list_elem_of_singleton in Hin. subst s. discriminate Hstatus.
Qed.

(** C3, amended.  The Pro flag follows the subscription table whenever
    it is computed.  With a database that answers,
    [getComprehensiveProStatus(userId)] returns [isProUser = true]
    exactly when some subscription row with [referenceId = userId] has
    the status ['active'].  For a signed-in user,
    [getComprehensiveUserData] and [getLightweightUserAuth], when they
    find no live cache entry and so compute their answer, answer [null]
    exactly when the user has no row, and otherwise set [isProUser] by
    the same rule. *)
Theorem isProUser_iff_active_subscription
    (e : env) (st : server) (userId : string) (tables : database)
    (Hdb : db e = Returned tables)
    (Hsel : Db.reachable (selector st)) :
  (exists ps st',
      Subscription.getComprehensiveProStatus e userId st = Some (ps, st')
      /\ (Subscription.isProUser ps = true
          <-> Vocabulary.has_active_subscription tables userId))
  /\ (session_user e = Returned (Some userId) ->
      userId <> EmptyString ->
      fst (getCachedUserData (now_lookup e) userId (userDataCache st)) = None ->
      exists r st',
        getComprehensiveUserData e st = Some (r, st')
        /\ (is_Some r <-> Vocabulary.user_exists tables userId)
        /\ forall d, r = Some d ->
             (isProUser d = true
              <-> Vocabulary.has_active_subscription tables userId))
  /\ (session_user e = Returned (Some userId) ->
      userId <> EmptyString ->
      fst (getCachedLightweightAuth (now_lookup_light e) userId
             (lightweightAuthCache st)) = None ->
      fst (getCachedUserData (now_lookup e) userId (userDataCache st)) = None ->
      exists r st',
        getLightweightUserAuth e st = Some (r, st')
        /\ (is_Some r <-> Vocabulary.user_exists tables userId)
        /\ forall d, r = Some d ->
             (la_isProUser d = true
              <-> Vocabulary.has_active_subscription tables userId)).
Proof.
  split; [|split].
  - unfold Subscription.getComprehensiveProStatus.
    destruct (getReadReplica_returns st Hsel) as (r & st1 & -> & _).
    rewrite Hdb.
    pose proof (find_active_is_Some (subscriptions_of tables userId)) as Hfind.
    rewrite has_active_subscription_filter in Hfind.
    destruct (List.find _ (subscriptions_of tables userId)) as [s|];
      eexists _, _; (split; [reflexivity|]); simpl.
    + split; [intros _; apply Hfind; eauto|reflexivity].
    + split; [discriminate|].
      intros H. apply Hfind in H. destruct H as [? H]. discriminate.
  - intros Hsess Hne Hmiss. unfold getComprehensiveUserData.
    rewrite Hsess, (truthy_string_Some _ Hne). simpl.
    destruct (getCachedUserData _ userId _) as [cached c1]. simpl in Hmiss. subst cached.
    destruct (getReadReplica_returns (with_userDataCache st c1) Hsel)
      as (r & st2 & -> & _).
    rewrite Hdb.
    pose proof (user_with_subscriptions_nonempty tables userId) as Hnil.
    pose proof (joined_rows_active tables userId) as Hact.
    destruct (user_with_subscriptions tables userId) as [|[userData o] rows].
    + eexists _, _. split; [reflexivity|]. split.
      * split; [intros [? ?]; discriminate|].
        intros Hex. apply Hnil in Hex. congruence.
      * discriminate.
    + eexists _, _. split; [reflexivity|]. split.
      * split; [intros _; apply Hnil; discriminate|eauto].
      * intros d [= <-]. rewrite isProUser_build. apply Hact. discriminate.
  - intros Hsess Hne Hmiss_light Hmiss. unfold getLightweightUserAuth.
    rewrite Hsess, (truthy_string_Some _ Hne). simpl.
    destruct (getCachedLightweightAuth _ userId _) as [cached l1].
    simpl in Hmiss_light. subst cached. simpl.
    destruct (getCachedUserData _ userId _) as [fullCached c1].
    simpl in Hmiss. subst fullCached.
    destruct (getReadReplica_returns
                (with_userDataCache (with_lightweightAuthCache st l1) c1) Hsel)
      as (r & st3 & -> & _).
    rewrite Hdb.
    pose proof (user_with_subscriptions_nonempty tables userId) as Hnil.
    pose proof (joined_rows_active tables userId) as Hact.
    destruct (user_with_subscriptions tables userId) as [|[first o] rows].
    + eexists _, _. split; [reflexivity|]. split.
      * split; [intros [? ?]; discriminate|].
        intros Hex. apply Hnil in Hex. congruence.
      * discriminate.
    + eexists _, _. split; [reflexivity|]. split.
      * split; [intros _; apply Hnil; discriminate|eauto].
      * intros d [= <-].
        rewrite <- Hact by discriminate. rewrite <- existsb_active. reflexivity.
Qed.

Lemma getCachedUserData_ttl_witness :
  fst (getCachedUserData 1000 "u1"
         (setCachedUserData 0 "u1" Samples.alice_data ∅)) = Some Samples.alice_data
  /\ getCachedUserData 400000 "u1" (setCachedUserData 0 "u1" Samples.alice_data ∅)
     = (None, delete "u1" (setCachedUserData 0 "u1" Samples.alice_data ∅)).
Proof.
  destruct (getCachedUserData_ttl ∅ "u1" Samples.alice_data 0 1000)
    as (_ & Hiff & _ & _ & _).
  destruct (getCachedUserData_ttl ∅ "u1" Samples.alice_data 0 400000)
    as (_ & _ & _ & _ & Hexpired).
  split.
  - apply Hiff. reflexivity.
  - apply (Hexpired _ Samples.alice_data 300000).
    + reflexivity.
    + discriminate.
Defined.

Lemma isProUser_iff_active_subscription_witness :
  (exists ps st',
      Subscription.getComprehensiveProStatus Samples.request "u1" Samples.fresh
      = Some (ps, st')
      /\ (Subscription.isProUser ps = true
          <-> Vocabulary.has_active_subscription Samples.tables "u1"))
  /\ (exists r st',
        getComprehensiveUserData Samples.request Samples.fresh = Some (r, st')
        /\ (is_Some r <-> Vocabulary.user_exists Samples.tables "u1")
        /\ forall d, r = Some d ->
             (isProUser d = true
              <-> Vocabulary.has_active_subscription Samples.tables "u1"))
  /\ (exists r st',
        getLightweightUserAuth Samples.request Samples.fresh = Some (r, st')
        /\ (is_Some r <-> Vocabulary.user_exists Samples.tables "u1")
        /\ forall d, r = Some d ->
             (la_isProUser d = true
              <-> Vocabulary.has_active_subscription Samples.tables "u1")).
Proof.
  destruct (isProUser_iff_active_subscription
              Samples.request Samples.fresh "u1" Samples.tables
              eq_refl Db.reach_initial) as (Hpro & Hfull & Hlight).
  split; [exact Hpro|split].
  - apply Hfull; [reflexivity|discriminate|reflexivity].
  - apply Hlight; [reflexivity|discriminate|reflexivity|reflexivity].
Defined.

Lemma with_userDataCache_same (st : server) :
  with_userDataCache st (userDataCache st) = st.
Proof. destruct st; reflexivity. Qed.

(** A call of a signed-in user that finds a live entry answers with it,
    and touches neither the database nor the selector. *)
Lemma getComprehensiveUserData_hit (e : env) (st : server) userId d expiresAt :
  session_user e = Returned (Some userId) ->
  userId <> EmptyString ->
  userDataCache st !! userId = Some (d, expiresAt) ->
  now_lookup e < expiresAt ->
  getComprehensiveUserData e st = Some (Some d, st).
Proof.
  intros Hsess Hne Hentry Hlive. unfold getComprehensiveUserData.
  rewrite Hsess, (truthy_string_Some _ Hne). simpl.
  unfold getCachedUserData. rewrite Hentry.
  destruct (now_lookup e <? expiresAt) eqn:H; [|lia].
  rewrite with_userDataCache_same. reflexivity.
Qed.

(** A call that misses and answers with data has stored that data, to
    expire [CACHE_TTL_MS] after the store. *)
Lemma getComprehensiveUserData_miss_stores (e : env) (st st' : server) userId d :
  session_user e = Returned (Some userId) ->
  userId <> EmptyString ->
  fst (getCachedUserData (now_lookup e) userId (userDataCache st)) = None ->
  getComprehensiveUserData e st = Some (Some d, st') ->
  userDataCache st' !! userId = Some (d, now_store e + CACHE_TTL_MS).
Proof.
  intros Hsess Hne Hmiss. unfold getComprehensiveUserData.
  rewrite Hsess, (truthy_string_Some _ Hne). simpl.
  destruct (getCachedUserData _ userId _) as [cached c1]. simpl in Hmiss. subst cached.
  destruct (getReadReplica _) as [[[[r|]|msg] st2]|]; try discriminate.
  destruct (db e) as [tables|]; [|discriminate].
  destruct (user_with_subscriptions tables userId) as [|[userData o] rows];
    [discriminate|].
  intros [= <- <-]. simpl. unfold setCachedUserData. apply lookup_insert_eq.
Qed.

(** C4.  [getComprehensiveUserData] reads through the cache.  When a
    call for a signed-in user misses the cache and answers with data,
    that data is in the cache when the call returns, due to expire five
    minutes after it was stored.  Any later call for the same user that
    reads the clock less than five minutes after the store, in a state
    where that entry is still the one stored, answers with the same
    data and leaves the state as it is: neither the database (whatever
    its content, even if it is down) nor the replica selector is used. *)
Theorem getComprehensiveUserData_read_through
    (e1 e2 : env) (st0 st1 st2 : server) (userId : string)
    (d : ComprehensiveUserData)
    (Hsess1 : session_user e1 = Returned (Some userId))
    (Hsess2 : session_user e2 = Returned (Some userId))
    (Hne : userId <> EmptyString)
    (Hmiss : fst (getCachedUserData (now_lookup e1) userId (userDataCache st0)) = None)
    (Hcall : getComprehensiveUserData e1 st0 = Some (Some d, st1))
    (Hkept : userDataCache st2 !! userId = userDataCache st1 !! userId)
    (Hbefore : now_lookup e2 - now_store e1 < CACHE_TTL_MS) :
  userDataCache st1 !! userId = Some (d, now_store e1 + CACHE_TTL_MS)
  /\ getComprehensiveUserData e2 st2 = Some (Some d, st2).
Proof.
  pose proof (getComprehensiveUserData_miss_stores e1 st0 st1 userId d
                Hsess1 Hne Hmiss Hcall) as Hstored.
  split; [exact Hstored|].
  apply getComprehensiveUserData_hit with (userId := userId)
                                          (expiresAt := now_store e1 + CACHE_TTL_MS).
  - exact Hsess2.
  - exact Hne.
  - rewrite Hkept. exact Hstored.
  - lia.
Qed.

Lemma getComprehensiveUserData_read_through_witness :
  userDataCache Samples.served !! "u1"
  = Some (Samples.alice_data, 5002 + CACHE_TTL_MS)
  /\ getComprehensiveUserData Samples.later_outage Samples.served
     = Some (Some Samples.alice_data, Samples.served).
Proof.
  apply (getComprehensiveUserData_read_through
           Samples.request Samples.later_outage
           Samples.fresh Samples.served Samples.served "u1" Samples.alice_data).
  - reflexivity.
  - reflexivity.
  - discriminate.
  - reflexivity.
  - vm_compute. reflexivity.
  - reflexivity.
  - vm_compute. reflexivity.
Defined.

(** C10.  The Pro checks fail closed.  When the database read throws,
    [getComprehensiveProStatus] answers
    [{ isProUser: false, source: 'none' }].  [isUserSubscribed] answers
    [false] without a signed-in user, when the session lookup throws,
    and when the database read throws. *)
Theorem pro_status_fails_closed (e : env) (st : server)
    (Hsel : Db.reachable (selector st)) :
  (forall userId,
      Vocabulary.throws (db e) ->
      exists st',
        Subscription.getComprehensiveProStatus e userId st
        = Some (Subscription.ProStatus false Subscription.no_source, st'))
  /\ (Vocabulary.no_session e ->
      Subscription.isUserSubscribed e st = Some (false, st))
  /\ (Vocabulary.throws (session_user e) ->
      Subscription.isUserSubscribed e st = Some (false, st))
  /\ (Vocabulary.throws (db e) ->
      exists st', Subscription.isUserSubscribed e st = Some (false, st')).
Proof.
  assert (Hpro : forall userId, Vocabulary.throws (db e) ->
            exists st', Subscription.getComprehensiveProStatus e userId st
                        = Some (Subscription.ProStatus false Subscription.no_source, st')).
  { intros userId [msg Hdb]. unfold Subscription.getComprehensiveProStatus.
    destruct (getReadReplica_returns st Hsel) as (r & st1 & -> & _).
    rewrite Hdb. eauto. }
  split; [exact Hpro|]. split; [|split].
  - intros (sess & Hsess & Hfalsy). unfold Subscription.isUserSubscribed.
    rewrite Hsess, Hfalsy. reflexivity.
  - intros [msg Hsess]. unfold Subscription.isUserSubscribed.
    rewrite Hsess. reflexivity.
  - intros Hdb. unfold Subscription.isUserSubscribed.
    destruct (session_user e) as [sess|msg]; [|eauto].
    destruct (negb (truthy_string sess)); [eauto|].
    destruct (Hpro (default EmptyString sess) Hdb) as [st' ->]. eauto.
Qed.

Lemma pro_status_fails_closed_witness :
  (exists st',
      Subscription.getComprehensiveProStatus Samples.later_outage "u1" Samples.fresh
      = Some (Subscription.ProStatus false Subscription.no_source, st'))
  /\ (exists st',
        Subscription.isUserSubscribed Samples.later_outage Samples.fresh
        = Some (false, st')).
Proof.
  destruct (pro_status_fails_closed Samples.later_outage Samples.fresh Db.reach_initial)
    as (Hpro & _ & _ & Hsub).
  split.
  - apply Hpro. eexists. reflexivity.
  - apply Hsub. eexists. reflexivity.
Defined.

End UserDataFacts.

(** ** The Reddit search tool *)

Module RedditFacts.
Import Reddit Vocabulary.

Lemma map_fmap {A B} (f : A -> B) (l : list A) : map f l = f <$> l.
Proof. reflexivity. Qed.

Section WithSearch.
Variable search : string -> Q -> outcome (list tavily_result).

Lemma searchOne_entry total k q maxResults :
  fst (searchOne search total k q maxResults) = entry_of search maxResults k q.
Proof.
  unfold searchOne, entry_of.
  destruct (search q (currentMaxResults maxResults k)); reflexivity.
Qed.

Lemma query_entry_of maxResults k q : query (entry_of search maxResults k q) = q.
Proof.
  unfold entry_of.
  destruct (search q (currentMaxResults maxResults k)); reflexivity.
Qed.

Lemma searches_lookup dataStream (i : tool_input) k :
  searches (execute search dataStream i) !! k
  = entry_of search (maxResults i) k <$> queries i !! k.
Proof.
  unfold execute. cbn [searches]. rewrite map_fmap.
  rewrite list_lookup_fmap, list_lookup_imap.
  destruct (queries i !! k) as [q|]; [|reflexivity].
  simpl. rewrite searchOne_entry. reflexivity.
Qed.
End WithSearch.

(** C5.  Whatever the list of queries, [execute] returns normally, and
    its [searches] array has one entry per query, in the order of the
    input, each carrying its query.  The entry of a query is made from
    the answer to that query's own search call alone: the reshaped
    results when the call answers, and [{ query, results: [] }] when it
    throws.  So a search that throws does not make [execute] throw, and
    changes no other entry. *)
Theorem execute_one_entry_per_query
    (search : string -> Q -> outcome (list tavily_result))
    (dataStream : bool) (i : tool_input) :
  let out := searches (execute search dataStream i) in
  length out = length (queries i)
  /\ map query out = queries i
  /\ (forall k q, queries i !! k = Some q ->
        out !! k = Some (entry_of search (maxResults i) k q))
  /\ (forall k q msg,
        queries i !! k = Some q ->
        search q (currentMaxResults (maxResults i) k) = Thrown msg ->
        out !! k = Some (SearchEntry q []))
  /\ (forall k q data,
        queries i !! k = Some q ->
        search q (currentMaxResults (maxResults i) k) = Returned data ->
        out !! k = Some (SearchEntry q (map processResult data)))
  /\ (forall (search' : string -> Q -> outcome (list tavily_result)) k q,
        queries i !! k = Some q ->
        search' q (currentMaxResults (maxResults i) k)
        = search q (currentMaxResults (maxResults i) k) ->
        searches (execute search' dataStream i) !! k = out !! k).
Proof.
  intros out.
  assert (Hlookup : forall k q, queries i !! k = Some q ->
            out !! k = Some (entry_of search (maxResults i) k q)).
  { intros k q Hq. unfold out. rewrite searches_lookup, Hq. reflexivity. }
  split; [|split; [|split; [exact Hlookup|split; [|split]]]].
  - unfold out, execute. cbn [searches].
    rewrite length_map, length_imap. reflexivity.
  - apply list_eq. intros k. unfold out.
    rewrite map_fmap, list_lookup_fmap, searches_lookup.
    destruct (queries i !! k) as [q|]; [|reflexivity].
    simpl. rewrite query_entry_of. reflexivity.
  - intros k q msg Hq Hthrow. rewrite (Hlookup k q Hq).
    unfold entry_of. rewrite Hthrow. reflexivity.
  - intros k q data Hq Hok. rewrite (Hlookup k q Hq).
    unfold entry_of. rewrite Hok. reflexivity.
  - intros search' k q Hq Hsame. rewrite (Hlookup k q Hq).
    rewrite searches_lookup, Hq. simpl. unfold entry_of. rewrite Hsame. reflexivity.
Qed.

Lemma execute_one_entry_per_query_witness :
  searches (execute Samples.flaky_search true Samples.three_queries) !! 1%nat
  = Some (SearchEntry "boom" [])
  /\ searches (execute Samples.flaky_search true Samples.three_queries) !! 2%nat
     = Some (SearchEntry "rocq" (map processResult [Samples.reddit_hit])).
Proof.
  destruct (execute_one_entry_per_query
              Samples.flaky_search true Samples.three_queries)
    as (_ & _ & _ & Hthrow & Hok & _).
  split.
  - apply (Hthrow 1%nat "boom" "HTTP 500"); reflexivity.
  - apply (Hok 2%nat "rocq" [Samples.reddit_hit]); reflexivity.
Defined.









End RedditFacts.

(** ** The trending movies tool *)

Module TrendingFacts.
Import Trending Vocabulary.

Lemma showMap_has_elem (m : list (Z * show)) k :
  showMap_has m k = true <-> k ∈ (fst <$> m).
Proof.
  unfold showMap_has. rewrite existsb_exists, list_elem_of_fmap. split.
  - intros ([k' sh] & Hin & Heq). apply bool_decide_eq_true in Heq.
    simpl in Heq. subst k'. exists (k, sh).
    split; [reflexivity|apply list_elem_of_In, Hin].
  - intros ([k' sh] & Heq & Hin). simpl in Heq. subst k'. exists (k, sh).
    split; [apply list_elem_of_In, Hin|apply bool_decide_eq_true; reflexivity].
Qed.

Lemma showMap_has_not_elem (m : list (Z * show)) k :
  showMap_has m k = false <-> k ∉ (fst <$> m).
Proof.
  rewrite <- showMap_has_elem. destruct (showMap_has m k); split; congruence.
Qed.

Lemma first_rated_occurrence_cons ep rest k :
  first_rated_occurrence (ep :: rest) k
  = if bool_decide (show_id (episode_show ep) = k)
       && truthy_number (show_rating_average (episode_show ep))
    then Some (episode_show ep)
    else first_rated_occurrence rest k.
Proof.
  unfold first_rated_occurrence. simpl.
  destruct (bool_decide _ && _); reflexivity.
Qed.

Lemma truthy_number_rated (sh : show) :
  truthy_number (show_rating_average sh) = true <-> rated sh.
Proof.
  unfold rated, truthy_number, Reddit.truthy_number.
  destruct (show_rating_average sh) as [v|].
  - rewrite negb_true_iff. split.
    + intros H. exists v. split; [reflexivity|]. apply Qeq_bool_neq, H.
    + intros (v' & [= <-] & Hnz).
      destruct (Qeq_bool v 0) eqn:E; [|reflexivity].
      apply Qeq_bool_iff in E. contradiction.
  - split; [discriminate|]. intros (v & H & _). discriminate.
Qed.

Lemma first_rated_occurrence_Some data k sh :
  first_rated_occurrence data k = Some sh ->
  show_id sh = k /\ rated sh /\ exists ep, ep ∈ data /\ episode_show ep = sh.
Proof.
  unfold first_rated_occurrence.
  destruct (List.find _ data) as [ep|] eqn:Hfind; [|discriminate].
  intros [= <-]. apply find_some in Hfind. destruct Hfind as [Hin Hp].
  apply andb_true_iff in Hp. destruct Hp as [Hid Hr].
  apply bool_decide_eq_true in Hid. apply truthy_number_rated in Hr.
  split; [assumption|]. split; [assumption|].
  exists ep. split; [apply list_elem_of_In, Hin|reflexivity].
Qed.

(** What the [forEach] leaves in the map: the entries that were there,
    and for every other id the first show with that id and a rating. *)
Lemma foldl_record_episode data : forall (m : list (Z * show)) k sh,
  (k, sh) ∈ foldl record_episode m data
  <-> (k, sh) ∈ m \/ ((k ∉ (fst <$> m)) /\ first_rated_occurrence data k = Some sh).
Proof.
  induction data as [|ep rest IH]; intros m k sh.
  - simpl. split; [auto|]. intros [H|[_ H]]; [assumption|discriminate].
  - cbn [foldl]. rewrite IH, first_rated_occurrence_cons. unfold record_episode.
    destruct (showMap_has m (show_id (episode_show ep))) eqn:Hhas; cbn [negb andb].
    + apply showMap_has_elem in Hhas.
      destruct (decide (show_id (episode_show ep) = k)) as [Heq|Hne].
      * subst k. split; (intros [H|[Hnot _]]; [left; assumption|contradiction]).
      * rewrite (bool_decide_eq_false_2 _ Hne). reflexivity.
    + apply showMap_has_not_elem in Hhas.
      destruct (truthy_number (show_rating_average (episode_show ep))) eqn:Hr.
      * rewrite andb_true_r, fmap_app, elem_of_app. cbn [fmap list_fmap fst].
        destruct (decide (show_id (episode_show ep) = k)) as [Heq|Hne].
        -- subst k. rewrite bool_decide_eq_true_2 by reflexivity. split.
           ++ intros [[H|H]|[Hnot _]].
              ** left; assumption.
              ** apply list_elem_of_singleton in H. injection H as ->.
                 right. split; [assumption|reflexivity].
              ** exfalso. apply Hnot, elem_of_app. right. apply list_elem_of_singleton.
                 reflexivity.
           ++ intros [H|[_ [= <-]]]; [left; left; assumption|].
              left. right. apply list_elem_of_singleton. reflexivity.
        -- rewrite (bool_decide_eq_false_2 _ Hne). split.
           ++ intros [[H|H]|[Hnot Hfirst]].
              ** left; assumption.
              ** apply list_elem_of_singleton in H. congruence.
              ** right. split; [|assumption].
                 intros Hin. apply Hnot, elem_of_app. left. assumption.
           ++ intros [H|[Hnot Hfirst]]; [left; left; assumption|].
              right. split; [|assumption].
              rewrite elem_of_app, list_elem_of_singleton. intros [?|?]; congruence.
      * rewrite andb_false_r. reflexivity.
Qed.

Lemma foldl_record_episode_NoDup data : forall m : list (Z * show),
  NoDup (fst <$> m) -> NoDup (fst <$> foldl record_episode m data).
Proof.
  induction data as [|ep rest IH]; intros m Hm; [assumption|].
  cbn [foldl]. apply IH. unfold record_episode.
  destruct (showMap_has m (show_id (episode_show ep))) eqn:Hhas;
    cbn [negb andb]; [assumption|].
  destruct (truthy_number _); [|assumption].
  apply showMap_has_not_elem in Hhas.
  rewrite fmap_app. apply NoDup_app. split; [assumption|]. split.
  - intros x Hx Hx'. apply list_elem_of_singleton in Hx'. simpl in Hx'. congruence.
  - apply NoDup_singleton.
Qed.

Lemma collect_shows_spec data k sh :
  (k, sh) ∈ collect_shows data <-> first_rated_occurrence data k = Some sh.
Proof.
  unfold collect_shows. rewrite foldl_record_episode. split.
  - intros [H|[_ H]]; [apply elem_of_nil in H; destruct H|assumption].
  - intros H. right. split; [apply not_elem_of_nil|assumption].
Qed.

(** The keys of the map are the ids of the shows stored under them. *)
Lemma collect_shows_ids data :
  show_id <$> (snd <$> collect_shows data) = fst <$> collect_shows data.
Proof.
  rewrite <- list_fmap_compose. apply list_fmap_ext.
  intros i [k sh] Hlookup. simpl.
  apply list_elem_of_lookup_2, collect_shows_spec, first_rated_occurrence_Some in Hlookup.
  tauto.
Qed.

Lemma rated_higher_first_lt a b :
  rated_higher_first a b = true
  <-> (number_or_zero (show_rating_average a)
       < number_or_zero (show_rating_average b))%Q.
Proof.
  unfold rated_higher_first. rewrite Qlt_alt.
  destruct (_ ?= _)%Q; split; congruence.
Qed.

Lemma rated_higher_first_ge a b :
  rated_higher_first a b = false
  <-> (number_or_zero (show_rating_average b)
       <= number_or_zero (show_rating_average a))%Q.
Proof.
  pose proof (rated_higher_first_lt a b) as Hlt.
  destruct (rated_higher_first a b); split; intros H; try congruence.
  - exfalso. apply (Qle_not_lt _ _ H). apply Hlt. reflexivity.
  - apply Qnot_lt_le. intros Hab. apply Hlt in Hab. discriminate.
Qed.

Lemma rated_higher_first_asym a b :
  rated_higher_first a b = true -> rated_higher_first b a = false.
Proof.
  rewrite rated_higher_first_lt, rated_higher_first_ge. apply Qlt_le_weak.
Qed.

Lemma rated_higher_first_trans a b c :
  rated_higher_first a b = false ->
  rated_higher_first b c = false ->
  rated_higher_first a c = false.
Proof.
  rewrite !rated_higher_first_ge. intros Hab Hbc. eapply Qle_trans; eassumption.
Qed.

Lemma StronglySorted_take {A} (R : A -> A -> Prop) n (l : list A) :
  StronglySorted R l -> StronglySorted R (take n l).
Proof.
  intros Hl. rewrite <- (take_drop n l) in Hl.
  eapply StronglySorted_app_1_l, Hl.
Qed.

Section WithYear.
Variable fullYear : string -> string.

Lemma elem_of_results_of data m :
  m ∈ results_of fullYear data ->
  exists sh, m = reshape fullYear sh
             /\ first_rated_occurrence data (show_id sh) = Some sh.
Proof.
  unfold results_of. intros Hm.
  apply list_elem_of_fmap in Hm. destruct Hm as (sh & -> & Hsh).
  apply subseteq_take, elem_of_js_sort, list_elem_of_fmap in Hsh.
  destruct Hsh as ([k sh'] & Heq & Hin). simpl in Heq. subst sh'.
  apply collect_shows_spec in Hin.
  destruct (first_rated_occurrence_Some _ _ _ Hin) as (<- & _).
  exists sh. split; [reflexivity|assumption].
Qed.

Lemma results_of_ids data :
  id <$> results_of fullYear data
  = take 20 (show_id <$> js_sort rated_higher_first (snd <$> collect_shows data)).
Proof.
  unfold results_of.
  rewrite <- list_fmap_compose, fmap_take. reflexivity.
Qed.

Lemma results_of_NoDup data : NoDup (id <$> results_of fullYear data).
Proof.
  rewrite results_of_ids.
  eapply sublist_NoDup; [|apply sublist_take].
  rewrite (js_sort_perm rated_higher_first), collect_shows_ids.
  apply foldl_record_episode_NoDup. constructor.
Qed.

Lemma results_of_sorted data :
  StronglySorted by_rating_descending (results_of fullYear data).
Proof.
  unfold results_of.
  eapply StronglySorted_fmap;
    [|apply StronglySorted_take,
        (js_sort_sorted rated_higher_first
           rated_higher_first_asym rated_higher_first_trans)].
  intros x y Hxy. unfold by_rating_descending. simpl.
  apply rated_higher_first_ge, Hxy.
Qed.
End WithYear.

(** On the sample schedule the tool keeps the second listing of show 7,
    the first one having no rating. *)
Lemma results_of_schedule :
  execute Samples.year_prefix (Response true (Returned Samples.schedule))
  = Returned [reshape Samples.year_prefix Samples.rated_listing]
  /\ first_occurrence Samples.schedule 7 = Some Samples.unrated_listing.
Proof. split; reflexivity. Qed.

(** C6, as stated, fails: with "first occurrence kept" read as written,
    the four properties do not all hold of the results computed from the
    sample schedule, whose only entry is made from the second listing of
    show 7. *)
Lemma first_occurrence_not_kept :
  ~ reshaping_as_stated Samples.year_prefix Samples.schedule
      (results_of Samples.year_prefix Samples.schedule).
Proof.
  intros (_ & (_ & Hfirst) & _).
  destruct (Hfirst (reshape Samples.year_prefix Samples.rated_listing))
    as (sh & Hsh & Heq).
  - left.
  - change (Some Samples.unrated_listing = Some sh) in Hsh.
    injection Hsh as <-. discriminate Heq.
Qed.

(** C6, amended.  When the schedule is fetched, the tool returns a list
    that (1) has at most 20 entries, (2) has at most one entry per show
    id, made from the first episode of the schedule whose show has that
    id and a rating average that is present and not zero, (3) is made
    only from shows of the schedule with such a rating, and (4) is in
    non-increasing order of the rating average. *)
Theorem trending_results_reshaped (fullYear : string -> string) (data : list episode) :
  let results := results_of fullYear data in
  execute fullYear (Response true (Returned data)) = Returned results
  /\ (length results <= 20)%nat
  /\ (NoDup (id <$> results)
      /\ forall m, m ∈ results ->
           exists sh, first_rated_occurrence data (id m) = Some sh
                      /\ m = reshape fullYear sh)
  /\ (forall m, m ∈ results ->
        exists ep, ep ∈ data
                   /\ rated (episode_show ep)
                   /\ m = reshape fullYear (episode_show ep))
  /\ StronglySorted by_rating_descending results.
Proof.
  intros results. split; [reflexivity|]. split; [|split; [split|split]].
  - unfold results, results_of. rewrite length_fmap, length_take. lia.
  - apply results_of_NoDup.
  - intros m Hm. apply elem_of_results_of in Hm.
    destruct Hm as (sh & -> & Hfirst). exists sh. split; [exact Hfirst|reflexivity].
  - intros m Hm. apply elem_of_results_of in Hm.
    destruct Hm as (sh & -> & Hfirst).
    apply first_rated_occurrence_Some in Hfirst.
    destruct Hfirst as (_ & Hrated & ep & Hep & <-).
    exists ep. split; [assumption|]. split; [assumption|reflexivity].
  - apply results_of_sorted.
Qed.

Lemma trending_results_reshaped_witness :
  exists sh,
    first_rated_occurrence Samples.schedule
      (id (reshape Samples.year_prefix Samples.rated_listing)) = Some sh
    /\ reshape Samples.year_prefix Samples.rated_listing
       = reshape Samples.year_prefix sh.
Proof.
  destruct (trending_results_reshaped Samples.year_prefix Samples.schedule)
    as (_ & _ & (_ & Hfirst) & _).
  apply Hfirst. left.
Defined.

End TrendingFacts.

(** ** Student e-mail detection *)

Module DiscountFacts.
Import Discount Vocabulary.

Ltac each_char c :=
  destruct c as [[] [] [] [] [] [] [] []]; reflexivity.

Lemma lower_char_idemp c : lower_char (lower_char c) = lower_char c.
Proof. each_char c. Qed.

Lemma lower_char_at c :
  bool_decide (lower_char c = "@"%char) = bool_decide (c = "@"%char).
Proof. each_char c. Qed.

Lemma toLowerCase_idemp s : toLowerCase (toLowerCase s) = toLowerCase s.
Proof.
  induction s as [|c s IH]; [reflexivity|].
  unfold toLowerCase in *. simpl. rewrite lower_char_idemp, IH. reflexivity.
Qed.


(** Lower-casing commutes with splitting at [@]. *)
Lemma js_split_toLowerCase s :
  js_split "@" (toLowerCase s) = toLowerCase <$> js_split "@" s.
Proof.
  induction s as [|c s IH]; [reflexivity|].
  unfold toLowerCase in *. cbn [string_map js_split].
  rewrite lower_char_at, IH.
  destruct (bool_decide (c = "@"%char)); [reflexivity|].
  destruct (js_split "@" s); reflexivity.
Qed.

Lemma strip_prefix_exact p s r :
  strip_prefix same_char p s = Some r <-> s = p +:+ r.
Proof.
  revert s. induction p as [|a p IH]; intros s; simpl.
  - split; intros H; [injection H as ->; reflexivity|subst; reflexivity].
  - destruct s as [|b s]; [split; discriminate|].
    unfold same_char at 1. destruct (decide (a = b)) as [->|Hne].
    + rewrite bool_decide_eq_true_2 by reflexivity. rewrite IH.
      split; intros H; [subst; reflexivity|injection H as ->; reflexivity].
    + rewrite bool_decide_eq_false_2 by assumption.
      split; [discriminate|]. intros H. injection H as H _. congruence.
Qed.

Lemma endsWith_refl s : endsWith s s = true.
Proof.
  destruct s; cbn [endsWith]; rewrite bool_decide_eq_true_2 by reflexivity;
    reflexivity.
Qed.

Lemma endsWith_suffix s suffix : endsWith s suffix = true <-> is_suffix suffix s.
Proof.
  unfold is_suffix. split.
  - induction s as [|c s IH]; simpl.
    + rewrite orb_false_r. intros H. apply bool_decide_eq_true in H.
      exists EmptyString. subst. reflexivity.
    + intros H. apply orb_true_iff in H. destruct H as [H|H].
      * apply bool_decide_eq_true in H. exists EmptyString. subst. reflexivity.
      * destruct (IH H) as [front ->]. exists (String c front). reflexivity.
  - intros [front ->]. induction front as [|c front IH]; simpl.
    + apply endsWith_refl.
    + rewrite IH. apply orb_true_r.
Qed.

Lemma edu_country_here_exact s :
  edu_country_here s = true
  <-> exists cc, s = ".edu." +:+ cc
                 /\ (2 <= String.length cc <= 3)%nat
                 /\ string_forall is_a_to_z cc = true.
Proof.
  unfold edu_country_here.
  destruct (strip_prefix same_char ".edu." s) as [cc|] eqn:Hstrip.
  - rewrite !andb_true_iff, !Nat.leb_le. split.
    + intros H. apply strip_prefix_exact in Hstrip. exists cc. tauto.
    + intros (cc' & Heq & H). apply strip_prefix_exact in Heq.
      rewrite Heq in Hstrip. injection Hstrip as <-. tauto.
  - split; [discriminate|]. intros (cc & Heq & _).
    apply strip_prefix_exact in Heq. congruence.
Qed.

Lemma edu_country_test_domain s :
  edu_country_test s = true <-> edu_country_domain s.
Proof.
  unfold edu_country_domain. split.
  - induction s as [|c s IH]; cbn [edu_country_test]; intros H;
      apply orb_true_iff in H; destruct H as [H|H]; try discriminate.
    + apply edu_country_here_exact in H. destruct H as (cc & Heq & H).
      exists EmptyString, cc. auto.
    + destruct (IH H) as (front & cc & -> & Hcc). exists (String c front), cc. auto.
  - intros (front & cc & -> & Hcc). induction front as [|c front IH].
    + assert (H : edu_country_here (".edu." +:+ cc) = true)
        by (apply edu_country_here_exact; eauto).
      change (EmptyString +:+ ".edu." +:+ cc) with (String "." ("edu." +:+ cc)).
      change (".edu." +:+ cc) with (String "." ("edu." +:+ cc)) in H.
      cbn [edu_country_test]. rewrite H. reflexivity.
    + change (String c front +:+ ".edu." +:+ cc)
        with (String c (front +:+ ".edu." +:+ cc)).
      cbn [edu_country_test]. rewrite IH. apply orb_true_r.
Qed.

Lemma pattern_matches_spec domain pattern :
  pattern_matches domain pattern = true
  <-> is_suffix (toLowerCase pattern) domain
      \/ (toLowerCase pattern = ".edu" /\ edu_country_domain domain).
Proof.
  unfold pattern_matches.
  destruct (decide (toLowerCase pattern = ".edu")) as [Hedu|Hne].
  - rewrite bool_decide_eq_true_2 by assumption.
    rewrite orb_true_iff, endsWith_suffix, edu_country_test_domain, Hedu. tauto.
  - rewrite bool_decide_eq_false_2 by assumption.
    rewrite endsWith_suffix. tauto.
Qed.





End DiscountFacts.

(** ** More on the selector *)

Module DbMore.
Import Db.

Lemma gcd_fuel_gcd fuel : forall a b,
  0 <= a -> 0 <= b -> b < Z.of_nat fuel ->
  gcd_fuel fuel a b = Z.gcd a b.
Proof.
  induction fuel as [|fuel IH]; intros a b Ha Hb Hfuel; [lia|].
  cbn [gcd_fuel]. destruct (b =? 0) eqn:Hz.
  - apply Z.eqb_eq in Hz. subst b. rewrite Z.gcd_0_r, Z.abs_eq; [reflexivity|assumption].
  - apply Z.eqb_neq in Hz.
    assert (Hrem : Z.rem a b = a mod b) by (apply Z.rem_mod_nonneg; lia).
    pose proof (Z.mod_pos_bound a b ltac:(lia)) as Hbound.
    rewrite IH; [|lia|lia|lia].
    rewrite Hrem, (Z.gcd_comm b), Z.gcd_mod by assumption.
    apply Z.gcd_comm.
Qed.

(** X1.  The helper [gcd] of the database module computes the greatest
    common divisor of two non-negative integers. *)
Theorem gcd_is_greatest_common_divisor (a b : Z) (Ha : 0 <= a) (Hb : 0 <= b) :
  gcd a b = Z.gcd a b
  /\ (gcd a b | a) /\ (gcd a b | b)
  /\ forall d, (d | a) -> (d | b) -> (d | gcd a b).
Proof.
  assert (Hgcd : gcd a b = Z.gcd a b).
  { unfold gcd. apply gcd_fuel_gcd; [assumption|assumption|].
    rewrite Nat2Z.inj_succ, Zabs2Nat.id_abs. lia. }
  rewrite Hgcd. split; [reflexivity|]. split; [apply Z.gcd_divide_l|].
  split; [apply Z.gcd_divide_r|]. intros d. apply Z.gcd_greatest.
Qed.

Lemma gcd_is_greatest_common_divisor_witness :
  gcd 4 6 = Z.gcd 4 6 /\ (gcd 4 6 | 4) /\ (gcd 4 6 | 6)
  /\ forall d, (d | 4) -> (d | 6) -> (d | gcd 4 6).
Proof. apply gcd_is_greatest_common_divisor; lia. Defined.

(** A returning loop has just made an iteration that took the [return]. *)
Lemma loop_stops fuel n weights : forall s s',
  loop fuel n weights s = Some s' ->
  exists s0, iteration n weights s0 = (s', true).
Proof.
  induction fuel as [|fuel IH]; intros s s' Hloop; [discriminate|].
  cbn [loop] in Hloop. destruct (iteration n weights s) as [s1 stop] eqn:Hit.
  destruct stop.
  - injection Hloop as <-. exists s. exact Hit.
  - eapply IH, Hloop.
Qed.

(** X2.  Whatever the list, the state and the number of iterations allowed,
    a call of [selectReplica] that returns has stopped at index 0 or 1,
    inside the list, and returns the replica at that index, whose
    configured weight is at least [currentWeight]: a replica beyond the
    two configured weights is never selected. *)
Theorem selectReplica_within_weights {T} (replicas : list T) (fuel : nat)
    (s s' : selector) (r : option T)
    (Hcall : selectReplica fuel replicas s = Some (Returned r, s')) :
  0 <= currentIndex s' < 2
  /\ currentIndex s' < Z.of_nat (length replicas)
  /\ r = replicas !! Z.to_nat (currentIndex s')
  /\ is_Some r
  /\ exists w, REPLICA_WEIGHTS !! Z.to_nat (currentIndex s') = Some w
               /\ currentWeight s' <= w.
Proof.
  unfold selectReplica in Hcall.
  destruct (length replicas =? 0)%nat; [discriminate|].
  destruct (loop fuel _ _ s) as [s1|] eqn:Hloop; [|discriminate].
  injection Hcall as <- <-.
  apply loop_stops in Hloop. destruct Hloop as [s0 Hit].
  unfold iteration in Hit. injection Hit as Hs1 Hstop.
  rewrite <- Hs1 in *. cbn [currentIndex currentWeight] in *.
  set (i := Z.rem (currentIndex s0 + 1) (Z.of_nat (length replicas))) in *.
  unfold weight_reaches, js_index in Hstop.
  destruct (i <? 0) eqn:Hneg; [discriminate|]. apply Z.ltb_ge in Hneg.
  destruct (take (length replicas) REPLICA_WEIGHTS !! Z.to_nat i) as [w|] eqn:Hw;
    [|discriminate].
  apply Z.leb_le in Hstop.
  pose proof (lookup_lt_Some _ _ _ Hw) as Hlt.
  rewrite length_take in Hlt. change (length REPLICA_WEIGHTS) with 2%nat in Hlt.
  assert (Hr : is_Some (replicas !! Z.to_nat i)) by (apply lookup_lt_is_Some; lia).
  split; [lia|]. split; [lia|].
  unfold js_index. destruct (i <? 0) eqn:Hneg'; [lia|].
  split; [reflexivity|]. split; [assumption|].
  exists w. split; [|assumption].
  rewrite lookup_take_lt in Hw by lia. exact Hw.
Qed.

Lemma selectReplica_within_weights_witness :
  0 <= 1 < 2
  /\ 1 < Z.of_nat (length ["read-1"; "read-2"; "read-3"])
  /\ Some "read-2" = ["read-1"; "read-2"; "read-3"] !! Z.to_nat 1
  /\ is_Some (Some "read-2")
  /\ exists w, REPLICA_WEIGHTS !! Z.to_nat 1 = Some w /\ 6 <= w.
Proof.
  exact (selectReplica_within_weights ["read-1"; "read-2"; "read-3"] 2
           initial (Selector 1 6) (Some "read-2") eq_refl).
Defined.

End DbMore.

(** ** More on the user-data caches *)

Module UserDataMore.
Import UserData UserDataHelpers Notions.

Lemma truthy_string_inv sess :
  truthy_string sess = true -> exists userId, sess = Some userId /\ userId <> EmptyString.
Proof.
  destruct sess as [userId|]; [|discriminate]. unfold truthy_string.
  rewrite negb_true_iff. intros H. apply bool_decide_eq_false in H. eauto.
Qed.

Lemma getCachedUserData_Some now userId
    (c : gmap string (ComprehensiveUserData * Z)) d :
  fst (getCachedUserData now userId c) = Some d ->
  exists expiresAt,
    c !! userId = Some (d, expiresAt) /\ now < expiresAt
    /\ snd (getCachedUserData now userId c) = c.
Proof.
  unfold getCachedUserData. destruct (c !! userId) as [[d' e]|]; [|discriminate].
  destruct (now <? e) eqn:H; [|discriminate].
  simpl. intros [= ->]. exists e. split; [reflexivity|]. split; [lia|reflexivity].
Qed.

Lemma getCachedUserData_live now userId
    (c : gmap string (ComprehensiveUserData * Z)) d expiresAt :
  c !! userId = Some (d, expiresAt) -> now < expiresAt ->
  getCachedUserData now userId c = (Some d, c).
Proof.
  intros Hc Hlive. unfold getCachedUserData. rewrite Hc.
  destruct (now <? expiresAt) eqn:H; [reflexivity|lia].
Qed.

Lemma getCachedUserData_absent now userId
    (c : gmap string (ComprehensiveUserData * Z)) :
  c !! userId = None -> getCachedUserData now userId c = (None, c).
Proof. intros Hc. unfold getCachedUserData. rewrite Hc. reflexivity. Qed.

Lemma getCachedUserData_keyed now userId
    (c : gmap string (ComprehensiveUserData * Z)) :
  full_keyed_by_user c -> full_keyed_by_user (snd (getCachedUserData now userId c)).
Proof.
  intros Hc. unfold getCachedUserData.
  destruct (c !! userId) as [[d e]|]; [|exact Hc].
  destruct (now <? e); [exact Hc|].
  intros k d' e' Hk. simpl in Hk. apply lookup_delete_Some in Hk.
  eapply Hc, Hk.
Qed.

Lemma getCachedLightweightAuth_Some now userId
    (c : gmap string (LightweightUserAuth * Z)) d :
  fst (getCachedLightweightAuth now userId c) = Some d ->
  exists expiresAt,
    c !! userId = Some (d, expiresAt) /\ now < expiresAt
    /\ snd (getCachedLightweightAuth now userId c) = c.
Proof.
  unfold getCachedLightweightAuth. destruct (c !! userId) as [[d' e]|]; [|discriminate].
  destruct (now <? e) eqn:H; [|discriminate].
  simpl. intros [= ->]. exists e. split; [reflexivity|]. split; [lia|reflexivity].
Qed.

Lemma getCachedLightweightAuth_live now userId
    (c : gmap string (LightweightUserAuth * Z)) d expiresAt :
  c !! userId = Some (d, expiresAt) -> now < expiresAt ->
  getCachedLightweightAuth now userId c = (Some d, c).
Proof.
  intros Hc Hlive. unfold getCachedLightweightAuth. rewrite Hc.
  destruct (now <? expiresAt) eqn:H; [reflexivity|lia].
Qed.

Lemma getCachedLightweightAuth_absent now userId
    (c : gmap string (LightweightUserAuth * Z)) :
  c !! userId = None -> getCachedLightweightAuth now userId c = (None, c).
Proof. intros Hc. unfold getCachedLightweightAuth. rewrite Hc. reflexivity. Qed.

Lemma getCachedLightweightAuth_keyed now userId
    (c : gmap string (LightweightUserAuth * Z)) :
  light_keyed_by_user c ->
  light_keyed_by_user (snd (getCachedLightweightAuth now userId c)).
Proof.
  intros Hc. unfold getCachedLightweightAuth.
  destruct (c !! userId) as [[d e]|]; [|exact Hc].
  destruct (now <? e); [exact Hc|].
  intros k d' e' Hk. simpl in Hk. apply lookup_delete_Some in Hk.
  eapply Hc, Hk.
Qed.

(** [getReadReplica] only moves the selector. *)
Lemma getReadReplica_caches st o st' :
  getReadReplica st = Some (o, st') ->
  userDataCache st' = userDataCache st
  /\ lightweightAuthCache st' = lightweightAuthCache st.
Proof.
  unfold getReadReplica.
  destruct (Db.selectReplica _ _ _) as [[o' s']|]; [|discriminate].
  intros [= <- <-]. split; reflexivity.
Qed.

Lemma with_lightweightAuthCache_same (st : server) :
  with_lightweightAuthCache st (lightweightAuthCache st) = st.
Proof. destruct st; reflexivity. Qed.

(** The joined rows all carry the row of the user asked for. *)
Lemma user_with_subscriptions_first tables userId userData o rest :
  user_with_subscriptions tables userId = (userData, o) :: rest ->
  userData ∈ users tables /\ user_id userData = userId.
Proof.
  intros Hrows.
  assert (Hin : (userData, o) ∈ user_with_subscriptions tables userId)
    by (rewrite Hrows; left).
  apply UserDataFacts.elem_of_user_with_subscriptions in Hin. tauto.
Qed.

(** What a call of a signed-in user computes when it finds no live
    entry and the database answers. *)
Lemma getComprehensiveUserData_computed e st userId tables :
  session_user e = Returned (Some userId) ->
  userId <> EmptyString ->
  fst (getCachedUserData (now_lookup e) userId (userDataCache st)) = None ->
  db e = Returned tables ->
  Db.reachable (selector st) ->
  exists sel,
    Db.reachable sel
    /\ getComprehensiveUserData e st
       = Some
           match user_with_subscriptions tables userId with
           | [] =>
               (None,
                Server (snd (getCachedUserData (now_lookup e) userId (userDataCache st)))
                  (lightweightAuthCache st) sel)
           | (userData, o) :: rest =>
               let d := build_comprehensive (now_status e) userData
                          ((userData, o) :: rest) in
               (Some d,
                Server
                  (setCachedUserData (now_store e) userId d
                     (snd (getCachedUserData (now_lookup e) userId (userDataCache st))))
                  (lightweightAuthCache st) sel)
           end.
Proof.
  intros Hsess Hne Hmiss Hdb Hsel. unfold getComprehensiveUserData.
  rewrite Hsess, (UserDataFacts.truthy_string_Some _ Hne). simpl.
  destruct (getCachedUserData _ userId _) as [cached c1]. simpl in Hmiss. subst cached.
  simpl.
  destruct (UserDataFacts.getReadReplica_returns (with_userDataCache st c1) Hsel)
    as (r & st2 & Hrep & Hfull & Hlight & Hsel2).
  rewrite Hrep, Hdb. exists (selector st2). split; [exact Hsel2|].
  simpl in Hfull, Hlight.
  destruct (user_with_subscriptions tables userId) as [|[userData o] rest].
  - destruct st2 as [c l s]. simpl in *. subst. reflexivity.
  - destruct st2 as [c l s]. simpl in *. subst. reflexivity.
Qed.

Lemma getLightweightUserAuth_computed e st userId tables :
  session_user e = Returned (Some userId) ->
  userId <> EmptyString ->
  fst (getCachedLightweightAuth (now_lookup_light e) userId
         (lightweightAuthCache st)) = None ->
  fst (getCachedUserData (now_lookup e) userId (userDataCache st)) = None ->
  db e = Returned tables ->
  Db.reachable (selector st) ->
  exists sel,
    Db.reachable sel
    /\ getLightweightUserAuth e st
       = Some
           match user_with_subscriptions tables userId with
           | [] =>
               (None,
                Server (snd (getCachedUserData (now_lookup e) userId (userDataCache st)))
                  (snd (getCachedLightweightAuth (now_lookup_light e) userId
                          (lightweightAuthCache st)))
                  sel)
           | (first, o) :: rest =>
               let l :=
                 MkLightweightUserAuth (user_id first) (user_email first)
                   (existsb
                      (fun row : user_row * option subscription_row =>
                         bool_decide (sub_status <$> snd row = Some "active"))
                      ((first, o) :: rest)) in
               (Some l,
                Server (snd (getCachedUserData (now_lookup e) userId (userDataCache st)))
                  (setCachedLightweightAuth (now_store_light e) userId l
                     (snd (getCachedLightweightAuth (now_lookup_light e) userId
                             (lightweightAuthCache st))))
                  sel)
           end.
Proof.
  intros Hsess Hne Hmiss_light Hmiss Hdb Hsel. unfold getLightweightUserAuth.
  rewrite Hsess, (UserDataFacts.truthy_string_Some _ Hne). simpl.
  destruct (getCachedLightweightAuth _ userId _) as [cached l1].
  simpl in Hmiss_light. subst cached. simpl.
  destruct (getCachedUserData _ userId _) as [fullCached c1].
  simpl in Hmiss. subst fullCached. simpl.
  destruct (UserDataFacts.getReadReplica_returns
              (with_userDataCache (with_lightweightAuthCache st l1) c1) Hsel)
    as (r & st3 & Hrep & Hfull & Hlight & Hsel3).
  rewrite Hrep, Hdb. exists (selector st3). split; [exact Hsel3|].
  simpl in Hfull, Hlight.
  destruct (user_with_subscriptions tables userId) as [|[first o] rest].
  - destruct st3 as [c l s]. simpl in *. subst. reflexivity.
  - destruct st3 as [c l s]. simpl in *. subst. reflexivity.
Qed.

(** X3.  An entry written by [setCachedLightweightAuth] at time [stored] is
    given back by [getCachedLightweightAuth] at time [now] exactly when
    less than two minutes went by; otherwise the call answers [null]
    and deletes the entry.  Entries of other users are neither read nor
    changed. *)
Theorem getCachedLightweightAuth_ttl
    (cache : gmap string (LightweightUserAuth * Z))
    (userId : string) (data : LightweightUserAuth) (stored now : Z) :
  let cache1 := setCachedLightweightAuth stored userId data cache in
  LIGHTWEIGHT_CACHE_TTL_MS = 120000
  /\ getCachedLightweightAuth now userId cache1
     = (if now - stored <? LIGHTWEIGHT_CACHE_TTL_MS then (Some data, cache1)
        else (None, delete userId cache1))
  /\ (forall other, other <> userId ->
        cache1 !! other = cache !! other
        /\ snd (getCachedLightweightAuth now userId cache1) !! other = cache !! other)
  /\ (forall (c : gmap string (LightweightUserAuth * Z)) d,
        fst (getCachedLightweightAuth now userId c) = Some d ->
        exists expiresAt, c !! userId = Some (d, expiresAt) /\ now < expiresAt).
Proof.
  intros cache1.
  assert (Hget : getCachedLightweightAuth now userId cache1
                 = (if now - stored <? LIGHTWEIGHT_CACHE_TTL_MS then (Some data, cache1)
                    else (None, delete userId cache1))).
  { unfold getCachedLightweightAuth, cache1, setCachedLightweightAuth.
    rewrite lookup_insert_eq.
    destruct (now <? stored + LIGHTWEIGHT_CACHE_TTL_MS) eqn:H1,
             (now - stored <? LIGHTWEIGHT_CACHE_TTL_MS) eqn:H2; try reflexivity; lia. }
  split; [reflexivity|]. split; [exact Hget|]. split.
  - intros other Hother.
    assert (Hother1 : cache1 !! other = cache !! other)
      by (unfold cache1, setCachedLightweightAuth; apply lookup_insert_ne; congruence).
    split; [exact Hother1|]. rewrite Hget.
    destruct (now - stored <? LIGHTWEIGHT_CACHE_TTL_MS); simpl; [exact Hother1|].
    rewrite lookup_delete_ne by congruence. exact Hother1.
  - intros c d Hd. apply getCachedLightweightAuth_Some in Hd.
    destruct Hd as (e & Hc & Hlive & _). eauto.
Qed.

Lemma getCachedLightweightAuth_ttl_witness :
  exists expiresAt,
    setCachedLightweightAuth 0 "u1" Fixtures.alice_light ∅ !! "u1"
    = Some (Fixtures.alice_light, expiresAt)
    /\ 1000 < expiresAt.
Proof.
  destruct (getCachedLightweightAuth_ttl ∅ "u1" Fixtures.alice_light 0 1000)
    as (_ & _ & _ & Hsome).
  apply Hsome. reflexivity.
Defined.

(** A call of a signed-in user that finds a live lightweight entry
    answers with it and changes nothing. *)
Lemma getLightweightUserAuth_hit (e : env) (st : server) userId l expiresAt :
  session_user e = Returned (Some userId) ->
  userId <> EmptyString ->
  lightweightAuthCache st !! userId = Some (l, expiresAt) ->
  now_lookup_light e < expiresAt ->
  getLightweightUserAuth e st = Some (Some l, st).
Proof.
  intros Hsess Hne Hentry Hlive. unfold getLightweightUserAuth.
  rewrite Hsess, (UserDataFacts.truthy_string_Some _ Hne). simpl.
  rewrite (getCachedLightweightAuth_live _ _ _ _ _ Hentry Hlive).
  rewrite with_lightweightAuthCache_same. reflexivity.
Qed.

(** A call that misses the lightweight cache and answers with a record
    has stored it, to expire two minutes after the store. *)
Lemma getLightweightUserAuth_miss_stores (e : env) (st st' : server) userId l :
  session_user e = Returned (Some userId) ->
  userId <> EmptyString ->
  fst (getCachedLightweightAuth (now_lookup_light e) userId
         (lightweightAuthCache st)) = None ->
  getLightweightUserAuth e st = Some (Some l, st') ->
  lightweightAuthCache st' !! userId
  = Some (l, now_store_light e + LIGHTWEIGHT_CACHE_TTL_MS).
Proof.
  intros Hsess Hne Hmiss. unfold getLightweightUserAuth.
  rewrite Hsess, (UserDataFacts.truthy_string_Some _ Hne). simpl.
  destruct (getCachedLightweightAuth _ userId _) as [cached l1].
  simpl in Hmiss. subst cached. simpl.
  destruct (getCachedUserData _ userId _) as [[full|] c1]; simpl.
  - intros [= <- <-]. simpl. unfold setCachedLightweightAuth. apply lookup_insert_eq.
  - destruct (getReadReplica _) as [[[[r|]|msg] st3]|]; try discriminate.
    destruct (db e) as [tables|]; [|discriminate].
    destruct (user_with_subscriptions tables userId) as [|[first o] rows];
      [discriminate|].
    intros [= <- <-]. simpl. unfold setCachedLightweightAuth. apply lookup_insert_eq.
Qed.

(** X4.  [getLightweightUserAuth] reads through its own cache.  A call of a
    signed-in user that finds no live lightweight entry and answers
    with a record leaves it in the cache for two minutes; a later call
    for the same user within that time, while the entry is still the
    one stored, answers with the same record and changes nothing,
    whatever the database or the full cache hold. *)
Theorem getLightweightUserAuth_read_through
    (e1 e2 : env) (st0 st1 st2 : server) (userId : string)
    (l : LightweightUserAuth)
    (Hsess1 : session_user e1 = Returned (Some userId))
    (Hsess2 : session_user e2 = Returned (Some userId))
    (Hne : userId <> EmptyString)
    (Hmiss : fst (getCachedLightweightAuth (now_lookup_light e1) userId
                    (lightweightAuthCache st0)) = None)
    (Hcall : getLightweightUserAuth e1 st0 = Some (Some l, st1))
    (Hkept : lightweightAuthCache st2 !! userId = lightweightAuthCache st1 !! userId)
    (Hbefore : now_lookup_light e2 - now_store_light e1 < LIGHTWEIGHT_CACHE_TTL_MS) :
  lightweightAuthCache st1 !! userId
  = Some (l, now_store_light e1 + LIGHTWEIGHT_CACHE_TTL_MS)
  /\ getLightweightUserAuth e2 st2 = Some (Some l, st2).
Proof.
  pose proof (getLightweightUserAuth_miss_stores e1 st0 st1 userId l
                Hsess1 Hne Hmiss Hcall) as Hstored.
  split; [exact Hstored|].
  apply getLightweightUserAuth_hit
    with (userId := userId) (expiresAt := now_store_light e1 + LIGHTWEIGHT_CACHE_TTL_MS).
  - exact Hsess2.
  - exact Hne.
  - rewrite Hkept. exact Hstored.
  - lia.
Qed.

Lemma getLightweightUserAuth_read_through_witness :
  lightweightAuthCache Fixtures.served_light !! "u1"
  = Some (Fixtures.alice_light, 5002 + LIGHTWEIGHT_CACHE_TTL_MS)
  /\ getLightweightUserAuth Samples.later_outage Fixtures.served_light
     = Some (Some Fixtures.alice_light, Fixtures.served_light).
Proof.
  apply (getLightweightUserAuth_read_through
           Samples.request Samples.later_outage
           Samples.fresh Fixtures.served_light Fixtures.served_light "u1"
           Fixtures.alice_light).
  - reflexivity.
  - reflexivity.
  - discriminate.
  - reflexivity.
  - vm_compute. reflexivity.
  - reflexivity.
  - vm_compute. reflexivity.
Defined.

(** X5.  When the lightweight cache has no live entry but the full cache
    has one, [getLightweightUserAuth] answers with the id, e-mail and
    Pro flag of that entry and files them in the lightweight cache for
    two minutes from now, without going to the database: the full
    cache and the replica selector are left as they are. *)
Theorem getLightweightUserAuth_reuses_full_cache
    (e : env) (st : server) (userId : string)
    (d : ComprehensiveUserData) (expiresAt : Z)
    (Hsess : session_user e = Returned (Some userId))
    (Hne : userId <> EmptyString)
    (Hmiss : fst (getCachedLightweightAuth (now_lookup_light e) userId
                    (lightweightAuthCache st)) = None)
    (Hfull : userDataCache st !! userId = Some (d, expiresAt))
    (Hlive : now_lookup e < expiresAt) :
  exists st',
    getLightweightUserAuth e st = Some (Some (lightweight_of d), st')
    /\ userDataCache st' = userDataCache st
    /\ selector st' = selector st
    /\ lightweightAuthCache st' !! userId
       = Some (lightweight_of d, now_store_light e + LIGHTWEIGHT_CACHE_TTL_MS)
    /\ forall other, other <> userId ->
         lightweightAuthCache st' !! other = lightweightAuthCache st !! other.
Proof.
  unfold getLightweightUserAuth.
  rewrite Hsess, (UserDataFacts.truthy_string_Some _ Hne). simpl.
  assert (Hother : forall other, other <> userId ->
            snd (getCachedLightweightAuth (now_lookup_light e) userId
                   (lightweightAuthCache st)) !! other
            = lightweightAuthCache st !! other).
  { intros other Hother. unfold getCachedLightweightAuth.
    destruct (lightweightAuthCache st !! userId) as [[l0 e0]|]; [|reflexivity].
    destruct (now_lookup_light e <? e0); [reflexivity|].
    simpl. apply lookup_delete_ne. congruence. }
  destruct (getCachedLightweightAuth _ userId _) as [cached l1].
  simpl in Hmiss. subst cached. simpl in *.
  rewrite (getCachedUserData_live _ _ _ _ _ Hfull Hlive). simpl.
  eexists. split; [reflexivity|]. simpl.
  split; [reflexivity|]. split; [reflexivity|]. split.
  - unfold setCachedLightweightAuth. apply lookup_insert_eq.
  - intros other Hne'. unfold setCachedLightweightAuth.
    rewrite lookup_insert_ne by congruence. apply Hother, Hne'.
Qed.

Lemma getLightweightUserAuth_reuses_full_cache_witness :
  exists st',
    getLightweightUserAuth Samples.later_outage Samples.served
    = Some (Some (lightweight_of Samples.alice_data), st')
    /\ userDataCache st' = userDataCache Samples.served
    /\ selector st' = selector Samples.served
    /\ lightweightAuthCache st' !! "u1"
       = Some (lightweight_of Samples.alice_data, 65002 + LIGHTWEIGHT_CACHE_TTL_MS)
    /\ forall other, other <> "u1" ->
         lightweightAuthCache st' !! other
         = lightweightAuthCache Samples.served !! other.
Proof.
  apply (getLightweightUserAuth_reuses_full_cache
           Samples.later_outage Samples.served "u1" Samples.alice_data
           (5002 + CACHE_TTL_MS)).
  - reflexivity.
  - discriminate.
  - reflexivity.
  - vm_compute. reflexivity.
  - vm_compute. reflexivity.
Defined.

Lemma lightweight_of_build now userData rows :
  lightweight_of (build_comprehensive now userData rows)
  = MkLightweightUserAuth (user_id userData) (user_email userData)
      (existsb
         (fun row : user_row * option subscription_row =>
            bool_decide (sub_status <$> snd row = Some "active"))
         rows).
Proof.
  unfold lightweight_of, build_comprehensive. cbn [id email isProUser]. f_equal.
  apply eq_true_iff_eq.
  rewrite bool_decide_eq_true, UserDataFacts.existsb_active.
  apply UserDataFacts.activeStripeSubscription_is_Some.
Qed.

(** X6.  After [clearUserDataCache(userId)] neither cache has an entry for
    the user, the entries of other users are as before, and the next
    [getComprehensiveUserData] and [getLightweightUserAuth] of that user
    answer from the tables as they are now: [null] when the user has no
    row, the freshly built record otherwise. *)
Theorem clearUserDataCache_forces_recompute
    (e : env) (st : server) (userId : string) (tables : database)
    (Hsess : session_user e = Returned (Some userId))
    (Hne : userId <> EmptyString)
    (Hdb : db e = Returned tables)
    (Hsel : Db.reachable (selector st)) :
  let cleared := clearUserDataCache userId st in
  userDataCache cleared !! userId = None
  /\ lightweightAuthCache cleared !! userId = None
  /\ (forall other, other <> userId ->
        userDataCache cleared !! other = userDataCache st !! other
        /\ lightweightAuthCache cleared !! other = lightweightAuthCache st !! other)
  /\ (exists st',
        getComprehensiveUserData e cleared
        = Some (match user_with_subscriptions tables userId with
                | [] => None
                | (userData, o) :: rest =>
                    Some (build_comprehensive (now_status e) userData
                            ((userData, o) :: rest))
                end, st'))
  /\ (exists st',
        getLightweightUserAuth e cleared
        = Some (match user_with_subscriptions tables userId with
                | [] => None
                | (userData, o) :: rest =>
                    Some (lightweight_of
                            (build_comprehensive (now_status e) userData
                               ((userData, o) :: rest)))
                end, st')).
Proof.
  intros cleared.
  assert (Hfull : userDataCache cleared !! userId = None) by apply lookup_delete_eq.
  assert (Hlight : lightweightAuthCache cleared !! userId = None)
    by apply lookup_delete_eq.
  split; [exact Hfull|]. split; [exact Hlight|]. split; [|split].
  - intros other Hother. split; apply lookup_delete_ne; congruence.
  - destruct (getComprehensiveUserData_computed e cleared userId tables)
      as (sel & _ & ->); try assumption.
    { rewrite (getCachedUserData_absent _ _ _ Hfull). reflexivity. }
    destruct (user_with_subscriptions tables userId) as [|[userData o] rest];
      eexists; reflexivity.
  - destruct (getLightweightUserAuth_computed e cleared userId tables)
      as (sel & _ & ->); try assumption.
    { rewrite (getCachedLightweightAuth_absent _ _ _ Hlight). reflexivity. }
    { rewrite (getCachedUserData_absent _ _ _ Hfull). reflexivity. }
    destruct (user_with_subscriptions tables userId) as [|[userData o] rest];
      [eexists; reflexivity|].
    rewrite lightweight_of_build. eexists. reflexivity.
Qed.

Lemma clearUserDataCache_forces_recompute_witness :
  exists st',
    getComprehensiveUserData Fixtures.later_request
      (clearUserDataCache "u1" Samples.served)
    = Some (Some (build_comprehensive 65001 Samples.alice
                    [(Samples.alice,
                      Some (SubscriptionRow "sub_1" "pro" "canceled" "u1"
                              (Some 1000) (Some 900000) (Some false)
                              None (Some 60000) None))]), st').
Proof.
  destruct (clearUserDataCache_forces_recompute
              Fixtures.later_request Samples.served "u1" Fixtures.canceled_tables)
    as (_ & _ & _ & Hfull & _).
  - reflexivity.
  - discriminate.
  - reflexivity.
  - eapply (Db.reach_call ["read-1"; "read-2"] 2 Db.initial);
      [apply Db.reach_initial|simpl; lia|reflexivity].
  - exact Hfull.
Defined.

(** X7.  When both functions compute their answer from the same tables, the
    lightweight record is the id, e-mail and Pro flag of the
    comprehensive one (and both are [null] together). *)
Theorem lightweight_agrees_with_comprehensive
    (e : env) (st_full st_light : server) (userId : string) (tables : database)
    (Hsess : session_user e = Returned (Some userId))
    (Hne : userId <> EmptyString)
    (Hdb : db e = Returned tables)
    (Hsel_full : Db.reachable (selector st_full))
    (Hsel_light : Db.reachable (selector st_light))
    (Hmiss_full : fst (getCachedUserData (now_lookup e) userId
                         (userDataCache st_full)) = None)
    (Hmiss_light : fst (getCachedLightweightAuth (now_lookup_light e) userId
                          (lightweightAuthCache st_light)) = None)
    (Hmiss_light_full : fst (getCachedUserData (now_lookup e) userId
                               (userDataCache st_light)) = None) :
  exists r st_full' st_light',
    getComprehensiveUserData e st_full = Some (r, st_full')
    /\ getLightweightUserAuth e st_light = Some (lightweight_of <$> r, st_light').
Proof.
  destruct (getComprehensiveUserData_computed e st_full userId tables)
    as (sel1 & _ & ->); try assumption.
  destruct (getLightweightUserAuth_computed e st_light userId tables)
    as (sel2 & _ & ->); try assumption.
  destruct (user_with_subscriptions tables userId) as [|[userData o] rest].
  - eexists _, _, _. split; reflexivity.
  - eexists _, _, _. split; [reflexivity|].
    cbn [fmap option_fmap option_map]. rewrite lightweight_of_build. reflexivity.
Qed.

Lemma lightweight_agrees_with_comprehensive_witness :
  exists r st_full' st_light',
    getComprehensiveUserData Samples.request Samples.fresh = Some (r, st_full')
    /\ getLightweightUserAuth Samples.request Samples.fresh
       = Some (lightweight_of <$> r, st_light').
Proof.
  apply (lightweight_agrees_with_comprehensive
           Samples.request Samples.fresh Samples.fresh "u1" Samples.tables);
    try reflexivity; try discriminate; apply Db.reach_initial.
Defined.

Lemma ends_later_first_asym a b :
  ends_later_first a b = true -> ends_later_first b a = false.
Proof. unfold ends_later_first. rewrite Z.ltb_lt, Z.ltb_ge. lia. Qed.

Lemma ends_later_first_trans a b c :
  ends_later_first a b = false ->
  ends_later_first b c = false ->
  ends_later_first a c = false.
Proof. unfold ends_later_first. rewrite !Z.ltb_ge. lia. Qed.

(** The first element after sorting ends no earlier than any other. *)
Lemma head_sorted_ends_latest (l : list StripeSubscription) x :
  head (js_sort ends_later_first l) = Some x ->
  x ∈ l
  /\ forall y, y ∈ l -> date_time (ss_periodEnd y) <= date_time (ss_periodEnd x).
Proof.
  intros Hhead.
  pose proof (js_sort_sorted ends_later_first
                ends_later_first_asym ends_later_first_trans l) as Hsorted.
  pose proof (fun y => elem_of_js_sort ends_later_first y l) as Helem.
  destruct (js_sort ends_later_first l) as [|x' rest]; [discriminate|].
  injection Hhead as ->. split; [apply Helem; left|].
  intros y Hy. apply Helem in Hy. apply StronglySorted_inv in Hsorted.
  destruct Hsorted as [_ Hall]. apply elem_of_cons in Hy. destruct Hy as [->|Hy]; [lia|].
  rewrite Forall_forall in Hall. specialize (Hall y Hy).
  unfold ends_later_first in Hall. apply Z.ltb_ge in Hall. exact Hall.
Qed.

Lemma elem_of_stripeSubscriptions_of tables userId ss :
  user_with_subscriptions tables userId <> [] ->
  ss ∈ stripeSubscriptions_of (user_with_subscriptions tables userId)
  <-> exists s, subscription_row_of tables userId s /\ ss = subscription_of_row s.
Proof.
  intros Hrows. unfold stripeSubscriptions_of, subscription_row_of.
  rewrite list_elem_of_omap. split.
  - intros ([u o] & Hin & Hconv). simpl in Hconv.
    destruct o as [s|]; [|discriminate]. injection Hconv as <-.
    apply UserDataFacts.elem_of_user_with_subscriptions in Hin.
    exists s. split; [tauto|reflexivity].
  - intros (s & [Hs Href] & ->).
    destruct (user_with_subscriptions tables userId) as [|[u o] rest] eqn:E;
      [congruence|].
    destruct (user_with_subscriptions_first _ _ _ _ _ E) as [Hu Hid].
    exists (u, Some s). split; [|reflexivity].
    rewrite <- E. apply UserDataFacts.elem_of_user_with_subscriptions. auto.
Qed.

(** A call that misses and answers with data built it from the rows of
    the user. *)
Lemma getComprehensiveUserData_miss_inv (e : env) (st st' : server) userId tables d :
  session_user e = Returned (Some userId) ->
  userId <> EmptyString ->
  fst (getCachedUserData (now_lookup e) userId (userDataCache st)) = None ->
  db e = Returned tables ->
  getComprehensiveUserData e st = Some (Some d, st') ->
  exists userData,
    user_id userData = userId
    /\ user_with_subscriptions tables userId <> []
    /\ d = build_comprehensive (now_status e) userData
             (user_with_subscriptions tables userId).
Proof.
  intros Hsess Hne Hmiss Hdb. unfold getComprehensiveUserData.
  rewrite Hsess, (UserDataFacts.truthy_string_Some _ Hne). simpl.
  destruct (getCachedUserData _ userId _) as [cached c1]. simpl in Hmiss. subst cached.
  destruct (getReadReplica _) as [[[[r|]|msg] st2]|]; try discriminate.
  rewrite Hdb.
  destruct (user_with_subscriptions tables userId) as [|[userData o] rows] eqn:E;
    [discriminate|].
  intros [= <- <-]. exists userData.
  split; [eapply user_with_subscriptions_first, E|]. split; [discriminate|reflexivity].
Qed.

Lemma isProUser_status_active now userData rows :
  isProUser (build_comprehensive now userData rows) = true
  <-> subscriptionStatus (build_comprehensive now userData rows) = active.
Proof.
  unfold build_comprehensive. cbn [isProUser subscriptionStatus].
  unfold subscriptionStatus_of. rewrite bool_decide_eq_true.
  destruct (activeStripeSubscription_of (stripeSubscriptions_of rows)) as [ss|].
  - split; [reflexivity|eauto].
  - split; [intros [? ?]; discriminate|].
    destruct (head _) as [latest|]; [|discriminate].
    destruct (bool_decide _); [discriminate|].
    destruct (_ <? _); discriminate.
Qed.

(** X8.  In the record that [getComprehensiveUserData] computes for a user,
    the Pro flag, the status ['active'] and the presence of
    [stripeSubscription] go together, and [stripeSubscription] is an
    active subscription row of that user whose period ends no earlier
    than that of any other active row of the user. *)
Theorem comprehensive_data_coherent
    (e : env) (st st' : server) (userId : string) (tables : database)
    (d : ComprehensiveUserData)
    (Hsess : session_user e = Returned (Some userId))
    (Hne : userId <> EmptyString)
    (Hmiss : fst (getCachedUserData (now_lookup e) userId (userDataCache st)) = None)
    (Hdb : db e = Returned tables)
    (Hcall : getComprehensiveUserData e st = Some (Some d, st')) :
  id d = userId
  /\ (isProUser d = true <-> subscriptionStatus d = active)
  /\ (isProUser d = true <-> is_Some (stripeSubscription d))
  /\ forall ss, stripeSubscription d = Some ss ->
       ss_status ss = "active"
       /\ (exists s, subscription_row_of tables userId s /\ ss = subscription_of_row s)
       /\ forall s', subscription_row_of tables userId s' ->
            sub_status s' = "active" ->
            date_time (sub_periodEnd s') <= date_time (ss_periodEnd ss).
Proof.
  destruct (getComprehensiveUserData_miss_inv e st st' userId tables d
              Hsess Hne Hmiss Hdb Hcall) as (userData & Hid & Hrows & ->).
  split; [exact Hid|]. split; [apply isProUser_status_active|].
  split; [unfold build_comprehensive; cbn [isProUser stripeSubscription];
          apply bool_decide_eq_true|].
  intros ss Hss. unfold build_comprehensive in Hss. cbn [stripeSubscription] in Hss.
  unfold activeStripeSubscription_of in Hss.
  apply head_sorted_ends_latest in Hss. destruct Hss as [Hin Hlatest].
  apply list_elem_of_filter in Hin. destruct Hin as [Hactive Hin].
  split; [exact Hactive|]. split.
  - apply (elem_of_stripeSubscriptions_of tables userId ss Hrows), Hin.
  - intros s' Hs' Hactive'.
    apply (Hlatest (subscription_of_row s')).
    apply list_elem_of_filter. split; [exact Hactive'|].
    apply (elem_of_stripeSubscriptions_of tables userId _ Hrows). eauto.
Qed.

Lemma comprehensive_data_coherent_witness :
  id Samples.alice_data = "u1"
  /\ (isProUser Samples.alice_data = true
      <-> subscriptionStatus Samples.alice_data = active)
  /\ (isProUser Samples.alice_data = true
      <-> is_Some (stripeSubscription Samples.alice_data))
  /\ forall ss, stripeSubscription Samples.alice_data = Some ss ->
       ss_status ss = "active"
       /\ (exists s, subscription_row_of Samples.tables "u1" s
                     /\ ss = subscription_of_row s)
       /\ forall s', subscription_row_of Samples.tables "u1" s' ->
            sub_status s' = "active" ->
            date_time (sub_periodEnd s') <= date_time (ss_periodEnd ss).
Proof.
  apply (comprehensive_data_coherent
           Samples.request Samples.fresh Samples.served "u1" Samples.tables).
  - reflexivity.
  - discriminate.
  - reflexivity.
  - reflexivity.
  - vm_compute. reflexivity.
Defined.

(** X9.  The status label of the computed record is backed by the rows of
    the user: without any subscription row the record says not Pro,
    ['none'] and no [stripeSubscription]; ['canceled'] and ['expired']
    are only said when no row is active and the row whose period ends
    last is canceled, respectively not canceled and past its period end
    (a missing period end counting as the epoch). *)
Theorem subscriptionStatus_backed_by_rows
    (e : env) (st st' : server) (userId : string) (tables : database)
    (d : ComprehensiveUserData)
    (Hsess : session_user e = Returned (Some userId))
    (Hne : userId <> EmptyString)
    (Hmiss : fst (getCachedUserData (now_lookup e) userId (userDataCache st)) = None)
    (Hdb : db e = Returned tables)
    (Hcall : getComprehensiveUserData e st = Some (Some d, st')) :
  ((forall s, ~ subscription_row_of tables userId s) ->
   isProUser d = false /\ subscriptionStatus d = none /\ stripeSubscription d = None)
  /\ (subscriptionStatus d <> active ->
      ~ Vocabulary.has_active_subscription tables userId)
  /\ (subscriptionStatus d = canceled \/ subscriptionStatus d = expired ->
      exists s,
        subscription_row_of tables userId s
        /\ (forall s', subscription_row_of tables userId s' ->
              date_time (sub_periodEnd s') <= date_time (sub_periodEnd s))
        /\ (subscriptionStatus d = canceled -> sub_status s = "canceled")
        /\ (subscriptionStatus d = expired ->
            sub_status s <> "canceled"
            /\ date_time (sub_periodEnd s) < now_status e)).
Proof.
  destruct (getComprehensiveUserData_miss_inv e st st' userId tables d
              Hsess Hne Hmiss Hdb Hcall) as (userData & Hid & Hrows & ->).
  pose proof (fun ss => elem_of_stripeSubscriptions_of tables userId ss Hrows) as Helem.
  split; [|split].
  - intros Hnone.
    assert (Hnil : stripeSubscriptions_of (user_with_subscriptions tables userId) = []).
    { destruct (stripeSubscriptions_of _) as [|ss l]; [reflexivity|].
      exfalso. destruct (proj1 (Helem ss)) as (s & Hs & _); [left|].
      exact (Hnone s Hs). }
    unfold build_comprehensive. cbn [isProUser subscriptionStatus stripeSubscription].
    unfold subscriptionStatus_of. rewrite Hnil. repeat split.
  - intros Hnot Hactive. apply Hnot, isProUser_status_active.
    apply UserDataFacts.isProUser_build.
    apply UserDataFacts.joined_rows_active; assumption.
  - unfold build_comprehensive. cbn [subscriptionStatus]. unfold subscriptionStatus_of.
    destruct (activeStripeSubscription_of _) as [ss|];
      [intros [H|H]; discriminate|].
    destruct (head (js_sort ends_later_first _)) as [latest|] eqn:Hhead;
      [|intros [H|H]; discriminate].
    apply head_sorted_ends_latest in Hhead. destruct Hhead as [Hin Hlatest].
    apply Helem in Hin. destruct Hin as (s & Hs & ->).
    intros _. exists s. split; [exact Hs|]. split.
    { intros s' Hs'. apply (Hlatest (subscription_of_row s')), Helem. eauto. }
    cbn [subscription_of_row ss_status ss_periodEnd].
    destruct (bool_decide (sub_status s = "canceled")) eqn:Hc.
    + apply bool_decide_eq_true in Hc. split; [intros _; exact Hc|discriminate].
    + apply bool_decide_eq_false in Hc. split.
      * destruct (_ <? _); discriminate.
      * destruct (date_time (sub_periodEnd s) <? now_status e) eqn:Hexp;
          [|discriminate].
        intros _. split; [exact Hc|lia].
Qed.

Lemma subscriptionStatus_backed_by_rows_witness :
  exists s,
    subscription_row_of Fixtures.canceled_tables "u1" s
    /\ (forall s', subscription_row_of Fixtures.canceled_tables "u1" s' ->
          date_time (sub_periodEnd s') <= date_time (sub_periodEnd s))
    /\ (canceled = canceled -> sub_status s = "canceled")
    /\ (canceled = expired ->
        sub_status s <> "canceled" /\ date_time (sub_periodEnd s) < 65001).
Proof.
  destruct (subscriptionStatus_backed_by_rows
              Fixtures.later_request Samples.fresh
              (Server
                 (setCachedUserData 65002 "u1"
                    (build_comprehensive 65001 Samples.alice
                       (user_with_subscriptions Fixtures.canceled_tables "u1")) ∅)
                 ∅ (Db.Selector 1 6))
              "u1" Fixtures.canceled_tables
              (build_comprehensive 65001 Samples.alice
                 (user_with_subscriptions Fixtures.canceled_tables "u1")))
    as (_ & _ & Hlabel).
  - reflexivity.
  - discriminate.
  - reflexivity.
  - reflexivity.
  - vm_compute. reflexivity.
  - apply Hlabel. left. reflexivity.
Defined.

Lemma setCachedUserData_keyed now userId d
    (c : gmap string (ComprehensiveUserData * Z)) :
  id d = userId -> full_keyed_by_user c ->
  full_keyed_by_user (setCachedUserData now userId d c).
Proof.
  intros Hid Hc k d' e' Hk. unfold setCachedUserData in Hk.
  apply lookup_insert_Some in Hk. destruct Hk as [[<- [= <- _]]|[_ Hk]].
  - exact Hid.
  - eapply Hc, Hk.
Qed.

Lemma setCachedLightweightAuth_keyed now userId l
    (c : gmap string (LightweightUserAuth * Z)) :
  la_userId l = userId -> light_keyed_by_user c ->
  light_keyed_by_user (setCachedLightweightAuth now userId l c).
Proof.
  intros Hid Hc k d' e' Hk. unfold setCachedLightweightAuth in Hk.
  apply lookup_insert_Some in Hk. destruct Hk as [[<- [= <- _]]|[_ Hk]].
  - exact Hid.
  - eapply Hc, Hk.
Qed.

Lemma getComprehensiveUserData_keyed e st r st' :
  caches_keyed_by_user st ->
  getComprehensiveUserData e st = Some (r, st') ->
  caches_keyed_by_user st'
  /\ forall d, r = Some d -> session_user e = Returned (Some (id d)).
Proof.
  intros [Hfull Hlight]. unfold getComprehensiveUserData.
  destruct (session_user e) as [sess|msg];
    [|intros [= <- <-]; split; [split; assumption|discriminate]].
  destruct (truthy_string sess) eqn:Htruthy; simpl;
    [|intros [= <- <-]; split; [split; assumption|discriminate]].
  apply truthy_string_inv in Htruthy. destruct Htruthy as (userId & -> & Hne).
  simpl.
  pose proof (getCachedUserData_keyed (now_lookup e) userId _ Hfull) as Hc1.
  pose proof (getCachedUserData_Some (now_lookup e) userId (userDataCache st)) as Hhit.
  destruct (getCachedUserData _ userId _) as [[cached|] c1]; simpl in *.
  - intros [= <- <-]. split; [split; assumption|].
    intros d [= <-]. destruct (Hhit cached eq_refl) as (e0 & Hentry & _).
    rewrite (Hfull _ _ _ Hentry). reflexivity.
  - destruct (getReadReplica _) as [[o st2]|] eqn:Hrep; [|discriminate].
    apply getReadReplica_caches in Hrep. simpl in Hrep. destruct Hrep as [Hc2 Hl2].
    assert (Hkeyed2 : caches_keyed_by_user st2)
      by (split; [rewrite Hc2|rewrite Hl2]; assumption).
    destruct o as [[rep|]|msg];
      try (intros [= <- <-]; split; [exact Hkeyed2|discriminate]).
    destruct (db e) as [tables|];
      [|intros [= <- <-]; split; [exact Hkeyed2|discriminate]].
    destruct (user_with_subscriptions tables userId) as [|[userData o] rows] eqn:E;
      [intros [= <- <-]; split; [exact Hkeyed2|discriminate]|].
    destruct (user_with_subscriptions_first _ _ _ _ _ E) as [_ Hid].
    intros [= <- <-]. split.
    + split; simpl; [|rewrite Hl2; assumption].
      apply setCachedUserData_keyed; [exact Hid|rewrite Hc2; assumption].
    + intros d [= <-]. simpl. rewrite Hid. reflexivity.
Qed.

Lemma getLightweightUserAuth_keyed e st r st' :
  caches_keyed_by_user st ->
  getLightweightUserAuth e st = Some (r, st') ->
  caches_keyed_by_user st'
  /\ forall l, r = Some l -> session_user e = Returned (Some (la_userId l)).
Proof.
  intros [Hfull Hlight]. unfold getLightweightUserAuth.
  destruct (session_user e) as [sess|msg];
    [|intros [= <- <-]; split; [split; assumption|discriminate]].
  destruct (truthy_string sess) eqn:Htruthy; simpl;
    [|intros [= <- <-]; split; [split; assumption|discriminate]].
  apply truthy_string_inv in Htruthy. destruct Htruthy as (userId & -> & Hne).
  simpl.
  pose proof (getCachedLightweightAuth_keyed (now_lookup_light e) userId _ Hlight) as Hl1.
  pose proof (getCachedLightweightAuth_Some (now_lookup_light e) userId
                (lightweightAuthCache st)) as Hhit.
  destruct (getCachedLightweightAuth _ userId _) as [[cached|] l1]; simpl in *.
  - intros [= <- <-]. split; [split; assumption|].
    intros l [= <-]. destruct (Hhit cached eq_refl) as (e0 & Hentry & _).
    rewrite (Hlight _ _ _ Hentry). reflexivity.
  - pose proof (getCachedUserData_keyed (now_lookup e) userId _ Hfull) as Hc1.
    pose proof (getCachedUserData_Some (now_lookup e) userId (userDataCache st)) as Hfullhit.
    destruct (getCachedUserData _ userId _) as [[full|] c1]; simpl in *.
    + destruct (Hfullhit full eq_refl) as (e0 & Hentry & _).
      pose proof (Hfull _ _ _ Hentry) as Hid.
      intros [= <- <-]. split.
      * split; simpl; [assumption|].
        apply setCachedLightweightAuth_keyed; [exact Hid|assumption].
      * intros l [= <-]. simpl. rewrite Hid. reflexivity.
    + destruct (getReadReplica _) as [[o st3]|] eqn:Hrep; [|discriminate].
      apply getReadReplica_caches in Hrep. simpl in Hrep. destruct Hrep as [Hc3 Hl3].
      assert (Hkeyed3 : caches_keyed_by_user st3)
        by (split; [rewrite Hc3|rewrite Hl3]; assumption).
      destruct o as [[rep|]|msg];
        try (intros [= <- <-]; split; [exact Hkeyed3|discriminate]).
      destruct (db e) as [tables|];
        [|intros [= <- <-]; split; [exact Hkeyed3|discriminate]].
      destruct (user_with_subscriptions tables userId) as [|[first o] rows] eqn:E;
        [intros [= <- <-]; split; [exact Hkeyed3|discriminate]|].
      destruct (user_with_subscriptions_first _ _ _ _ _ E) as [_ Hid].
      intros [= <- <-]. split.
      * split; simpl; [rewrite Hc3; assumption|].
        apply setCachedLightweightAuth_keyed; [exact Hid|rewrite Hl3; assumption].
      * intros l [= <-]. simpl. rewrite Hid. reflexivity.
Qed.

(** X10.  The caches only ever hold a user's data under that user's id.  The
    property holds of the empty caches and is kept by
    [getComprehensiveUserData], [getLightweightUserAuth] and both ways
    of clearing; under it, the record a call returns, from the cache or
    freshly built, carries the id of the signed-in user of that call. *)
Theorem caches_stay_keyed_by_user (e : env) (st : server)
    (Hkeyed : caches_keyed_by_user st) :
  (forall sel, caches_keyed_by_user (Server ∅ ∅ sel))
  /\ (forall r st',
        getComprehensiveUserData e st = Some (r, st') ->
        caches_keyed_by_user st'
        /\ forall d, r = Some d -> session_user e = Returned (Some (id d)))
  /\ (forall r st',
        getLightweightUserAuth e st = Some (r, st') ->
        caches_keyed_by_user st'
        /\ forall l, r = Some l -> session_user e = Returned (Some (la_userId l)))
  /\ (forall userId, caches_keyed_by_user (clearUserDataCache userId st))
  /\ caches_keyed_by_user (clearAllUserDataCache st).
Proof.
  assert (Hempty : forall sel, caches_keyed_by_user (Server ∅ ∅ sel)).
  { intros sel. split; intros k d e0 Hk; simpl in Hk;
      rewrite lookup_empty in Hk; discriminate. }
  split; [exact Hempty|]. split; [|split; [|split]].
  - intros r st'. apply getComprehensiveUserData_keyed, Hkeyed.
  - intros r st'. apply getLightweightUserAuth_keyed, Hkeyed.
  - intros userId. destruct Hkeyed as [Hfull Hlight].
    split; intros k d e0 Hk; simpl in Hk; apply lookup_delete_Some in Hk;
      [eapply Hfull|eapply Hlight]; apply Hk.
  - apply Hempty.
Qed.

Lemma caches_stay_keyed_by_user_witness :
  caches_keyed_by_user Samples.served
  /\ forall d, Some Samples.alice_data = Some d ->
       session_user Samples.request = Returned (Some (id d)).
Proof.
  assert (Hfresh : caches_keyed_by_user Samples.fresh).
  { split; intros k d e0 Hk; simpl in Hk; rewrite lookup_empty in Hk; discriminate. }
  destruct (caches_stay_keyed_by_user Samples.request Samples.fresh Hfresh)
    as (_ & Hfull & _).
  apply (Hfull (Some Samples.alice_data) Samples.served).
  vm_compute. reflexivity.
Defined.

Lemma getComprehensiveUserData_no_user e st :
  Vocabulary.no_session e \/ Vocabulary.throws (session_user e) ->
  getComprehensiveUserData e st = Some (None, st).
Proof.
  unfold getComprehensiveUserData.
  intros [(sess & -> & ->)|[msg ->]]; reflexivity.
Qed.

Lemma getComprehensiveUserData_db_down e st userId :
  session_user e = Returned (Some userId) ->
  userId <> EmptyString ->
  fst (getCachedUserData (now_lookup e) userId (userDataCache st)) = None ->
  Vocabulary.throws (db e) ->
  Db.reachable (selector st) ->
  exists st', getComprehensiveUserData e st = Some (None, st').
Proof.
  intros Hsess Hne Hmiss [msg Hdb] Hsel. unfold getComprehensiveUserData.
  rewrite Hsess, (UserDataFacts.truthy_string_Some _ Hne). simpl.
  destruct (getCachedUserData _ userId _) as [cached c1]. simpl in Hmiss. subst cached.
  destruct (UserDataFacts.getReadReplica_returns (with_userDataCache st c1) Hsel)
    as (r & st2 & -> & _).
  rewrite Hdb. eauto.
Qed.

(** X11.  [isUserPro] and [getUserSubscriptionStatus] fail closed: without a
    signed-in user, when the session lookup throws, when nothing is
    cached and the database read throws, and when the user has no row,
    they answer [false] and ['none']. *)
Theorem isUserPro_fails_closed (e : env) (st : server)
    (Hsel : Db.reachable (selector st)) :
  (Vocabulary.no_session e \/ Vocabulary.throws (session_user e) ->
   isUserPro e st = Some (false, st)
   /\ getUserSubscriptionStatus e st = Some (none, st))
  /\ (forall userId,
        session_user e = Returned (Some userId) ->
        userId <> EmptyString ->
        fst (getCachedUserData (now_lookup e) userId (userDataCache st)) = None ->
        Vocabulary.throws (db e)
        \/ (exists tables, db e = Returned tables
                           /\ ~ Vocabulary.user_exists tables userId) ->
        exists st',
          isUserPro e st = Some (false, st')
          /\ getUserSubscriptionStatus e st = Some (none, st')).
Proof.
  split.
  - intros Hno. unfold isUserPro, getUserSubscriptionStatus.
    rewrite (getComprehensiveUserData_no_user e st Hno). split; reflexivity.
  - intros userId Hsess Hne Hmiss [Hdown|(tables & Hdb & Hnone)].
    + destruct (getComprehensiveUserData_db_down e st userId Hsess Hne Hmiss Hdown Hsel)
        as [st' Hcall].
      exists st'. unfold isUserPro, getUserSubscriptionStatus. rewrite Hcall.
      split; reflexivity.
    + destruct (getComprehensiveUserData_computed e st userId tables
                  Hsess Hne Hmiss Hdb Hsel) as (sel & _ & Hcall).
      apply UserDataFacts.user_with_subscriptions_nil in Hnone.
      rewrite Hnone in Hcall.
      eexists. unfold isUserPro, getUserSubscriptionStatus. rewrite Hcall.
      split; reflexivity.
Qed.

Lemma isUserPro_fails_closed_witness :
  exists st',
    isUserPro Samples.later_outage Samples.fresh = Some (false, st')
    /\ getUserSubscriptionStatus Samples.later_outage Samples.fresh = Some (none, st').
Proof.
  destruct (isUserPro_fails_closed Samples.later_outage Samples.fresh Db.reach_initial)
    as [_ Hdown].
  apply (Hdown "u1"); [reflexivity|discriminate|reflexivity|].
  left. eexists. reflexivity.
Defined.

End UserDataMore.

(** ** The caches of custom instructions and of preferences *)

Module UserCachesFacts.
Import UserData UserCaches.

Section Instructions.
Context {CustomInstructions : Type}.
Implicit Types cache : gmap string (instructions_entry CustomInstructions).

Lemma customInstructions_fresh query now now' userId ttlMs cache cached :
  cache !! userId = Some cached ->
  now - instructions_timestamp cached < instructions_ttl cached ->
  getCachedCustomInstructionsByUserId query now now' userId ttlMs cache
  = (Returned (instructions cached), cache).
Proof.
  intros Hc Hfresh. unfold getCachedCustomInstructionsByUserId. rewrite Hc.
  destruct (_ <? _) eqn:H; [reflexivity|lia].
Qed.

Lemma customInstructions_stale query now now' userId ttlMs cache :
  (forall cached, cache !! userId = Some cached ->
                  instructions_ttl cached <= now - instructions_timestamp cached) ->
  getCachedCustomInstructionsByUserId query now now' userId ttlMs cache
  = match query userId with
    | Thrown msg => (Thrown msg, cache)
    | Returned answer =>
        (Returned answer,
         <[userId := InstructionsEntry answer now'
                       (default CUSTOM_INSTRUCTIONS_CACHE_TTL_MS ttlMs)]> cache)
    end.
Proof.
  intros Hstale. unfold getCachedCustomInstructionsByUserId.
  destruct (cache !! userId) as [cached|] eqn:Hc; [|reflexivity].
  specialize (Hstale cached eq_refl).
  destruct (_ <? _) eqn:H; [lia|reflexivity].
Qed.

(** X12.  [getCachedCustomInstructionsByUserId] reads through its cache.  A
    call that finds no fresh entry takes the answer of the query, a row
    or nothing, and keeps it with the time-to-live of that call (five
    minutes by default).  Until that time has passed since the entry
    was stamped, every call for the user gives the kept answer without
    running the query, whatever time-to-live it asks for; afterwards a
    call runs the query again, and if the query throws the exception
    goes through and the cache stays as it is. *)
Theorem customInstructions_read_through
    (query : string -> outcome (option CustomInstructions))
    cache (userId : string) (answer : option CustomInstructions)
    (now_check now_store : Z) (ttlMs : option Z)
    (Hstale : forall cached, cache !! userId = Some cached ->
                instructions_ttl cached <= now_check - instructions_timestamp cached)
    (Hquery : query userId = Returned answer) :
  let ttl := default CUSTOM_INSTRUCTIONS_CACHE_TTL_MS ttlMs in
  let cache1 := <[userId := InstructionsEntry answer now_store ttl]> cache in
  getCachedCustomInstructionsByUserId query now_check now_store userId ttlMs cache
  = (Returned answer, cache1)
  /\ (forall query' now now' ttlMs',
        now - now_store < ttl ->
        getCachedCustomInstructionsByUserId query' now now' userId ttlMs' cache1
        = (Returned answer, cache1))
  /\ (forall query' now now' ttlMs',
        ttl <= now - now_store ->
        getCachedCustomInstructionsByUserId query' now now' userId ttlMs' cache1
        = match query' userId with
          | Thrown msg => (Thrown msg, cache1)
          | Returned answer' =>
              (Returned answer',
               <[userId := InstructionsEntry answer' now'
                             (default CUSTOM_INSTRUCTIONS_CACHE_TTL_MS ttlMs')]> cache1)
          end).
Proof.
  intros ttl cache1. split; [|split].
  - rewrite (customInstructions_stale _ _ _ _ _ _ Hstale), Hquery. reflexivity.
  - intros query' now now' ttlMs' Hfresh.
    apply (customInstructions_fresh query' now now' userId ttlMs' cache1
             (InstructionsEntry answer now_store ttl)).
    + apply lookup_insert_eq.
    + exact Hfresh.
  - intros query' now now' ttlMs' Hold.
    apply customInstructions_stale. intros cached Hc.
    unfold cache1 in Hc. rewrite lookup_insert_eq in Hc. injection Hc as <-.
    exact Hold.
Qed.

End Instructions.

Section Preferences.
Context {UserPreferences : Type}.
Implicit Types cache : gmap string (preferences_entry UserPreferences).

Lemma userPreferences_fresh query now now' userId ttlMs cache cached :
  cache !! userId = Some cached ->
  now - preferences_timestamp cached < preferences_ttl cached ->
  getCachedUserPreferencesByUserId query now now' userId ttlMs cache
  = (Returned (preferences cached), cache).
Proof.
  intros Hc Hfresh. unfold getCachedUserPreferencesByUserId. rewrite Hc.
  destruct (_ <? _) eqn:H; [reflexivity|lia].
Qed.

Lemma userPreferences_stale query now now' userId ttlMs cache :
  (forall cached, cache !! userId = Some cached ->
                  preferences_ttl cached <= now - preferences_timestamp cached) ->
  getCachedUserPreferencesByUserId query now now' userId ttlMs cache
  = match query userId with
    | Thrown msg => (Thrown msg, cache)
    | Returned answer =>
        (Returned answer,
         <[userId := PreferencesEntry answer now'
                       (default USER_PREFERENCES_CACHE_TTL_MS ttlMs)]> cache)
    end.
Proof.
  intros Hstale. unfold getCachedUserPreferencesByUserId.
  destruct (cache !! userId) as [cached|] eqn:Hc; [|reflexivity].
  specialize (Hstale cached eq_refl).
  destruct (_ <? _) eqn:H; [lia|reflexivity].
Qed.

(** X13.  [getCachedUserPreferencesByUserId] reads through its cache in the
    same way: the answer of the query is kept with the time-to-live of
    the call that stored it and given back, without the query, until
    that time has passed; then the query runs again, and a throw goes
    through without touching the cache. *)
Theorem userPreferences_read_through
    (query : string -> outcome (option UserPreferences))
    cache (userId : string) (answer : option UserPreferences)
    (now_check now_store : Z) (ttlMs : option Z)
    (Hstale : forall cached, cache !! userId = Some cached ->
                preferences_ttl cached <= now_check - preferences_timestamp cached)
    (Hquery : query userId = Returned answer) :
  let ttl := default USER_PREFERENCES_CACHE_TTL_MS ttlMs in
  let cache1 := <[userId := PreferencesEntry answer now_store ttl]> cache in
  getCachedUserPreferencesByUserId query now_check now_store userId ttlMs cache
  = (Returned answer, cache1)
  /\ (forall query' now now' ttlMs',
        now - now_store < ttl ->
        getCachedUserPreferencesByUserId query' now now' userId ttlMs' cache1
        = (Returned answer, cache1))
  /\ (forall query' now now' ttlMs',
        ttl <= now - now_store ->
        getCachedUserPreferencesByUserId query' now now' userId ttlMs' cache1
        = match query' userId with
          | Thrown msg => (Thrown msg, cache1)
          | Returned answer' =>
              (Returned answer',
               <[userId := PreferencesEntry answer' now'
                             (default USER_PREFERENCES_CACHE_TTL_MS ttlMs')]> cache1)
          end).
Proof.
  intros ttl cache1. split; [|split].
  - rewrite (userPreferences_stale _ _ _ _ _ _ Hstale), Hquery. reflexivity.
  - intros query' now now' ttlMs' Hfresh.
    apply (userPreferences_fresh query' now now' userId ttlMs' cache1
             (PreferencesEntry answer now_store ttl)).
    + apply lookup_insert_eq.
    + exact Hfresh.
  - intros query' now now' ttlMs' Hold.
    apply userPreferences_stale. intros cached Hc.
    unfold cache1 in Hc. rewrite lookup_insert_eq in Hc. injection Hc as <-.
    exact Hold.
Qed.

End Preferences.

Lemma customInstructions_read_through_witness :
  getCachedCustomInstructionsByUserId (fun _ => Thrown "database down")
    60999 61000 "u1" None CacheFixtures.kept_instructions
  = (Returned (Some "Answer briefly"), CacheFixtures.kept_instructions).
Proof.
  refine (proj1 (proj2 (customInstructions_read_through
                   (fun _ => Returned (Some "Answer briefly"))
                   ∅ "u1" (Some "Answer briefly") 900 1000 (Some 60000) _ _))
            (fun _ => Thrown "database down") 60999 61000 None _).
  - intros cached Hc. rewrite lookup_empty in Hc. discriminate.
  - reflexivity.
  - simpl. lia.
Defined.

Lemma userPreferences_read_through_witness :
  getCachedUserPreferencesByUserId (fun _ => Thrown "database down")
    300999 301000 "u1" (Some 5) CacheFixtures.kept_no_preferences
  = (Returned None, CacheFixtures.kept_no_preferences).
Proof.
  refine (proj1 (proj2 (userPreferences_read_through
                   (fun _ => Returned None)
                   ∅ "u1" None 900 1000 None _ _))
            (fun _ => Thrown "database down") 300999 301000 (Some 5) _).
  - intros cached Hc. rewrite lookup_empty in Hc. discriminate.
  - reflexivity.
  - unfold USER_PREFERENCES_CACHE_TTL_MS. simpl. lia.
Defined.

(** X14.  After [clearUserDataCache(userId)] none of the four maps has an
    entry for the user, so that the next read of the user's custom
    instructions or preferences runs its query; the entries of every
    other user are left in all four maps. *)
Theorem clearUserDataCache_clears_all_four
    {CustomInstructions UserPreferences : Type}
    (p : process CustomInstructions UserPreferences) (userId : string) :
  let p' := clearUserDataCache userId p in
  userDataCache (core p') !! userId = None
  /\ lightweightAuthCache (core p') !! userId = None
  /\ (forall query now now' ttlMs,
        getCachedCustomInstructionsByUserId query now now' userId ttlMs
          (customInstructionsCache p')
        = match query userId with
          | Thrown msg => (Thrown msg, customInstructionsCache p')
          | Returned answer =>
              (Returned answer,
               <[userId := InstructionsEntry answer now'
                             (default CUSTOM_INSTRUCTIONS_CACHE_TTL_MS ttlMs)]>
                 (customInstructionsCache p'))
          end)
  /\ (forall query now now' ttlMs,
        getCachedUserPreferencesByUserId query now now' userId ttlMs
          (userPreferencesCache p')
        = match query userId with
          | Thrown msg => (Thrown msg, userPreferencesCache p')
          | Returned answer =>
              (Returned answer,
               <[userId := PreferencesEntry answer now'
                             (default USER_PREFERENCES_CACHE_TTL_MS ttlMs)]>
                 (userPreferencesCache p'))
          end)
  /\ (forall other, other <> userId ->
        userDataCache (core p') !! other = userDataCache (core p) !! other
        /\ lightweightAuthCache (core p') !! other
           = lightweightAuthCache (core p) !! other
        /\ customInstructionsCache p' !! other = customInstructionsCache p !! other
        /\ userPreferencesCache p' !! other = userPreferencesCache p !! other).
Proof.
  intros p'. split; [apply lookup_delete_eq|]. split; [apply lookup_delete_eq|].
  split; [|split].
  - intros query now now' ttlMs. apply customInstructions_stale.
    intros cached Hc. simpl in Hc. rewrite lookup_delete_eq in Hc. discriminate.
  - intros query now now' ttlMs. apply userPreferences_stale.
    intros cached Hc. simpl in Hc. rewrite lookup_delete_eq in Hc. discriminate.
  - intros other Hother. repeat split; apply lookup_delete_ne; congruence.
Qed.

Lemma clearUserDataCache_clears_all_four_witness :
  customInstructionsCache (clearUserDataCache "u2" CacheFixtures.whole_process) !! "u1"
  = CacheFixtures.kept_instructions !! "u1".
Proof.
  destruct (clearUserDataCache_clears_all_four CacheFixtures.whole_process "u2")
    as (_ & _ & _ & _ & Hother).
  apply (Hother "u1"). discriminate.
Defined.

(** X15.  [clearCustomInstructionsCache] and [clearUserPreferencesCache]
    called with the empty string empty the whole map, as they do when
    called without an id; with another id they remove only the entry
    of that user. *)
Theorem clear_with_empty_id_clears_everyone
    {CustomInstructions UserPreferences : Type}
    (instructionsCache : gmap string (instructions_entry CustomInstructions))
    (preferencesCache : gmap string (preferences_entry UserPreferences)) :
  clearCustomInstructionsCache (Some EmptyString) instructionsCache = ∅
  /\ clearCustomInstructionsCache None instructionsCache = ∅
  /\ clearUserPreferencesCache (Some EmptyString) preferencesCache = ∅
  /\ clearUserPreferencesCache None preferencesCache = ∅
  /\ forall userId other,
       userId <> EmptyString ->
       clearCustomInstructionsCache (Some userId) instructionsCache !! userId = None
       /\ clearUserPreferencesCache (Some userId) preferencesCache !! userId = None
       /\ (other <> userId ->
           clearCustomInstructionsCache (Some userId) instructionsCache !! other
           = instructionsCache !! other
           /\ clearUserPreferencesCache (Some userId) preferencesCache !! other
              = preferencesCache !! other).
Proof.
  repeat (split; [reflexivity|]).
  intros userId other Hne.
  unfold clearCustomInstructionsCache, clearUserPreferencesCache.
  rewrite (UserDataFacts.truthy_string_Some _ Hne). simpl.
  split; [apply lookup_delete_eq|]. split; [apply lookup_delete_eq|].
  intros Hother. split; apply lookup_delete_ne; congruence.
Qed.

Lemma clear_with_empty_id_clears_everyone_witness :
  clearCustomInstructionsCache (Some "u1") CacheFixtures.other_instructions !! "u2"
  = CacheFixtures.other_instructions !! "u2".
Proof.
  destruct (clear_with_empty_id_clears_everyone
              CacheFixtures.other_instructions CacheFixtures.kept_no_preferences)
    as (_ & _ & _ & _ & Hone).
  destruct (Hone "u1" "u2") as (_ & _ & Hother); [discriminate|].
  apply Hother. discriminate.
Defined.

End UserCachesFacts.

(** ** Subscription details and the cached Pro flag *)

Module SubscriptionDetailsFacts.
Import UserData Subscription SubscriptionDetails Notions.

(** From a reachable selector state [getComprehensiveProStatus]
    returns; it only moves the selector, and says Pro, with the source
    ['stripe'], exactly when the read answers and shows an active row. *)
Lemma getComprehensiveProStatus_returns (e : env) (userId : string) (st : server) :
  Db.reachable (selector st) ->
  exists ps st',
    getComprehensiveProStatus e userId st = Some (ps, st')
    /\ Db.reachable (selector st')
    /\ userDataCache st' = userDataCache st
    /\ lightweightAuthCache st' = lightweightAuthCache st
    /\ (isProUser ps = true
        <-> exists tables, db e = Returned tables
                           /\ Vocabulary.has_active_subscription tables userId)
    /\ (source ps = stripe <-> isProUser ps = true).
Proof.
  intros Hsel. unfold getComprehensiveProStatus.
  destruct (UserDataFacts.getReadReplica_returns st Hsel)
    as (r & st1 & -> & Hfull & Hlight & Hsel1).
  destruct (db e) as [tables|msg].
  - pose proof (UserDataFacts.find_active_is_Some (subscriptions_of tables userId))
      as Hfind.
    rewrite UserDataFacts.has_active_subscription_filter in Hfind.
    destruct (List.find _ (subscriptions_of tables userId)) as [s|];
      eexists _, _; (split; [reflexivity|]);
      (split; [exact Hsel1|]); (split; [exact Hfull|]); (split; [exact Hlight|]);
      simpl.
    + split; [|tauto]. split; [intros _|reflexivity].
      exists tables. split; [reflexivity|]. apply Hfind. eauto.
    + split; [|split; discriminate]. split; [discriminate|].
      intros (tables' & [= <-] & Hactive). apply Hfind in Hactive.
      destruct Hactive as [? H]. discriminate.
  - eexists _, _. split; [reflexivity|]. split; [exact Hsel1|].
    split; [exact Hfull|]. split; [exact Hlight|]. simpl.
    split; [|split; discriminate]. split; [discriminate|].
    intros (tables & H & _). discriminate.
Qed.

(** X16.  [getProStatusWithSource] and [isUserSubscribed] give the same Pro
    flag and leave the same state, and the source is ['stripe'] exactly
    when the flag is set. *)
Theorem getProStatusWithSource_agrees (e : env) (st : server)
    (Hsel : Db.reachable (selector st)) :
  exists ps st',
    getProStatusWithSource e st = Some (ps, st')
    /\ isUserSubscribed e st = Some (isProUser ps, st')
    /\ (source ps = stripe <-> isProUser ps = true).
Proof.
  unfold getProStatusWithSource, isUserSubscribed.
  destruct (session_user e) as [sess|msg].
  - destruct (negb (truthy_string sess)).
    + eexists _, _. split; [reflexivity|]. split; [reflexivity|].
      simpl. split; discriminate.
    + destruct (getComprehensiveProStatus_returns e (default EmptyString sess) st Hsel)
        as (ps & st' & -> & _ & _ & _ & _ & Hsource).
      exists ps, st'. split; [reflexivity|]. split; [reflexivity|exact Hsource].
  - eexists _, _. split; [reflexivity|]. split; [reflexivity|].
    simpl. split; discriminate.
Qed.

Lemma getProStatusWithSource_agrees_witness :
  exists ps st',
    getProStatusWithSource Samples.request Samples.fresh = Some (ps, st')
    /\ isUserSubscribed Samples.request Samples.fresh = Some (isProUser ps, st')
    /\ (source ps = stripe <-> isProUser ps = true).
Proof.
  exact (getProStatusWithSource_agrees Samples.request Samples.fresh Db.reach_initial).
Defined.

Lemma head_filter_active_Some (subs : list subscription_row) a :
  head (filter (fun sub => sub_status sub = "active") subs) = Some a ->
  a ∈ subs /\ sub_status a = "active".
Proof.
  intros Hhead.
  assert (Hin : a ∈ filter (fun sub => sub_status sub = "active") subs).
  { destruct (filter _ subs) as [|x l]; [discriminate|].
    injection Hhead as ->. left. }
  apply list_elem_of_filter in Hin. tauto.
Qed.

Lemma head_filter_active_None (subs : list subscription_row) :
  head (filter (fun sub => sub_status sub = "active") subs) = None ->
  forall s, s ∈ subs -> sub_status s <> "active".
Proof.
  intros Hhead s Hs Hactive.
  assert (Hin : s ∈ filter (fun sub => sub_status sub = "active") subs)
    by (apply list_elem_of_filter; auto).
  destruct (filter _ subs) as [|x l]; [|discriminate].
  apply elem_of_nil in Hin. exact Hin.
Qed.

Lemma elem_of_subscriptions_of tables userId s :
  s ∈ subscriptions_of tables userId <-> subscription_row_of tables userId s.
Proof.
  unfold subscriptions_of, subscription_row_of. rewrite list_elem_of_filter. tauto.
Qed.

Section WithPerformanceCache.
Context {perf : Type}.
Variable createSubscriptionKey : string -> string.
Variable subscriptionCache_get : string -> perf -> option SubscriptionDetailsResult * perf.
Variable subscriptionCache_set : string -> SubscriptionDetailsResult -> perf -> perf.
Variable getProUserStatus : string -> perf -> option bool * perf.
Variable setProUserStatus : string -> bool -> perf -> perf.

#[local] Notation "'details'" :=
  (getSubscriptionDetails perf createSubscriptionKey subscriptionCache_get
     subscriptionCache_set setProUserStatus).

(** What [getSubscriptionDetails] answers from the rows of the user. *)
Lemma getSubscriptionDetails_computed (e e_pro : env) (st : server) (pf : perf)
    userId tables :
  session_user e = Returned (Some userId) ->
  userId <> EmptyString ->
  Db.reachable (selector st) ->
  fst (subscriptionCache_get (createSubscriptionKey userId) pf) = None ->
  db e = Returned tables ->
  exists st' isPro,
    let result :=
      match subscriptions_of tables userId with
      | [] => no_subscription
      | latestSubscription :: _ =>
          match head (filter (fun sub => sub_status sub = "active")
                        (subscriptions_of tables userId)) with
          | Some activeSubscription => active_result activeSubscription
          | None => inactive_result (now_status e) latestSubscription
          end
      end in
    details e e_pro st pf
    = Some (result, st',
            setProUserStatus userId isPro
              (subscriptionCache_set (createSubscriptionKey userId) result
                 (snd (subscriptionCache_get (createSubscriptionKey userId) pf)))).
Proof.
  intros Hsess Hne Hsel Hmiss Hdb. unfold getSubscriptionDetails.
  rewrite Hsess, (UserDataFacts.truthy_string_Some _ Hne). simpl.
  destruct (UserDataFacts.getReadReplica_returns st Hsel)
    as (r & st1 & -> & _ & _ & Hsel1).
  destruct (subscriptionCache_get (createSubscriptionKey userId) pf) as [cached pf1].
  simpl in Hmiss. subst cached. rewrite Hdb. simpl.
  destruct (getComprehensiveProStatus_returns e_pro userId st1 Hsel1)
    as (ps & st2 & Hpro & _).
  destruct (subscriptions_of tables userId) as [|latest rest] eqn:Hsubs.
  - rewrite Hpro. eexists _, _. reflexivity.
  - destruct (head (filter _ (latest :: rest))) as [a|].
    + eexists _, _. reflexivity.
    + rewrite Hpro. eexists _, _. reflexivity.
Qed.

(** X17.  [getSubscriptionDetails] never throws and files nothing on failure:
    without a signed-in user it answers [{ hasSubscription: false }]
    and touches nothing; when the session lookup throws, or when
    nothing is cached and the read of the subscription table throws, it
    answers with the error ['Failed to load subscription details'] of
    type ['GENERAL'], and neither the subscription cache nor the cached
    Pro flag is written. *)
Theorem getSubscriptionDetails_fails_safe (e e_pro : env) (st : server) (pf : perf)
    (Hsel : Db.reachable (selector st)) :
  (Vocabulary.no_session e ->
   details e e_pro st pf = Some (no_subscription, st, pf))
  /\ (Vocabulary.throws (session_user e) ->
      details e e_pro st pf = Some (failed_to_load, st, pf))
  /\ (forall userId,
        session_user e = Returned (Some userId) ->
        userId <> EmptyString ->
        fst (subscriptionCache_get (createSubscriptionKey userId) pf) = None ->
        Vocabulary.throws (db e) ->
        exists st',
          details e e_pro st pf
          = Some (failed_to_load, st',
                  snd (subscriptionCache_get (createSubscriptionKey userId) pf))).
Proof.
  split; [|split].
  - intros (sess & Hsess & Hfalsy). unfold getSubscriptionDetails.
    rewrite Hsess, Hfalsy. reflexivity.
  - intros [msg Hsess]. unfold getSubscriptionDetails. rewrite Hsess. reflexivity.
  - intros userId Hsess Hne Hmiss [msg Hdb]. unfold getSubscriptionDetails.
    rewrite Hsess, (UserDataFacts.truthy_string_Some _ Hne). simpl.
    destruct (UserDataFacts.getReadReplica_returns st Hsel)
      as (r & st1 & -> & _).
    destruct (subscriptionCache_get (createSubscriptionKey userId) pf) as [cached pf1].
    simpl in Hmiss. subst cached. rewrite Hdb. eauto.
Qed.

(** X18.  When nothing is cached and the read answers, [getSubscriptionDetails]
    says [hasSubscription] exactly when the user has a subscription
    row, and reports the status ['active'] exactly when one of them is
    active, then without error and with the Pro flag cached as [true].
    When no row is active it reports the first row the read gave, with
    the error type ['CANCELED'] if that row is canceled, ['EXPIRED'] if
    it is not canceled and has a period end in the past, and
    ['GENERAL'] otherwise.  The answer is filed in the subscription
    cache under the key of the user, and it does not depend on what the
    read made for the Pro flag meets. *)
Theorem getSubscriptionDetails_classifies
    (e e_pro : env) (st : server) (pf : perf) (userId : string) (tables : database)
    (Hsess : session_user e = Returned (Some userId))
    (Hne : userId <> EmptyString)
    (Hsel : Db.reachable (selector st))
    (Hmiss : fst (subscriptionCache_get (createSubscriptionKey userId) pf) = None)
    (Hdb : db e = Returned tables) :
  exists result st' isPro,
    details e e_pro st pf
    = Some (result, st',
            setProUserStatus userId isPro
              (subscriptionCache_set (createSubscriptionKey userId) result
                 (snd (subscriptionCache_get (createSubscriptionKey userId) pf))))
    /\ (hasSubscription result = true
        <-> exists s, subscription_row_of tables userId s)
    /\ (details_status <$> subscription result = Some "active"
        <-> Vocabulary.has_active_subscription tables userId)
    /\ (Vocabulary.has_active_subscription tables userId ->
        error result = None /\ errorType result = None /\ isPro = true)
    /\ (~ Vocabulary.has_active_subscription tables userId ->
        forall first,
          subscriptions_of tables userId !! 0%nat = Some first ->
          subscription result = Some (details_of first)
          /\ is_Some (error result)
          /\ (errorType result = Some CANCELED <-> sub_status first = "canceled")
          /\ (errorType result = Some EXPIRED
              <-> sub_status first <> "canceled"
                  /\ exists periodEnd,
                       sub_periodEnd first = Some periodEnd
                       /\ periodEnd < now_status e)
          /\ (errorType result = Some CANCELED
              \/ errorType result = Some EXPIRED
              \/ errorType result = Some GENERAL)).
Proof.
  clear getProUserStatus.
  destruct (getSubscriptionDetails_computed e e_pro st pf userId tables
              Hsess Hne Hsel Hmiss Hdb) as (st' & isPro & Hcall).
  cbv zeta in Hcall.
  pose proof (UserDataFacts.has_active_subscription_filter tables userId) as Hactive.
  pose proof (elem_of_subscriptions_of tables userId) as Hrow.
  destruct (subscriptions_of tables userId) as [|latest rest] eqn:Hsubs.
  - eexists _, _, _. split; [exact Hcall|]. simpl.
    split; [split; [discriminate|]|].
    { intros (s & Hs). apply Hrow in Hs. apply elem_of_nil in Hs. destruct Hs. }
    split; [split; [discriminate|]|].
    { intros H. apply Hactive in H. destruct H as (s & Hs & _).
      apply elem_of_nil in Hs. destruct Hs. }
    split.
    { intros H. apply Hactive in H. destruct H as (s & Hs & _).
      apply elem_of_nil in Hs. destruct Hs. }
    intros _ first Hfirst. discriminate.
  - destruct (head (filter _ (latest :: rest))) as [a|] eqn:Hhead.
    + apply head_filter_active_Some in Hhead. destruct Hhead as [Hin Ha].
      assert (Hhas : Vocabulary.has_active_subscription tables userId)
        by (apply Hactive; eauto).
      unfold getSubscriptionDetails in Hcall |- *.
      rewrite Hsess, (UserDataFacts.truthy_string_Some _ Hne) in Hcall |- *.
      simpl in Hcall |- *.
      destruct (UserDataFacts.getReadReplica_returns st Hsel)
        as (r & st1 & Hrep & _).
      rewrite Hrep in Hcall |- *.
      destruct (subscriptionCache_get (createSubscriptionKey userId) pf)
        as [cached pf1].
      simpl in Hmiss. subst cached. rewrite Hdb in Hcall |- *. simpl in Hcall |- *.
      rewrite Hsubs in Hcall |- *.
      destruct (head (filter _ (latest :: rest))) as [a'|] eqn:Hhead'.
      * apply head_filter_active_Some in Hhead'. destruct Hhead' as [Hin' Ha'].
        eexists _, _, true. split; [reflexivity|]. simpl.
        split; [split; [intros _; exists latest; apply Hrow; left|reflexivity]|].
        split; [split; [intros _; exact Hhas|intros _; rewrite Ha'; reflexivity]|].
        split; [intros _; repeat split|]. intros Hno. contradiction.
      * exfalso. eapply head_filter_active_None; eassumption.
    + pose proof (head_filter_active_None _ Hhead) as Hnone.
      assert (Hno : ~ Vocabulary.has_active_subscription tables userId).
      { intros H. apply Hactive in H. destruct H as (s & Hs & Hst).
        exact (Hnone s Hs Hst). }
      eexists _, _, _. split; [exact Hcall|]. simpl.
      split; [split; [intros _; exists latest; apply Hrow; left|reflexivity]|].
      split; [split; [intros [= H]; exfalso; apply (Hnone latest); [left|exact H]
                     |intros H; contradiction]|].
      split; [intros H; contradiction|].
      intros _ first [= <-]. split; [reflexivity|]. split; [eauto|].
      unfold isCanceled, isExpired.
      destruct (bool_decide (sub_status latest = "canceled")) eqn:Hc.
      * apply bool_decide_eq_true in Hc.
        split; [tauto|]. split; [|auto].
        split; [discriminate|]. intros [H _]. contradiction.
      * apply bool_decide_eq_false in Hc.
        destruct (sub_periodEnd latest) as [t|].
        -- destruct (t <? now_status e) eqn:Ht.
           ++ split; [split; [discriminate|contradiction]|].
              split; [|auto]. split; [intros _|reflexivity].
              split; [exact Hc|]. exists t. split; [reflexivity|lia].
           ++ split; [split; [discriminate|contradiction]|].
              split; [|auto]. split; [discriminate|].
              intros (_ & t' & [= <-] & Hlt). lia.
        -- split; [split; [discriminate|contradiction]|].
           split; [|auto]. split; [discriminate|].
           intros (_ & t' & H & _). discriminate.
Qed.

(** X19.  A cached answer is returned as it is, whatever the subscription
    table holds by now and even when its read would throw; only the
    cached Pro flag is refreshed, from the read made for it. *)
Theorem getSubscriptionDetails_serves_cached
    (e e_pro : env) (st : server) (pf : perf) (userId : string)
    (cached : SubscriptionDetailsResult)
    (Hsess : session_user e = Returned (Some userId))
    (Hne : userId <> EmptyString)
    (Hsel : Db.reachable (selector st))
    (Hhit : fst (subscriptionCache_get (createSubscriptionKey userId) pf)
            = Some cached) :
  exists st' isPro,
    details e e_pro st pf
    = Some (cached, st',
            setProUserStatus userId isPro
              (snd (subscriptionCache_get (createSubscriptionKey userId) pf)))
    /\ (isPro = true
        <-> exists tables, db e_pro = Returned tables
                           /\ Vocabulary.has_active_subscription tables userId).
Proof.
  unfold getSubscriptionDetails.
  rewrite Hsess, (UserDataFacts.truthy_string_Some _ Hne). simpl.
  destruct (UserDataFacts.getReadReplica_returns st Hsel)
    as (r & st1 & -> & _ & _ & Hsel1).
  destruct (subscriptionCache_get (createSubscriptionKey userId) pf) as [c pf1].
  simpl in Hhit. subst c.
  destruct (getComprehensiveProStatus_returns e_pro userId st1 Hsel1)
    as (ps & st2 & -> & _ & _ & _ & Hpro & _).
  exists st2, (isProUser ps). split; [reflexivity|exact Hpro].
Qed.

#[local] Notation "'access'" :=
  (hasAccessToProduct perf createSubscriptionKey subscriptionCache_get
     subscriptionCache_set setProUserStatus).

(** X20.  [hasAccessToProduct(productId)] is [false] without a signed-in user
    and when the session lookup throws.  When nothing is cached and the
    read answers, it is [true] exactly when the user has an active row
    and the first active row the read gave has the plan [productId], an
    empty plan counting as ['unknown']. *)
Theorem hasAccessToProduct_first_active_plan
    (productId : string) (e e_pro : env) (st : server) (pf : perf)
    (Hsel : Db.reachable (selector st)) :
  (Vocabulary.no_session e \/ Vocabulary.throws (session_user e) ->
   access productId e e_pro st pf = Some (false, st, pf))
  /\ (forall userId tables,
        session_user e = Returned (Some userId) ->
        userId <> EmptyString ->
        fst (subscriptionCache_get (createSubscriptionKey userId) pf) = None ->
        db e = Returned tables ->
        exists granted st' pf',
          access productId e e_pro st pf = Some (granted, st', pf')
          /\ (granted = true
              <-> exists a,
                    head (filter (fun sub => sub_status sub = "active")
                            (subscriptions_of tables userId)) = Some a
                    /\ plan_or_unknown (sub_plan a) = productId)).
Proof.
  split.
  - intros Hno. unfold hasAccessToProduct.
    destruct (getSubscriptionDetails_fails_safe e e_pro st pf Hsel) as (H1 & H2 & _).
    destruct Hno as [Hno|Hno]; [rewrite (H1 Hno)|rewrite (H2 Hno)]; reflexivity.
  - intros userId tables Hsess Hne Hmiss Hdb. unfold hasAccessToProduct.
    destruct (getSubscriptionDetails_computed e e_pro st pf userId tables
                Hsess Hne Hsel Hmiss Hdb) as (st' & isPro & ->).
    cbv zeta. eexists _, _, _. split; [reflexivity|].
    destruct (subscriptions_of tables userId) as [|latest rest] eqn:Hsubs.
    + simpl. split; [discriminate|]. intros (a & H & _). discriminate.
    + destruct (head (filter _ (latest :: rest))) as [a|] eqn:Hhead.
      * apply head_filter_active_Some in Hhead. destruct Hhead as [_ Ha].
        simpl. rewrite Ha.
        rewrite (bool_decide_eq_true_2 (Some "active" = Some "active") eq_refl).
        simpl. rewrite bool_decide_eq_true. split.
        -- intros [= H]. exists a. split; [reflexivity|exact H].
        -- intros (a' & [= <-] & H). rewrite H. reflexivity.
      * simpl. split; [|intros (a & H & _); discriminate].
        rewrite andb_true_iff, bool_decide_eq_true. intros [H _].
        injection H as H.
        exfalso. eapply (head_filter_active_None (latest :: rest) Hhead latest);
          [left|exact H].
Qed.

#[local] Notation "'status'" :=
  (SubscriptionDetails.getUserSubscriptionStatus perf createSubscriptionKey
     subscriptionCache_get subscriptionCache_set setProUserStatus).

(** X21.  [getUserSubscriptionStatus] of the subscription module answers
    ['none'] without a signed-in user and when the session lookup
    throws.  For a user with an active row it answers ['active'] from
    its first read alone: the subscription cache, stale or not, is not
    consulted and the performance cache is left as it is. *)
Theorem getUserSubscriptionStatus_active_first
    (e e_details e_pro : env) (st : server) (pf : perf)
    (Hsel : Db.reachable (selector st)) :
  (Vocabulary.no_session e \/ Vocabulary.throws (session_user e) ->
   status e e_details e_pro st pf = Some (none, st, pf))
  /\ (forall userId tables,
        session_user e = Returned (Some userId) ->
        userId <> EmptyString ->
        db e = Returned tables ->
        Vocabulary.has_active_subscription tables userId ->
        exists st', status e e_details e_pro st pf = Some (active, st', pf)).
Proof.
  split.
  - unfold SubscriptionDetails.getUserSubscriptionStatus.
    intros [(sess & -> & ->)|[msg ->]]; reflexivity.
  - intros userId tables Hsess Hne Hdb Hactive.
    unfold SubscriptionDetails.getUserSubscriptionStatus.
    rewrite Hsess, (UserDataFacts.truthy_string_Some _ Hne). simpl.
    destruct (getComprehensiveProStatus_returns e userId st Hsel)
      as (ps & st1 & -> & _ & _ & _ & Hpro & Hsource).
    assert (Hps : isProUser ps = true) by (apply Hpro; eauto).
    assert (Hst : source ps = stripe) by (apply Hsource, Hps).
    rewrite Hps, Hst. simpl. eauto.
Qed.

#[local] Notation "'proCached'" :=
  (isUserProCached perf getProUserStatus setProUserStatus).

(** X22.  [isUserProCached] gives a cached flag back as it is, without
    reading the database.  Without a cached flag it answers [true]
    exactly when the read answers and shows an active row of the user,
    and caches what it answers, so that a failing read is cached as
    [false].  A throwing session lookup is not caught: the call
    throws. *)
Theorem isUserProCached_trusts_cache (e : env) (st : server) (pf : perf)
    (Hsel : Db.reachable (selector st)) :
  (forall msg,
      session_user e = Thrown msg ->
      proCached e st pf = Some (Thrown msg, st, pf))
  /\ (Vocabulary.no_session e -> proCached e st pf = Some (Returned false, st, pf))
  /\ (forall userId cached,
        session_user e = Returned (Some userId) ->
        userId <> EmptyString ->
        fst (getProUserStatus userId pf) = Some cached ->
        proCached e st pf = Some (Returned cached, st, snd (getProUserStatus userId pf)))
  /\ (forall userId,
        session_user e = Returned (Some userId) ->
        userId <> EmptyString ->
        fst (getProUserStatus userId pf) = None ->
        exists isPro st',
          proCached e st pf
          = Some (Returned isPro, st',
                  setProUserStatus userId isPro (snd (getProUserStatus userId pf)))
          /\ (isPro = true
              <-> exists tables, db e = Returned tables
                                 /\ Vocabulary.has_active_subscription tables userId)).
Proof.
  split; [|split; [|split]].
  - intros msg Hsess. unfold isUserProCached. rewrite Hsess. reflexivity.
  - intros (sess & Hsess & Hfalsy). unfold isUserProCached.
    rewrite Hsess, Hfalsy. reflexivity.
  - intros userId cached Hsess Hne Hhit. unfold isUserProCached.
    rewrite Hsess, (UserDataFacts.truthy_string_Some _ Hne). simpl.
    destruct (getProUserStatus userId pf) as [c pf1]. simpl in Hhit. subst c.
    reflexivity.
  - intros userId Hsess Hne Hmiss. unfold isUserProCached.
    rewrite Hsess, (UserDataFacts.truthy_string_Some _ Hne). simpl.
    destruct (getProUserStatus userId pf) as [c pf1]. simpl in Hmiss. subst c.
    destruct (getComprehensiveProStatus_returns e userId st Hsel)
      as (ps & st1 & -> & _ & _ & _ & Hpro & _).
    exists (isProUser ps), st1. split; [reflexivity|exact Hpro].
Qed.

End WithPerformanceCache.

Lemma getSubscriptionDetails_fails_safe_witness :
  exists st',
    getSubscriptionDetails _ DetailsFixtures.simple_key DetailsFixtures.simple_get
      DetailsFixtures.simple_set DetailsFixtures.simple_setPro
      Samples.later_outage Samples.request Samples.fresh DetailsFixtures.empty_perf
    = Some (failed_to_load, st', DetailsFixtures.empty_perf).
Proof.
  destruct (getSubscriptionDetails_fails_safe
              DetailsFixtures.simple_key DetailsFixtures.simple_get
              DetailsFixtures.simple_set DetailsFixtures.simple_setPro
              Samples.later_outage Samples.request Samples.fresh
              DetailsFixtures.empty_perf Db.reach_initial) as (_ & _ & Hdown).
  apply (Hdown "u1"); [reflexivity|discriminate|reflexivity|].
  eexists. reflexivity.
Defined.

Lemma getSubscriptionDetails_classifies_witness :
  exists result st' pf',
    getSubscriptionDetails _ DetailsFixtures.simple_key DetailsFixtures.simple_get
      DetailsFixtures.simple_set DetailsFixtures.simple_setPro
      Fixtures.later_request Fixtures.later_request Samples.fresh
      DetailsFixtures.empty_perf
    = Some (result, st', pf')
    /\ (hasSubscription result = true
        <-> exists s, subscription_row_of Fixtures.canceled_tables "u1" s)
    /\ (details_status <$> subscription result = Some "active"
        <-> Vocabulary.has_active_subscription Fixtures.canceled_tables "u1").
Proof.
  destruct (getSubscriptionDetails_classifies
              DetailsFixtures.simple_key DetailsFixtures.simple_get
              DetailsFixtures.simple_set DetailsFixtures.simple_setPro
              Fixtures.later_request Fixtures.later_request Samples.fresh
              DetailsFixtures.empty_perf "u1" Fixtures.canceled_tables)
    as (result & st' & isPro & Hcall & Hhas & Hactive & _).
  - reflexivity.
  - discriminate.
  - apply Db.reach_initial.
  - reflexivity.
  - reflexivity.
  - eexists _, _, _. split; [exact Hcall|]. split; assumption.
Defined.

Lemma getSubscriptionDetails_serves_cached_witness :
  exists st' pf',
    getSubscriptionDetails _ DetailsFixtures.simple_key DetailsFixtures.simple_get
      DetailsFixtures.simple_set DetailsFixtures.simple_setPro
      Fixtures.later_request Fixtures.later_request Samples.fresh
      DetailsFixtures.stale_perf
    = Some (active_result Samples.alice_subscription, st', pf').
Proof.
  destruct (getSubscriptionDetails_serves_cached
              DetailsFixtures.simple_key DetailsFixtures.simple_get
              DetailsFixtures.simple_set DetailsFixtures.simple_setPro
              Fixtures.later_request Fixtures.later_request Samples.fresh
              DetailsFixtures.stale_perf "u1"
              (active_result Samples.alice_subscription))
    as (st' & isPro & Hcall & _).
  - reflexivity.
  - discriminate.
  - apply Db.reach_initial.
  - reflexivity.
  - eexists _, _. exact Hcall.
Defined.

Lemma hasAccessToProduct_first_active_plan_witness :
  exists granted st' pf',
    hasAccessToProduct _ DetailsFixtures.simple_key DetailsFixtures.simple_get
      DetailsFixtures.simple_set DetailsFixtures.simple_setPro
      "pro" Samples.request Samples.request Samples.fresh DetailsFixtures.empty_perf
    = Some (granted, st', pf')
    /\ (granted = true
        <-> exists a,
              head (filter (fun sub => sub_status sub = "active")
                      (subscriptions_of Samples.tables "u1")) = Some a
              /\ plan_or_unknown (sub_plan a) = "pro").
Proof.
  destruct (hasAccessToProduct_first_active_plan
              DetailsFixtures.simple_key DetailsFixtures.simple_get
              DetailsFixtures.simple_set DetailsFixtures.simple_setPro
              "pro" Samples.request Samples.request Samples.fresh
              DetailsFixtures.empty_perf Db.reach_initial) as [_ Hmiss].
  apply (Hmiss "u1" Samples.tables); [reflexivity|discriminate|reflexivity|reflexivity].
Defined.

Lemma getUserSubscriptionStatus_active_first_witness :
  exists st',
    SubscriptionDetails.getUserSubscriptionStatus _ DetailsFixtures.simple_key
      DetailsFixtures.simple_get DetailsFixtures.simple_set DetailsFixtures.simple_setPro
      Samples.request Samples.later_outage Samples.later_outage Samples.fresh
      DetailsFixtures.empty_perf
    = Some (active, st', DetailsFixtures.empty_perf).
Proof.
  destruct (getUserSubscriptionStatus_active_first
              DetailsFixtures.simple_key DetailsFixtures.simple_get
              DetailsFixtures.simple_set DetailsFixtures.simple_setPro
              Samples.request Samples.later_outage Samples.later_outage Samples.fresh
              DetailsFixtures.empty_perf Db.reach_initial) as [_ Hactive].
  apply (Hactive "u1" Samples.tables); [reflexivity|discriminate|reflexivity|].
  exists Samples.alice_subscription. repeat split. left.
Defined.

Lemma isUserProCached_trusts_cache_witness :
  isUserProCached _ DetailsFixtures.simple_getPro DetailsFixtures.simple_setPro
    Fixtures.later_request Samples.fresh DetailsFixtures.stale_perf
  = Some (Returned true, Samples.fresh, DetailsFixtures.stale_perf).
Proof.
  destruct (isUserProCached_trusts_cache
              DetailsFixtures.simple_getPro DetailsFixtures.simple_setPro
              Fixtures.later_request Samples.fresh DetailsFixtures.stale_perf
              Db.reach_initial) as (_ & _ & Hhit & _).
  apply (Hhit "u1" true); [reflexivity|discriminate|reflexivity].
Defined.

End SubscriptionDetailsFacts.

(* ===================================================================== *)
(** ** The student discount configuration *)
(* ===================================================================== *)

Module DiscountMore.
Import Discount DiscountConfig Vocabulary.

Lemma isStudentEmail_true_iff email studentDomains :
  isStudentEmail email studentDomains = true
  <-> exists localPart domain pattern,
        js_split "@" (toLowerCase email) = [localPart; domain]
        /\ pattern ∈ studentDomains
        /\ pattern_matches domain pattern = true.
Proof.
  unfold isStudentEmail.
  destruct (decide (email = EmptyString)) as [->|Hemail].
  - rewrite bool_decide_eq_true_2 by reflexivity. split; [discriminate|].
    intros (l & d & p & Hsplit & _). discriminate.
  - rewrite bool_decide_eq_false_2 by assumption.
    destruct (decide (studentDomains = [])) as [->|Hdoms].
    + rewrite bool_decide_eq_true_2 by reflexivity. split; [discriminate|].
      intros (l & d & p & _ & Hin & _). inversion Hin.
    + rewrite bool_decide_eq_false_2 by assumption.
      destruct (js_split "@" (toLowerCase email)) as [|l [|d [|x rest]]];
        try (split; [discriminate|intros (? & ? & ? & ? & _); discriminate]).
      rewrite existsb_exists. split.
      * intros (p & Hin & Hp). exists l, d, p. rewrite list_elem_of_In. auto.
      * intros (l' & d' & p & [= <- <-] & Hin & Hp). exists p.
        rewrite <- list_elem_of_In. auto.
Qed.


Lemma isStudentEmail_matching email studentDomains :
  isStudentEmail email studentDomains = true
  <-> exists localPart domain pattern,
        js_split "@" (toLowerCase email) = [localPart; domain]
        /\ pattern ∈ studentDomains
        /\ (is_suffix (toLowerCase pattern) domain
            \/ (toLowerCase pattern = ".edu" /\ edu_country_domain domain)).
Proof.
  rewrite isStudentEmail_true_iff.
  split; intros (l & d & p & Hsplit & Hin & Hp); exists l, d, p;
    (split; [exact Hsplit|split; [exact Hin|]]);
    apply DiscountFacts.pattern_matches_spec; exact Hp.
Qed.

Lemma enabled_inv userEmail edge discountId :
  enabled (getDiscountConfig userEmail edge discountId) = true ->
  exists email sid,
    userEmail = Some email /\ discountId = Some sid /\ sid <> EmptyString
    /\ isStudentEmail email (studentDomains_of edge) = true
    /\ getDiscountConfig userEmail edge discountId
       = MkDiscountConfig true (Some StudentDiscountApplied) (Some 5) true (Some sid).
Proof.
  unfold getDiscountConfig.
  destruct (truthy_string userEmail) eqn:Hemail; [|discriminate]. simpl.
  apply UserDataMore.truthy_string_inv in Hemail.
  destruct Hemail as (email & -> & Hne). simpl.
  destruct (isStudentEmail email (studentDomains_of edge)) eqn:Hstudent;
    [|discriminate]. simpl.
  destruct (truthy_string discountId) eqn:Hid; [|discriminate]. simpl.
  apply UserDataMore.truthy_string_inv in Hid.
  destruct Hid as (sid & -> & Hsid). intros _.
  exists email, sid. auto.
Qed.

Lemma enabled_intro email edge sid :
  sid <> EmptyString ->
  isStudentEmail email (studentDomains_of edge) = true ->
  enabled (getDiscountConfig (Some email) edge (Some sid)) = true.
Proof.
  intros Hsid Hstudent. unfold getDiscountConfig.
  assert (Hemail : email <> EmptyString).
  { intros ->. discriminate. }
  rewrite (UserDataFacts.truthy_string_Some _ Hemail).
  rewrite (UserDataFacts.truthy_string_Some _ Hsid).
  change (default EmptyString (Some email)) with email.
  rewrite Hstudent. reflexivity.
Qed.

(** X23.  The discount is switched on only for an address whose domain matches
    one of the student domains in effect, and only when the discount id
    is set; it then costs 5 and carries that id.  Every other answer is
    the default configuration. *)
Theorem getDiscountConfig_only_for_students userEmail edge discountId :
  (enabled (getDiscountConfig userEmail edge discountId) = true ->
   exists email sid localPart domain pattern,
     userEmail = Some email
     /\ discountId = Some sid /\ sid <> EmptyString
     /\ js_split "@" (toLowerCase email) = [localPart; domain]
     /\ pattern ∈ studentDomains_of edge
     /\ (is_suffix (toLowerCase pattern) domain
         \/ (toLowerCase pattern = ".edu" /\ edu_country_domain domain))
     /\ getDiscountConfig userEmail edge discountId
        = MkDiscountConfig true (Some StudentDiscountApplied) (Some 5) true
            (Some sid))
  /\ (enabled (getDiscountConfig userEmail edge discountId) = false ->
      getDiscountConfig userEmail edge discountId = defaultConfig).
Proof.
  split.
  - intros H. apply enabled_inv in H.
    destruct H as (email & sid & -> & -> & Hsid & Hstudent & Hcfg).
    apply isStudentEmail_matching in Hstudent.
    destruct Hstudent as (l & d & p & Hsplit & Hin & Hp).
    exists email, sid, l, d, p. auto 10.
  - unfold getDiscountConfig.
    destruct (negb (truthy_string userEmail)); [reflexivity|].
    cbv zeta.
    destruct (negb (isStudentEmail _ _)); [reflexivity|].
    destruct (negb (truthy_string discountId)); [reflexivity|].
    discriminate.
Qed.

Lemma getDiscountConfig_only_for_students_witness :
  getDiscountConfig (Some "ravi@iitb.ac.in") (Returned (Some ".edu, .ac.in")) None
  = defaultConfig.
Proof.
  apply (getDiscountConfig_only_for_students
           (Some "ravi@iitb.ac.in") (Returned (Some ".edu, .ac.in")) None).
  reflexivity.
Defined.

Lemma is_suffix_edu_in domain :
  is_suffix ".edu.in" domain -> edu_country_domain domain.
Proof.
  intros [front ->]. exists front, "in".
  split; [reflexivity|]. split; [simpl; lia|reflexivity].
Qed.

(** When Edge Config cannot be read, the built-in domains decide: an
    address with one [@] and a discount id get the discount exactly when
    the lower-cased domain ends with [.edu], with [.ac.in], or with
    [.edu.] and a country code of two or three letters. *)
Lemma fallback_domains_decide msg email localPart domain sid :
  js_split "@" email = [localPart; domain] ->
  sid <> EmptyString ->
  enabled (getDiscountConfig (Some email) (Thrown msg) (Some sid)) = true
  <-> is_suffix ".edu" (toLowerCase domain)
      \/ is_suffix ".ac.in" (toLowerCase domain)
      \/ edu_country_domain (toLowerCase domain).
Proof.
  intros Hsplit Hsid.
  assert (Hlower : js_split "@" (toLowerCase email)
                   = [toLowerCase localPart; toLowerCase domain]).
  { rewrite DiscountFacts.js_split_toLowerCase, Hsplit. reflexivity. }
  split.
  - intros H. apply enabled_inv in H.
    destruct H as (email' & sid' & [= <-] & _ & _ & Hstudent & _).
    apply isStudentEmail_matching in Hstudent.
    destruct Hstudent as (l & d & p & Hsplit' & Hin & Hp).
    rewrite Hlower in Hsplit'. injection Hsplit' as <- <-.
    simpl in Hin. unfold fallback_domains in Hin.
    rewrite !elem_of_cons, elem_of_nil in Hin.
    destruct Hin as [->|[->|[->|[]]]].
    + destruct Hp as [Hp|[_ Hp]]; auto.
    + destruct Hp as [Hp|[Hp _]]; [auto|discriminate].
    + destruct Hp as [Hp|[Hp _]]; [|discriminate].
      right; right. apply is_suffix_edu_in. exact Hp.
  - intros H. apply enabled_intro; [exact Hsid|].
    apply isStudentEmail_matching.
    exists (toLowerCase localPart), (toLowerCase domain).
    simpl. unfold fallback_domains.
    destruct H as [H|[H|H]].
    + exists ".edu". split; [exact Hlower|]. split; [set_solver|]. left. exact H.
    + exists ".ac.in". split; [exact Hlower|]. split; [set_solver|]. left. exact H.
    + exists ".edu". split; [exact Hlower|]. split; [set_solver|].
      right. split; [reflexivity|exact H].
Qed.


(** *** Reading the comma-separated domains *)

Lemma trimStart_head s c rest :
  trimStart s = String c rest -> is_whitespace c = false.
Proof.
  induction s as [|a s IH]; [discriminate|]. simpl.
  destruct (is_whitespace a) eqn:Ha; [exact IH|].
  intros [= <- <-]. exact Ha.
Qed.

Lemma trimEnd_head c s :
  is_whitespace c = false -> exists rest, trimEnd (String c s) = String c rest.
Proof.
  intros Hc. cbn [trimEnd]. rewrite Hc. destruct (trimEnd s); eauto.
Qed.

Lemma trim_head s c rest : trim s = String c rest -> is_whitespace c = false.
Proof.
  unfold trim. destruct (trimStart s) as [|a r] eqn:Hstart; [discriminate|].
  pose proof (trimStart_head _ _ _ Hstart) as Ha.
  destruct (trimEnd_head a r Ha) as [rest' ->]. intros [= <- _]. exact Ha.
Qed.

Lemma trimStart_fixed s :
  (forall c rest, s = String c rest -> is_whitespace c = false) ->
  trimStart s = s.
Proof.
  intros H. destruct s as [|c rest]; [reflexivity|].
  simpl. rewrite (H c rest eq_refl). reflexivity.
Qed.

Lemma trimEnd_idemp s : trimEnd (trimEnd s) = trimEnd s.
Proof.
  induction s as [|c s IH]; [reflexivity|]. cbn [trimEnd].
  destruct (trimEnd s) as [|a r] eqn:Hend.
  - destruct (is_whitespace c) eqn:Hc; [reflexivity|].
    cbn [trimEnd]. rewrite Hc. reflexivity.
  - cbn [trimEnd]. cbn [trimEnd] in IH. rewrite IH. reflexivity.
Qed.

Lemma trim_idemp s : trim (trim s) = trim s.
Proof.
  unfold trim at 1. rewrite trimStart_fixed.
  - apply trimEnd_idemp.
  - apply trim_head.
Qed.

Lemma contains_char_trimStart c s :
  Trending.contains_char c s = false ->
  Trending.contains_char c (trimStart s) = false.
Proof.
  induction s as [|a s IH]; [reflexivity|]. intros H. cbn [trimStart].
  destruct (is_whitespace a); [|exact H].
  apply IH. simpl in H. apply orb_false_iff in H. tauto.
Qed.

Lemma contains_char_trimEnd c s :
  Trending.contains_char c s = false ->
  Trending.contains_char c (trimEnd s) = false.
Proof.
  induction s as [|a s IH]; [reflexivity|]. intros H. cbn [trimEnd].
  simpl in H. apply orb_false_iff in H. destruct H as [Ha Hs].
  specialize (IH Hs).
  destruct (trimEnd s) as [|b r].
  - destruct (is_whitespace a); [reflexivity|]. simpl. rewrite Ha. reflexivity.
  - cbn [Trending.contains_char]. rewrite Ha. exact IH.
Qed.

Lemma js_split_pieces c s piece :
  piece ∈ js_split c s -> Trending.contains_char c piece = false.
Proof.
  revert piece. induction s as [|a s IH]; intros piece; cbn [js_split].
  - intros H. apply list_elem_of_singleton in H. subst. reflexivity.
  - destruct (decide (a = c)) as [->|Hne].
    + rewrite bool_decide_eq_true_2 by reflexivity.
      intros H. apply elem_of_cons in H. destruct H as [->|H]; [reflexivity|].
      apply IH. exact H.
    + rewrite bool_decide_eq_false_2 by assumption.
      destruct (js_split c s) as [|p ps].
      * intros H. apply list_elem_of_singleton in H. subst. simpl.
        rewrite bool_decide_eq_false_2 by assumption. reflexivity.
      * intros H. apply elem_of_cons in H. destruct H as [->|H].
        -- simpl. rewrite bool_decide_eq_false_2 by assumption.
           apply IH. left.
        -- apply IH. right. exact H.
Qed.

(** X25.  Every domain read from the configuration is a piece between commas
    with the white space around it removed: it is not empty, it neither
    starts nor ends with white space, and it holds no comma. *)
Theorem parse_domains_clean config domain :
  domain ∈ parse_domains config ->
  domain <> EmptyString
  /\ trim domain = domain
  /\ (forall c rest, domain = String c rest -> is_whitespace c = false)
  /\ Trending.contains_char "," domain = false.
Proof.
  unfold parse_domains. intros H.
  apply list_elem_of_filter in H. destruct H as [Hlen H].
  apply list_elem_of_fmap in H. destruct H as (piece & -> & Hpiece).
  split; [|split; [|split]].
  - intros Hempty. rewrite Hempty in Hlen. simpl in Hlen. lia.
  - apply trim_idemp.
  - apply trim_head.
  - unfold trim. apply contains_char_trimEnd, contains_char_trimStart.
    apply (js_split_pieces _ config). exact Hpiece.
Qed.

Lemma parse_domains_clean_witness :
  trim ".ac.uk" = ".ac.uk".
Proof.
  apply (parse_domains_clean ".edu ,,  .ac.uk	, " ".ac.uk").
  unfold parse_domains. apply list_elem_of_filter. split; [simpl; lia|].
  apply list_elem_of_fmap. exists "  .ac.uk	". split; [reflexivity|].
  vm_compute. set_solver.
Defined.

Lemma js_split_blank s :
  string_forall Notions.blank_or_comma s = true ->
  Forall (fun piece => string_forall is_whitespace piece = true) (js_split "," s).
Proof.
  induction s as [|a s IH]; cbn [js_split string_forall].
  - intros _. constructor; [reflexivity|constructor].
  - intros H. apply andb_true_iff in H. destruct H as [Ha Hs].
    specialize (IH Hs). unfold Notions.blank_or_comma in Ha.
    destruct (bool_decide (a = ","%char)).
    + constructor; [reflexivity|exact IH].
    + simpl in Ha. destruct (js_split "," s) as [|p ps].
      * constructor; [|constructor]. simpl. rewrite Ha. reflexivity.
      * inversion IH; subst. constructor; [|assumption].
        simpl. rewrite Ha. assumption.
Qed.

Lemma trim_blank s : string_forall is_whitespace s = true -> trim s = EmptyString.
Proof.
  unfold trim. induction s as [|a s IH]; [reflexivity|].
  simpl. intros H. apply andb_true_iff in H. destruct H as [-> Hs].
  apply IH. exact Hs.
Qed.

Lemma parse_domains_blank s :
  string_forall Notions.blank_or_comma s = true -> parse_domains s = [].
Proof.
  intros H. apply js_split_blank in H. unfold parse_domains.
  induction H as [|piece pieces Hpiece _ IH]; [reflexivity|].
  rewrite fmap_cons, filter_cons, (trim_blank _ Hpiece).
  rewrite decide_False by (simpl; lia). exact IH.
Qed.

(** When the read of Edge Config succeeds and gives no string, or a
    string of nothing but commas and white space, no domain is in effect. *)
Lemma no_domains_no_discount userEmail config discountId :
  config = None
  \/ (exists s, config = Some s /\ string_forall Notions.blank_or_comma s = true) ->
  getDiscountConfig userEmail (Returned config) discountId = defaultConfig.
Proof.
  intros Hconfig.
  assert (Hnone : studentDomains_of (Returned config) = []).
  { destruct Hconfig as [->|(s & -> & Hblank)]; [reflexivity|].
    unfold studentDomains_of. destruct (truthy_string (Some s)); [|reflexivity].
    apply parse_domains_blank. exact Hblank. }
  unfold getDiscountConfig. rewrite Hnone.
  destruct (negb (truthy_string userEmail)); [reflexivity|].
  cbv zeta. unfold isStudentEmail.
  destruct (bool_decide (_ = EmptyString)); reflexivity.
Qed.

(** X24.  A failure to read Edge Config is the only way to the built-in
    domains.  When the read throws, an address with one [@] and a
    discount id get the discount exactly when the lower-cased domain
    ends with [.edu], with [.ac.in], or with [.edu.] and a country code
    of two or three letters.  When the read succeeds and gives no
    string, or a string of nothing but commas and white space, the
    answer is the default configuration for every address. *)
Theorem getDiscountConfig_domain_source :
  (forall msg email localPart domain sid,
      js_split "@" email = [localPart; domain] ->
      sid <> EmptyString ->
      enabled (getDiscountConfig (Some email) (Thrown msg) (Some sid)) = true
      <-> is_suffix ".edu" (toLowerCase domain)
          \/ is_suffix ".ac.in" (toLowerCase domain)
          \/ edu_country_domain (toLowerCase domain))
  /\ (forall userEmail config discountId,
        config = None
        \/ (exists s, config = Some s
                      /\ string_forall Notions.blank_or_comma s = true) ->
        getDiscountConfig userEmail (Returned config) discountId = defaultConfig).
Proof.
  split.
  - apply fallback_domains_decide.
  - apply no_domains_no_discount.
Qed.

Lemma getDiscountConfig_domain_source_witness :
  enabled (getDiscountConfig (Some "Mei@cs.Tsinghua.edu.cn") (Thrown "edge config")
             (Some "coupon_1")) = true
  /\ getDiscountConfig (Some "mei@mit.edu") (Returned (Some " , ,")) (Some "coupon_1")
     = defaultConfig.
Proof.
  destruct getDiscountConfig_domain_source as [Hthrown Hblank].
  split.
  - apply (Hthrown "edge config" "Mei@cs.Tsinghua.edu.cn" "Mei" "cs.Tsinghua.edu.cn"
             "coupon_1"); [reflexivity|discriminate|].
    right; right. exists "cs.tsinghua", "cn".
    split; [reflexivity|]. split; [simpl; lia|reflexivity].
  - apply Hblank. right. exists " , ,". split; reflexivity.
Defined.

End DiscountMore.

(* ===================================================================== *)
(** ** The Reddit search tool: subreddit names and stream parts *)
(* ===================================================================== *)

Module RedditMore.
Import Reddit Vocabulary.

Lemma path_segment_no_slash s :
  Trending.contains_char "/" (fst (path_segment s)) = false.
Proof.
  induction s as [|c s IH]; [reflexivity|]. cbn [path_segment].
  destruct (bool_decide (c = "/"%char)) eqn:Hc; [reflexivity|].
  destruct (path_segment s) as [seg rest]. simpl. simpl in IH.
  rewrite Hc, IH. reflexivity.
Qed.

Lemma subreddit_here_segment s seg :
  subreddit_here s = Some seg ->
  seg <> EmptyString /\ Trending.contains_char "/" seg = false.
Proof.
  unfold subreddit_here.
  destruct (strip_prefix same_char_i "reddit.com/r/" s) as [rest|]; [|discriminate].
  pose proof (path_segment_no_slash rest) as Hslash.
  destruct (path_segment rest) as [seg' after]. simpl in Hslash.
  destruct (decide (seg' = EmptyString)) as [->|Hne].
  - rewrite bool_decide_eq_true_2 by reflexivity. discriminate.
  - rewrite bool_decide_eq_false_2 by assumption. intros [= <-]. auto.
Qed.

Lemma subredditMatch_segment s seg :
  subredditMatch s = Some seg ->
  seg <> EmptyString /\ Trending.contains_char "/" seg = false.
Proof.
  induction s as [|c s IH]; cbn [subredditMatch].
  - destruct (subreddit_here EmptyString) as [seg'|] eqn:Hhere; [|discriminate].
    intros [= <-]. exact (subreddit_here_segment _ _ Hhere).
  - destruct (subreddit_here (String c s)) as [seg'|] eqn:Hhere; [|exact IH].
    intros [= <-]. exact (subreddit_here_segment _ _ Hhere).
Qed.

Lemma post_here_subreddit s :
  post_here s = true -> is_Some (subreddit_here s).
Proof.
  unfold post_here, subreddit_here.
  destruct (strip_prefix same_char_i "reddit.com/r/" s) as [rest|]; [|discriminate].
  destruct (path_segment rest) as [seg after].
  destruct (bool_decide (seg = EmptyString)); [discriminate|]. eauto.
Qed.

Lemma isRedditPostUrl_subreddit s :
  isRedditPostUrl s = true -> is_Some (subredditMatch s).
Proof.
  induction s as [|c s IH]; cbn [isRedditPostUrl subredditMatch]; intros H;
    apply orb_true_iff in H.
  - destruct H as [H|H]; [|discriminate].
    apply post_here_subreddit in H. destruct H as [seg ->]. eauto.
  - destruct (subreddit_here (String c s)) as [seg|] eqn:Hhere; [eauto|].
    destruct H as [H|H]; [|exact (IH H)].
    apply post_here_subreddit in H. rewrite Hhere in H.
    destruct H as [seg H]. discriminate.
Qed.

(** X26.  A result is never left without a subreddit name: the name is a
    non-empty path segment of the address, or [unknown]; and a result
    flagged as a Reddit post always takes its name from its address. *)
Theorem processResult_subreddit (result : tavily_result) :
  subreddit (processResult result) <> EmptyString
  /\ (subredditMatch (tr_url result) = None ->
      subreddit (processResult result) = "unknown"
      /\ isRedditPost (processResult result) = false)
  /\ (isRedditPost (processResult result) = true ->
      exists seg,
        subredditMatch (tr_url result) = Some seg
        /\ subreddit (processResult result) = seg
        /\ seg <> EmptyString
        /\ Trending.contains_char "/" seg = false).
Proof.
  cbn [processResult subreddit isRedditPost].
  split; [|split].
  - destruct (subredditMatch (tr_url result)) as [seg|] eqn:Hmatch; [|discriminate].
    simpl. exact (proj1 (subredditMatch_segment _ _ Hmatch)).
  - intros Hnone. rewrite Hnone. split; [reflexivity|].
    destruct (isRedditPostUrl (tr_url result)) eqn:Hpost; [|reflexivity].
    apply isRedditPostUrl_subreddit in Hpost. rewrite Hnone in Hpost.
    destruct Hpost as [seg Hpost]. discriminate.
  - intros Hpost. apply isRedditPostUrl_subreddit in Hpost.
    destruct Hpost as [seg Hmatch]. exists seg. rewrite Hmatch.
    split; [reflexivity|]. split; [reflexivity|].
    exact (subredditMatch_segment _ _ Hmatch).
Qed.

Lemma processResult_subreddit_witness :
  exists seg,
    subredditMatch "https://www.Reddit.com/r/rocq/comments/1abc/tactics/" = Some seg
    /\ subreddit (processResult
                    (TavilyResult "https://www.Reddit.com/r/rocq/comments/1abc/tactics/"
                       None None None 1%Q)) = seg
    /\ seg <> EmptyString
    /\ Trending.contains_char "/" seg = false.
Proof.
  apply (processResult_subreddit
           (TavilyResult "https://www.Reddit.com/r/rocq/comments/1abc/tactics/"
              None None None 1%Q)).
  reflexivity.
Defined.

Section WithSearch.
Variable search : string -> Q -> outcome (list tavily_result).

Lemma searchOne_notification total k q maxResults :
  snd (searchOne search total k q maxResults)
  = Notification q k total
      match search q (currentMaxResults maxResults k) with
      | Returned _ => completed
      | Thrown _ => error
      end
      (length (results (entry_of search maxResults k q))) 0.
Proof.
  unfold searchOne, entry_of.
  destruct (search q (currentMaxResults maxResults k)); reflexivity.
Qed.

End WithSearch.

(** X27.  With a data stream, every query gets two parts, both carrying its
    text, its position and the number of queries: a [started] part, and
    a part whose status is [error] exactly when its search threw and
    whose result count is the number of results of its entry in
    [searches].  Without a data stream nothing is written, and
    [searches] is the same. *)
Theorem execute_notifications
    (search : string -> Q -> outcome (list tavily_result)) (i : tool_input) :
  let streamed := execute search true i in
  let silent := execute search false i in
  let total := length (queries i) in
  length (written_started streamed) = total
  /\ length (written_settled streamed) = total
  /\ (forall k q, queries i !! k = Some q ->
        written_started streamed !! k = Some (Notification q k total started 0 0)
        /\ exists entry part,
             searches streamed !! k = Some entry
             /\ written_settled streamed !! k = Some part
             /\ n_query part = q /\ n_index part = k /\ n_total part = total
             /\ n_imagesCount part = 0%nat
             /\ n_resultsCount part = length (results entry)
             /\ n_status part <> started
             /\ (n_status part = error
                 <-> exists msg,
                       search q (currentMaxResults (maxResults i) k) = Thrown msg))
  /\ written_started silent = []
  /\ written_settled silent = []
  /\ searches silent = searches streamed.
Proof.
  cbv zeta. unfold execute.
  cbn [written_started written_settled searches].
  rewrite !RedditFacts.map_fmap, !length_fmap, !length_imap.
  split; [reflexivity|]. split; [reflexivity|].
  split; [|auto].
  intros k q Hq. split.
  - rewrite list_lookup_imap, Hq. reflexivity.
  - exists (entry_of search (maxResults i) k q),
      (snd (searchOne search (length (queries i)) k q (maxResults i))).
    rewrite !list_lookup_fmap, list_lookup_imap, Hq. cbn [fmap option_fmap option_map].
    rewrite RedditFacts.searchOne_entry.
    split; [reflexivity|]. split; [reflexivity|].
    rewrite searchOne_notification. cbn.
    split; [reflexivity|]. split; [reflexivity|]. split; [reflexivity|].
    split; [reflexivity|]. split; [reflexivity|].
    destruct (search q (currentMaxResults (maxResults i) k)) as [data|msg].
    + split; [discriminate|]. split; [discriminate|]. intros [msg Hmsg]. discriminate.
    + split; [discriminate|]. split; [eauto|reflexivity].
Qed.

Lemma execute_notifications_witness :
  written_started (execute Samples.flaky_search true Samples.three_queries) !! 1%nat
  = Some (Notification "boom" 1 3 started 0 0).
Proof.
  destruct (execute_notifications Samples.flaky_search Samples.three_queries)
    as (_ & _ & Hparts & _).
  apply (Hparts 1%nat "boom"). reflexivity.
Defined.

End RedditMore.

(* ===================================================================== *)
(** ** The trending tools: the cut at 20 and the overview *)
(* ===================================================================== *)

Section TakeBest.
Context {A : Type} (after : A -> A -> bool).
Hypothesis after_asym : forall a b, after a b = true -> after b a = false.
Hypothesis after_trans :
  forall a b c, after a b = false -> after b c = false -> after a c = false.

(** What [sort(cmp).slice(0, n)] leaves out has to go after nothing that
    it keeps, and nothing is left out unless [n] elements are kept. *)
Lemma js_sort_take_best n (l : list A) x :
  x ∈ l ->
  x ∈ take n (js_sort after l)
  \/ (length (take n (js_sort after l)) = n
      /\ forall y, y ∈ take n (js_sort after l) -> after y x = false).
Proof.
  intros Hx. apply (elem_of_js_sort after) in Hx.
  pose proof (js_sort_sorted after after_asym after_trans l) as Hsorted.
  rewrite <- (take_drop n (js_sort after l)) in Hx, Hsorted.
  apply elem_of_app in Hx. destruct Hx as [Hx|Hx]; [left; exact Hx|].
  right. split.
  - apply length_take_le.
    destruct (decide (n <= length (js_sort after l))%nat) as [Hle|Hgt];
      [exact Hle|].
    rewrite drop_ge in Hx by lia. inversion Hx.
  - intros y Hy. exact (StronglySorted_app_1_elem_of _ _ _ _ _ Hsorted Hy Hx).
Qed.

End TakeBest.

Module TrendingMore.
Import Trending Vocabulary.

Lemma contains_char_strip_tags c inside s :
  contains_char c s = false -> contains_char c (strip_tags inside s) = false.
Proof.
  revert inside. induction s as [|a s IH]; intros inside; [reflexivity|].
  cbn [contains_char strip_tags]. intros H.
  apply orb_false_iff in H. destruct H as [Ha Hs].
  destruct inside.
  - destruct (bool_decide (a = ">"%char)); apply IH, Hs.
  - destruct (bool_decide (a = "<"%char) && contains_char ">" s); [apply IH, Hs|].
    cbn [contains_char]. rewrite Ha. apply IH, Hs.
Qed.

Lemma strip_tags_no_tag inside s before rest :
  strip_tags inside s = before +:+ String "<" rest ->
  contains_char ">" rest = false.
Proof.
  revert inside before. induction s as [|a s IH]; intros inside before.
  - simpl. destruct before; discriminate.
  - cbn [strip_tags]. destruct inside.
    + destruct (bool_decide (a = ">"%char)); apply IH.
    + destruct (bool_decide (a = "<"%char)) eqn:Ha; cbn [andb].
      * destruct (contains_char ">" s) eqn:Hs; [apply IH|].
        destruct before as [|b before]; simpl.
        -- intros [= _ <-]. apply contains_char_strip_tags, Hs.
        -- intros [= _ H]. exact (IH _ _ H).
      * destruct before as [|b before]; simpl.
        -- intros [= -> _]. discriminate.
        -- intros [= _ H]. exact (IH _ _ H).
Qed.

Lemma strip_tags_plain s :
  contains_char "<" s = false -> strip_tags false s = s.
Proof.
  induction s as [|a s IH]; [reflexivity|]. cbn [contains_char strip_tags].
  intros H. apply orb_false_iff in H. destruct H as [-> Hs].
  cbn [andb]. rewrite (IH Hs). reflexivity.
Qed.

(** X28.  The overview holds no tag: no [<] of it is followed by a [>].  A
    summary without [<] is taken as it is, and a missing summary gives
    the empty text. *)
Theorem overview_has_no_tag (fullYear : string -> string) (sh : show) :
  (forall before rest,
      overview (reshape fullYear sh) = before +:+ String "<" rest ->
      contains_char ">" rest = false)
  /\ (forall summary,
        show_summary sh = Some summary ->
        contains_char "<" summary = false ->
        overview (reshape fullYear sh) = summary)
  /\ (show_summary sh = None -> overview (reshape fullYear sh) = EmptyString).
Proof.
  cbn [reshape overview]. split; [|split].
  - intros before rest. destruct (show_summary sh) as [summary|]; simpl.
    + apply strip_tags_no_tag.
    + destruct before; discriminate.
  - intros summary -> Hplain. simpl. apply strip_tags_plain, Hplain.
  - intros ->. reflexivity.
Qed.

Lemma overview_has_no_tag_witness :
  contains_char ">" " c" = false.
Proof.
  destruct (overview_has_no_tag Samples.year_prefix
              (MkShow 1 None None None (Some "<b>a</b> > b < c") None None None))
    as (Htag & _).
  apply (Htag "a > b " " c"). reflexivity.
Defined.


(** X29.  The cut at 20 keeps the best rated shows: a rated show of the
    schedule is among the results, unless the results are 20 shows each
    rated at least as high as it is. *)
Theorem trending_keeps_best_rated (fullYear : string -> string)
    (data : list episode) (k : Z) (sh : show) :
  first_rated_occurrence data k = Some sh ->
  let results := results_of fullYear data in
  reshape fullYear sh ∈ results
  \/ (length results = 20%nat
      /\ forall m, m ∈ results ->
           (number_or_zero (show_rating_average sh) <= vote_average m)%Q).
Proof.
  intros Hsh results. unfold results, results_of.
  assert (Hin : sh ∈ snd <$> collect_shows data).
  { apply list_elem_of_fmap. exists (k, sh). split; [reflexivity|].
    apply TrendingFacts.collect_shows_spec, Hsh. }
  destruct (js_sort_take_best rated_higher_first
              TrendingFacts.rated_higher_first_asym
              TrendingFacts.rated_higher_first_trans 20 _ _ Hin)
    as [Hkept|[Hlen Hbest]].
  - left. apply list_elem_of_fmap. exists sh. auto.
  - right. rewrite length_fmap. split; [exact Hlen|].
    intros m Hm. apply list_elem_of_fmap in Hm. destruct Hm as (sh' & -> & Hsh').
    cbn [reshape vote_average].
    apply TrendingFacts.rated_higher_first_ge, Hbest, Hsh'.
Qed.

Lemma trending_keeps_best_rated_witness :
  reshape Samples.year_prefix Samples.rated_listing
    ∈ results_of Samples.year_prefix Samples.schedule
  \/ (length (results_of Samples.year_prefix Samples.schedule) = 20%nat
      /\ forall m, m ∈ results_of Samples.year_prefix Samples.schedule ->
           (number_or_zero (show_rating_average Samples.rated_listing)
            <= vote_average m)%Q).
Proof.
  apply (trending_keeps_best_rated Samples.year_prefix Samples.schedule 7).
  reflexivity.
Defined.

End TrendingMore.

(* ===================================================================== *)
(** ** The trending TV shows tool *)
(* ===================================================================== *)

Module TrendingTvFacts.
Import TrendingTv.

Lemma updated_later_first_lt u a b :
  updated_later_first u a b = true <-> (updated_at u a < updated_at u b)%Q.
Proof.
  unfold updated_later_first. rewrite Qlt_alt.
  destruct (_ ?= _)%Q; split; congruence.
Qed.

Lemma updated_later_first_ge u a b :
  updated_later_first u a b = false <-> (updated_at u b <= updated_at u a)%Q.
Proof.
  pose proof (updated_later_first_lt u a b) as Hlt.
  destruct (updated_later_first u a b); split; intros H; try congruence.
  - exfalso. apply (Qle_not_lt _ _ H). apply Hlt. reflexivity.
  - apply Qnot_lt_le. intros Hab. apply Hlt in Hab. discriminate.
Qed.

Lemma updated_later_first_asym u a b :
  updated_later_first u a b = true -> updated_later_first u b a = false.
Proof.
  rewrite updated_later_first_lt, updated_later_first_ge. apply Qlt_le_weak.
Qed.

Lemma updated_later_first_trans u a b c :
  updated_later_first u a b = false ->
  updated_later_first u b c = false ->
  updated_later_first u a c = false.
Proof.
  rewrite !updated_later_first_ge. intros Hab Hbc. eapply Qle_trans; eassumption.
Qed.

Lemma showIds_keys u key : key ∈ showIds u -> key ∈ keys u.
Proof.
  unfold showIds. intros H.
  apply subseteq_take in H. apply elem_of_js_sort in H. exact H.
Qed.

Lemma showPromise_Some fetchShow key sh :
  showPromise fetchShow key = Some sh
  <-> fetchShow key = ShowResponse true (Returned (Some sh)).
Proof.
  unfold showPromise. split.
  - destruct (fetchShow key) as [msg|[] [[sh'|]|msg]]; try discriminate.
    intros [= ->]. reflexivity.
  - intros ->. reflexivity.
Qed.

Lemma omap_length_le {A B} (f : A -> option B) (l : list A) :
  (length (omap f l) <= length l)%nat.
Proof.
  induction l as [|x l IH]; [reflexivity|]. cbn [omap list_omap].
  destruct (f x); simpl; lia.
Qed.

(** X30.  Once the updates are read the tool returns, whatever becomes of the
    fetches of the shows.  It asks for at most 20 shows, those updated
    last: an id left out was updated no later than each of the 20 asked
    for.  The results are the shows whose fetch gave a show, in the
    order of their last update, latest first; a show whose fetch fails
    is left out. *)
Theorem trendingTv_results (fullYear : string -> string)
    (fetchShow : string -> show_fetch) (u : updates) :
  let results := results_of fullYear fetchShow u in
  execute fullYear fetchShow (UpdatesResponse true (Returned u)) = Returned results
  /\ (length results <= length (showIds u) <= 20)%nat
  /\ (forall key, key ∈ keys u ->
        key ∈ showIds u
        \/ (length (showIds u) = 20%nat
            /\ forall asked, asked ∈ showIds u ->
                 (updated_at u key <= updated_at u asked)%Q))
  /\ StronglySorted (fun a b => (updated_at u b <= updated_at u a)%Q) (showIds u)
  /\ (forall m, m ∈ results
        <-> exists key sh,
              key ∈ showIds u
              /\ fetchShow key = ShowResponse true (Returned (Some sh))
              /\ m = reshape fullYear sh)
  /\ (exists fetched,
        sublist fetched (showIds u)
        /\ Forall2 (fun key m =>
                      exists sh, fetchShow key = ShowResponse true (Returned (Some sh))
                                 /\ m = reshape fullYear sh)
             fetched results).
Proof.
  intros results. split; [reflexivity|].
  split; [|split; [|split; [|split]]].
  - unfold results, results_of. rewrite length_fmap. split.
    + apply omap_length_le.
    + unfold showIds. rewrite length_take. lia.
  - intros key Hkey.
    destruct (js_sort_take_best (updated_later_first u)
                (updated_later_first_asym u) (updated_later_first_trans u)
                20 _ _ Hkey) as [Hkept|[Hlen Hbest]]; [left; exact Hkept|].
    right. split; [exact Hlen|]. intros asked Hasked.
    apply updated_later_first_ge, Hbest, Hasked.
  - unfold showIds. apply TrendingFacts.StronglySorted_take.
    pose proof (js_sort_sorted (updated_later_first u)
                  (updated_later_first_asym u) (updated_later_first_trans u)
                  (keys u)) as Hsorted.
    induction Hsorted as [|a l _ IH Hall]; constructor; [exact IH|].
    eapply Forall_impl; [exact Hall|].
    intros b Hab. apply updated_later_first_ge, Hab.
  - intros m. unfold results, results_of.
    rewrite list_elem_of_fmap. split.
    + intros (sh & -> & Hsh). apply list_elem_of_omap in Hsh.
      destruct Hsh as (key & Hkey & Hfetch). exists key, sh.
      split; [exact Hkey|]. split; [|reflexivity].
      apply showPromise_Some, Hfetch.
    + intros (key & sh & Hkey & Hfetch & ->). exists sh. split; [reflexivity|].
      apply list_elem_of_omap. exists key. split; [exact Hkey|].
      apply showPromise_Some, Hfetch.
  - unfold results, results_of.
    induction (showIds u) as [|key ids IH].
    + exists []. split; constructor.
    + destruct IH as (fetched & Hsub & Hall). cbn [omap list_omap].
      destruct (showPromise fetchShow key) as [sh|] eqn:Hfetch.
      * exists (key :: fetched). split; [constructor; exact Hsub|].
        rewrite fmap_cons. constructor; [|exact Hall].
        exists sh. split; [apply showPromise_Some, Hfetch|reflexivity].
      * exists fetched. split; [constructor; exact Hsub|exact Hall].
Qed.

Lemma trendingTv_results_witness :
  reshape Samples.year_prefix TvFixtures.second_show
    ∈ results_of Samples.year_prefix TvFixtures.patchy_fetch TvFixtures.recent.
Proof.
  destruct (trendingTv_results Samples.year_prefix TvFixtures.patchy_fetch
              TvFixtures.recent) as (_ & _ & _ & _ & Hresults & _).
  pose proof (Hresults (reshape Samples.year_prefix TvFixtures.second_show))
    as [_ Hmade].
  apply Hmade. exists "2", TvFixtures.second_show.
  split; [|split; reflexivity].
  change ("2" ∈ ["2"; "3"; "1"]). left.
Defined.

End TrendingTvFacts.
